(** * ClickUp budget alerts: the alert evaluation pipeline

    A shallow embedding of the API client ([electron/services/clickupClient.ts]),
    the entry aggregator ([electron/services/alertEngine.ts]), the refresh
    orchestrator ([electron/services/refreshAlerts.ts]) and the batch
    coordinator ([electron/main.ts]), with the properties the specification
    states about them; then further properties of the same code, of the
    lookups of the client ([getTeamMemberIds], [getTasks]), of the alert
    handlers of [electron/main.ts], of the store ([electron/services/storage.ts])
    and of the dashboard summary ([src/utils.ts]).

    Conventions of the embedding.
    - A JavaScript [number] is an IEEE double in the source.  A finite
      number is embedded as the rational ([Q]) that it denotes, and rationals
      are compared with [==].  [Math.round x] is [floor (x + 1/2)].
    - The arithmetic of the entry aggregator is embedded twice.  [Double]
      has the operations of the source in binary64 (every sum, difference,
      product and quotient rounded to nearest, ties to even, with subnormal
      numbers, infinities and [NaN]); the numbers of a snapshot are those of
      [Double.buildSnapshot].  [roundHours], [sumHours] and [buildSnapshot]
      outside [Double] are the same expressions without the rounding of
      binary64; the orchestrator is written over them, and what is proved
      of their numbers are facts of order and sign that the rounding keeps.
    - Asynchronous code is sequential state passing over a provider state:
      every [await] in the modelled functions is awaited before the next
      statement runs.
    - An exception is a value of type [Exn]; a function that may throw
      returns a [Completion].
    - The state file of [storage.ts] is a record, with two flags that say
      whether the file system lets it be read and written. *)

From Stdlib Require Import QArith Qabs Qround Qpower ZArith Lia Lqa Floats.
From Stdlib Require Import Ascii String DecimalString Sorted.
From stdpp Require Import gmap strings list.

Set Warnings "-register-all".

Open Scope string_scope.
Open Scope list_scope.

(** ** JavaScript values *)

(** Numbers that [JSON.parse] can produce: finite ones and, on overflow of
    the literal, the two infinities.  [NaN] is not the value of any JSON
    text. *)
Inductive jsnum : Type :=
| Fin (q : Q)
| PInf
| NInf.

Definition isFinite (n : jsnum) : option Q :=
  match n with Fin q => Some q | _ => None end.

(** [a <= b] and [a < b] on numbers. *)
Definition num_le (a b : jsnum) : bool :=
  match a, b with
  | NInf, _ => true
  | _, PInf => true
  | Fin x, Fin y => Qle_bool x y
  | _, _ => false
  end.

Definition num_lt (a b : jsnum) : bool := negb (num_le b a).

(** [a + 1]. *)
Definition num_succ (a : jsnum) : jsnum :=
  match a with Fin x => Fin (x + 1) | other => other end.

Inductive JSON : Type :=
| JNull
| JBool (b : bool)
| JNum (n : jsnum)
| JStr (s : string)
| JArr (items : list JSON)
| JObj (fields : list (string * JSON)).

(** Own properties of an object, as a list of bindings, one per key as
    [JSON.parse] keeps them; [assoc] reads the binding of a key. *)
Fixpoint assoc {A : Type} (k : string) (l : list (string * A)) : option A :=
  match l with
  | [] => None
  | (k', v) :: rest => if String.eqb k k' then Some v else assoc k rest
  end.

(** [value.key] where [value] is not [null]: the property of an object,
    [undefined] (here [None]) otherwise.  The keys read by the client are
    never array indices or [length], so an array has none of them. *)
Definition prop (key : string) (value : JSON) : option JSON :=
  match value with
  | JObj fields => assoc key fields
  | _ => None
  end.

Definition isNull (value : JSON) : bool :=
  match value with JNull => true | _ => false end.

(** [value && typeof value === 'object'] *)
Definition isObject (value : JSON) : bool :=
  match value with
  | JObj _ | JArr _ => true
  | _ => false
  end.

(** ** Strings *)

(** A JavaScript string is embedded as the UTF-8 encoding of its text,
    which is what a string literal of this file holds.  Equality, the empty
    string and concatenation are those of the text.

    The white space that [String.prototype.trim] removes is the WhiteSpace
    and the LineTerminator of ECMAScript: tab, line feed, vertical tab,
    form feed, carriage return and space, which are one byte each, and
    U+00A0, U+1680, U+2000 to U+200A, U+2028, U+2029, U+202F, U+205F,
    U+3000 and U+FEFF, which are two or three bytes. *)
Definition isSpace (c : ascii) : bool :=
  match c with
  | "009"%char | "010"%char | "011"%char | "012"%char | "013"%char
  | " "%char => true
  | _ => false
  end.

(** U+00A0 is C2 A0. *)
Definition isSpace2 (c1 c2 : ascii) : bool :=
  N.eqb (N_of_ascii c1) 194 && N.eqb (N_of_ascii c2) 160.

(** U+1680 is E1 9A 80; U+2000 to U+200A are E2 80 80 to E2 80 8A; U+2028,
    U+2029 and U+202F are E2 80 A8, E2 80 A9 and E2 80 AF; U+205F is
    E2 81 9F; U+3000 is E3 80 80; U+FEFF is EF BB BF. *)
Definition isSpace3 (c1 c2 c3 : ascii) : bool :=
  let b1 := N_of_ascii c1 in
  let b2 := N_of_ascii c2 in
  let b3 := N_of_ascii c3 in
  (N.eqb b1 225 && N.eqb b2 154 && N.eqb b3 128)
  || (N.eqb b1 226 && N.eqb b2 128
      && ((N.leb 128 b3 && N.leb b3 138) || N.eqb b3 168 || N.eqb b3 169 || N.eqb b3 175))
  || (N.eqb b1 226 && N.eqb b2 129 && N.eqb b3 159)
  || (N.eqb b1 227 && N.eqb b2 128 && N.eqb b3 128)
  || (N.eqb b1 239 && N.eqb b2 187 && N.eqb b3 191).

(** [s.trimStart()]: the white space characters at the start are skipped,
    one, two or three bytes at a time. *)
Fixpoint trimStart (s : string) : string :=
  match s with
  | String c1 rest1 =>
      if isSpace c1 then trimStart rest1
      else
        match rest1 with
        | String c2 rest2 =>
            if isSpace2 c1 c2 then trimStart rest2
            else
              match rest2 with
              | String c3 rest3 => if isSpace3 c1 c2 c3 then trimStart rest3 else s
              | EmptyString => s
              end
        | EmptyString => s
        end
  | EmptyString => EmptyString
  end.

(** Whether a string is white space from start to end. *)
Fixpoint allSpace (s : string) : bool :=
  match s with
  | String c1 rest1 =>
      if isSpace c1 then allSpace rest1
      else
        match rest1 with
        | String c2 rest2 =>
            if isSpace2 c1 c2 then allSpace rest2
            else
              match rest2 with
              | String c3 rest3 => if isSpace3 c1 c2 c3 then allSpace rest3 else false
              | EmptyString => false
              end
        | EmptyString => false
        end
  | EmptyString => true
  end.

(** [s.trimEnd()]: the string is cut where what follows is white space
    only.  No white space character begins with a byte that continues
    another character, so the cut falls between two characters. *)
Fixpoint trimEnd (s : string) : string :=
  match s with
  | String c rest => if allSpace s then EmptyString else String c (trimEnd rest)
  | EmptyString => EmptyString
  end.

Definition trim (s : string) : string := trimEnd (trimStart s).

(** [id.length > 0] *)
Definition nonEmpty (s : string) : bool :=
  match s with EmptyString => false | _ => true end.

(** [[...new Set(xs)]]: the elements of [xs] in order of first occurrence.
    [seen] is the set built so far. *)
Fixpoint setOrder (seen : gset string) (xs : list string) : list string :=
  match xs with
  | [] => []
  | x :: rest =>
      if decide (x ∈ seen) then setOrder seen rest
      else x :: setOrder ({[x]} ∪ seen) rest
  end.

Definition spreadSet (xs : list string) : list string := setOrder ∅ xs.

(** [uniqIds] of alertEngine.ts, which is also [dedupeIds] of main.ts and
    the normalisation inside [buildAssigneeQueryValues]:
    [[...new Set((ids ?? []).map((id) => id.trim()).filter((id) => id.length > 0))]] *)
Definition uniqIds (ids : option (list string)) : list string :=
  spreadSet (List.filter nonEmpty (List.map trim (default [] ids))).

(** ** Exceptions and completions *)

(** What the modelled code throws: a [ClickUpApiError] with its message,
    HTTP status and code, or any other [Error] (a rejected [fetch], a body
    that does not parse, a [TypeError], the [Error] of [withClient]). *)
Inductive Exn : Type :=
| ClickUpApiError (message : string) (status : option Z) (code : option string)
| OtherError (message : string).

(** [error.message] *)
Definition exnMessage (e : Exn) : string :=
  match e with
  | ClickUpApiError m _ _ => m
  | OtherError m => m
  end.

Inductive Completion (A : Type) : Type :=
| Returned (a : A)
| Thrown (e : Exn).
Arguments Returned {A} a.
Arguments Thrown {A} e.

(** ** HTTP *)

Inductive QueryValue : Type :=
| QStr (s : string)
| QNum (n : jsnum)
| QBool (b : bool).

(** The [query] argument of [request]: a record whose values may be
    [undefined]. *)
Definition Query : Type := list (string * option QueryValue).

(** One GET as the provider sees it: the [Authorization] header, the path
    and the parameters that were set on the URL. *)
Record HttpRequest : Type := mkHttpRequest {
  req_token : string;
  req_path : string;
  req_params : list (string * QueryValue)
}.

(** What one attempt gives.
    - [FetchFailed]: no response arrived, because [fetch] rejected (network
      failure, or the abort after [REQUEST_TIMEOUT_MS]).
    - [Responded]: a response arrived and was read, with its status and its
      [payload], which is [null] unless the content type is JSON.
    - [Unreadable]: a response of that status arrived with a JSON content
      type and [response.json()] rejected, because the body is empty or
      does not parse.  The body is read before the status is looked at, so
      the code sees the [SyntaxError] and not the status.
    On [FetchFailed] and on [Unreadable] the code sees an exception that is
    not a [ClickUpApiError]. *)
Inductive FetchOutcome : Type :=
| FetchFailed
| Responded (status : Z) (payload : JSON)
| Unreadable (status : Z).

(** The HTTP status of an outcome, when a response arrived. *)
Definition statusOf (o : FetchOutcome) : option Z :=
  match o with
  | FetchFailed => None
  | Responded status _ => Some status
  | Unreadable status => Some status
  end.

(** Observable events of a run. [EvRequest] marks a call of [request],
    [EvFetch] one attempt inside it, [EvSleep] a call of [sleep], and
    [EvPage] a payload that [getTimeEntries] received and read. *)
Inductive Event : Type :=
| EvRequest (r : HttpRequest)
| EvFetch (r : HttpRequest)
| EvSleep (ms : Z)
| EvPage (payload : JSON).

Definition MAX_ATTEMPTS : Z := 4.

(** [response.ok] *)
Definition response_ok (status : Z) : bool := (200 <=? status)%Z && (status <=? 299)%Z.

(** [250 * 2 ** (attempt - 1)] *)
Definition backoffMs (attempt : Z) : Z := (250 * 2 ^ (attempt - 1))%Z.

(** [String(n)] for an integer. *)
Definition showZ (n : Z) : string := NilZero.string_of_int (Z.to_int n).

Definition normalizeErrorMessage (payload : JSON) (fallback : string) : string :=
  match payload with
  | JObj _ | JArr _ =>
      match prop "err" payload with
      | Some (JStr s) => s
      | _ =>
          match prop "message" payload with
          | Some (JStr s) => s
          | _ => fallback
          end
      end
  | _ => fallback
  end.

(** How the [try] block of one attempt ends. *)
Inductive TryOutcome : Type :=
| TryReturn (payload : JSON)
| TryContinue
| TryThrow (e : Exn).

(** The [try] block of [request] after [fetch] has settled with [o]: the
    sleeps it performs and how it ends. *)
Definition tryBlock (attempt : Z) (o : FetchOutcome) : list Event * TryOutcome :=
  match o with
  | FetchFailed => ([], TryThrow (OtherError "fetch failed"))
  | Unreadable _ => ([], TryThrow (OtherError "Unexpected end of JSON input"))
  | Responded status payload =>
      if response_ok status then ([], TryReturn payload)
      else if (status =? 401)%Z then
        ([], TryThrow (ClickUpApiError "Invalid or revoked ClickUp token." (Some 401%Z) (Some "UNAUTHORIZED")))
      else if (status =? 403)%Z then
        ([], TryThrow (ClickUpApiError "Token is valid but lacks required permissions for this scope."
                         (Some 403%Z) (Some "FORBIDDEN")))
      else if ((status =? 429)%Z || (500 <=? status)%Z) && (attempt <? MAX_ATTEMPTS)%Z then
        ([EvSleep (backoffMs attempt)], TryContinue)
      else
        ([], TryThrow (ClickUpApiError
                         (normalizeErrorMessage payload
                            ("ClickUp API request failed (" +:+ showZ status +:+ ")"))
                         (Some status) None))
  end.

Definition isRetriableError (e : Exn) : bool :=
  match e with
  | ClickUpApiError _ (Some status) _ => (status =? 429)%Z || (500 <=? status)%Z
  | ClickUpApiError _ None _ => false
  | OtherError _ => true
  end.

(** The [catch] block: [inl] is [continue] after the sleep, [inr] the error
    thrown out of [request]. *)
Definition catchBlock (attempt : Z) (e : Exn) : list Event * (unit + Exn) :=
  if (attempt <? MAX_ATTEMPTS)%Z && isRetriableError e then
    ([EvSleep (backoffMs attempt)], inl tt)
  else
    match e with
    | ClickUpApiError _ _ _ => ([], inr e)
    | OtherError _ => ([], inr (ClickUpApiError "Network error while contacting ClickUp API." None None))
    end.

(** Parameters that are not [undefined], in the order of the record. *)
Definition definedParams (query : Query) : list (string * QueryValue) :=
  omap (fun kv => match snd kv with Some v => Some (fst kv, v) | None => None end) query.

(** ** Shared types ([src/shared/types.ts]) *)

Inductive AlertType : Type := TypeFolder | TypeList | TypeCustom.
Inductive ScopeType : Type := ScopeFolder | ScopeList.
Inductive TimeRangeMode : Type := Monthly | Custom | NoRange.
Inductive AlertStatus : Type := Green | Yellow | Red | Inactive | StatusError.

Module TimeEntry.
Record t : Type := mk {
  id : string;
  taskId : option string;
  durationMs : Q;
  startMs : option Q;
  endMs : option Q;
  userId : option string;
  raw : JSON
}.
End TimeEntry.

Module AlertSnapshot.
Record t : Type := mk {
  status : AlertStatus;
  hoursUsed : Q;
  budgetHours : Q;
  remainingHours : Q;
  overByHours : Q;
  percentUsed : Q;
  entryCount : Q;
  lastRefreshedAt : string;
  scopeSummary : string;
  warningMessage : option string;
  errorMessage : option string
}.
End AlertSnapshot.

Module AlertConfig.
Record t : Type := mk {
  id : string;
  order : Q;
  name : string;
  description : option string;
  type : AlertType;
  teamId : string;
  folderId : option string;
  folderName : option string;
  listId : option string;
  listName : option string;
  customScopeType : option ScopeType;
  timeRangeMode : TimeRangeMode;
  startDate : option string;
  endDate : option string;
  budgetHours : Q;
  warningThresholdPct : Q;
  criticalThresholdPct : Q;
  excludedTaskIds : list string;
  includeOnlyTaskIds : option (list string);
  refreshFrequencyMinutes : Q;
  active : bool;
  createdAt : string;
  updatedAt : string;
  lastRefreshedAt : option string;
  lastSnapshot : option AlertSnapshot.t
}.
End AlertConfig.

Module RefreshAlertResult.
Record t : Type := mk {
  alert : AlertConfig.t;
  success : bool;
  errorMessage : option string
}.
End RefreshAlertResult.

Record TimeRange : Type := mkTimeRange {
  range_startMs : option jsnum;
  range_endMs : option jsnum
}.

Record ListInfo : Type := mkListInfo {
  list_id : string;
  list_name : string;
  list_folderId : string;
  list_teamId : string
}.

Record ScopeTreeFolder : Type := mkScopeTreeFolder {
  folder_id : string;
  folder_name : string;
  folder_teamId : string;
  folder_lists : list ListInfo
}.

Record ScopeTreeTeam : Type := mkScopeTreeTeam {
  team_id : string;
  team_name : string;
  team_folders : list ScopeTreeFolder
}.

(** The argument of [getTimeEntries]. *)
Record TimeEntriesParams : Type := mkTimeEntriesParams {
  p_teamId : string;
  p_startMs : option jsnum;
  p_endMs : option jsnum;
  p_folderId : option string;
  p_listId : option string;
  p_assigneeIds : option (list string)
}.

(** ** Entry aggregator ([alertEngine.ts]) *)

(** [a < b] on finite numbers. *)
Definition Qlt_bool (a b : Q) : bool := negb (Qle_bool b a).

(** [Math.max] of two finite numbers. *)
Definition Math_max (a b : Q) : Q := if Qle_bool a b then b else a.

(** [Math.round] *)
Definition Math_round (x : Q) : Q := inject_Z (Qfloor (x + (1 # 2))%Q).

(** [Math.round(value * 100) / 100] without the rounding of binary64;
    [Double.roundHours] has it. *)
Definition roundHours (value : Q) : Q := (Math_round (value * 100) / 100)%Q.

Definition resolveStatus (alert : AlertConfig.t) (percentUsed : Q) : AlertStatus :=
  if negb (AlertConfig.active alert) then Inactive
  else if Qle_bool (AlertConfig.criticalThresholdPct alert) percentUsed then Red
  else if Qle_bool (AlertConfig.warningThresholdPct alert) percentUsed then Yellow
  else Green.

Definition resolveScopeSummary (alert : AlertConfig.t) : string :=
  let modeLabel :=
    match AlertConfig.timeRangeMode alert with
    | Monthly => "Current month"
    | Custom =>
        "Custom (" +:+ default "n/a" (AlertConfig.startDate alert) +:+ " to "
          +:+ default "n/a" (AlertConfig.endDate alert) +:+ ")"
    | NoRange => "Cumulative"
    end in
  let folderOr (fallback : string) :=
    match AlertConfig.folderName alert with
    | Some n => n
    | None => default fallback (AlertConfig.folderId alert)
    end in
  let listOr (fallback : string) :=
    match AlertConfig.listName alert with
    | Some n => n
    | None => default fallback (AlertConfig.listId alert)
    end in
  match AlertConfig.type alert with
  | TypeFolder => "Folder: " +:+ folderOr "Unknown" +:+ " | " +:+ modeLabel
  | TypeList => "List: " +:+ listOr "Unknown" +:+ " | " +:+ modeLabel
  | TypeCustom =>
      let scopeName :=
        match AlertConfig.customScopeType alert with
        | Some ScopeFolder => folderOr "Unknown folder"
        | _ => listOr "Unknown list"
        end in
      let scopeLabel :=
        match AlertConfig.customScopeType alert with
        | Some ScopeFolder => "folder"
        | Some ScopeList => "list"
        | None => "scope"
        end in
      "Custom " +:+ scopeLabel +:+ ": " +:+ scopeName +:+ " | " +:+ modeLabel
  end.

(** [set.has(x)] for the set of the ids in [ids]. *)
Definition setHas (ids : list string) (x : string) : bool :=
  bool_decide (x ∈ (list_to_set ids : gset string)).

(** [!entry.taskId]: the task id is [undefined] or the empty string. *)
Definition lacksTaskId (entry : TimeEntry.t) : bool :=
  match TimeEntry.taskId entry with
  | Some s => negb (nonEmpty s)
  | None => true
  end.

(** The predicate that [applyEntryFilters] passes to [entries.filter]. *)
Definition keepEntry (alert : AlertConfig.t) (entry : TimeEntry.t) : bool :=
  let excluded := uniqIds (Some (AlertConfig.excludedTaskIds alert)) in
  let includeOnly := uniqIds (AlertConfig.includeOnlyTaskIds alert) in
  if lacksTaskId entry then Nat.eqb (length includeOnly) 0
  else
    let taskId := default "" (TimeEntry.taskId entry) in
    if setHas excluded taskId then false
    else if negb (Nat.eqb (length includeOnly) 0) && negb (setHas includeOnly taskId) then false
    else true.

Definition applyEntryFilters (alert : AlertConfig.t) (entries : list TimeEntry.t)
  : list TimeEntry.t :=
  List.filter (keepEntry alert) entries.

(** [entries.reduce((sum, entry) => sum + entry.durationMs / 3_600_000, 0)]
    without the rounding of binary64; [Double.sumHours] has it. *)
Definition sumHours (entries : list TimeEntry.t) : Q :=
  fold_left (fun sum entry => sum + TimeEntry.durationMs entry / 3600000)%Q entries 0%Q.

(** [now] is the reading of [new Date().toISOString()].  The numbers are
    those of the source without the rounding of binary64;
    [Double.buildSnapshot] has the numbers that the program computes. *)
Definition buildSnapshot (now : string) (alert : AlertConfig.t) (entries : list TimeEntry.t)
    (warningMessage : option string) : AlertSnapshot.t :=
  let totalHours := roundHours (sumHours entries) in
  let budget := AlertConfig.budgetHours alert in
  let rawPercent := if Qlt_bool 0 budget then ((totalHours / budget) * 100)%Q else 0%Q in
  let percentUsed := roundHours rawPercent in
  let remainingHours := roundHours (Math_max 0 (budget - totalHours)%Q) in
  let overByHours := roundHours (Math_max 0 (totalHours - budget)%Q) in
  {| AlertSnapshot.status := resolveStatus alert percentUsed;
     AlertSnapshot.hoursUsed := totalHours;
     AlertSnapshot.budgetHours := budget;
     AlertSnapshot.remainingHours := remainingHours;
     AlertSnapshot.overByHours := overByHours;
     AlertSnapshot.percentUsed := percentUsed;
     AlertSnapshot.entryCount := inject_Z (Z.of_nat (length entries));
     AlertSnapshot.lastRefreshedAt := now;
     AlertSnapshot.scopeSummary := resolveScopeSummary alert;
     AlertSnapshot.warningMessage := warningMessage;
     AlertSnapshot.errorMessage := None |}.

Definition buildErrorSnapshot (now : string) (alert : AlertConfig.t) (errorMessage : string)
  : AlertSnapshot.t :=
  let last := AlertConfig.lastSnapshot alert in
  {| AlertSnapshot.status := StatusError;
     AlertSnapshot.hoursUsed := default 0%Q (AlertSnapshot.hoursUsed <$> last);
     AlertSnapshot.budgetHours := AlertConfig.budgetHours alert;
     AlertSnapshot.remainingHours :=
       default (AlertConfig.budgetHours alert) (AlertSnapshot.remainingHours <$> last);
     AlertSnapshot.overByHours := default 0%Q (AlertSnapshot.overByHours <$> last);
     AlertSnapshot.percentUsed := default 0%Q (AlertSnapshot.percentUsed <$> last);
     AlertSnapshot.entryCount := default 0%Q (AlertSnapshot.entryCount <$> last);
     AlertSnapshot.lastRefreshedAt := now;
     AlertSnapshot.scopeSummary :=
       default (resolveScopeSummary alert) (AlertSnapshot.scopeSummary <$> last);
     AlertSnapshot.warningMessage := None;
     AlertSnapshot.errorMessage := Some errorMessage |}.

(** ** The aggregator in double precision *)

(** The numbers that the aggregator reads (the durations of the entries,
    the budget and the thresholds of the alert) are finite binary64 values,
    given by the rationals that they denote. *)

Module Double.

(** A binary64 value.  Zero has no sign here: the divisors of the
    aggregator are 3,600,000, 100 and a positive budget, and nothing else of
    it tells the two zeros apart. *)
Inductive t : Type :=
| Finite (value : Q)
| Infinite (negative : bool)
| NaN.

(** The integer [e] with [2 ^ e <= x < 2 ^ (e + 1)], for a positive [x]. *)
Definition exponentOf (x : Q) : Z :=
  let e := (Z.log2 (Qnum x) - Z.log2 (Zpos (Qden x)))%Z in
  if Qle_bool (2 ^ e) x then e else (e - 1)%Z.

(** The integer nearest to [m], the even one of the two at a tie. *)
Definition roundHalfEven (m : Q) : Z :=
  let f := Qfloor m in
  let r := (m - inject_Z f)%Q in
  if Qlt_bool r (1 # 2) then f
  else if Qlt_bool (1 # 2) r then (f + 1)%Z
  else if Z.even f then f else (f + 1)%Z.

(** Round to nearest, ties to even, with a significand of 53 bits and the
    exponents from -1022 on (the subnormal numbers are the multiples of
    [2 ^ -1074] below [2 ^ -1022]), before the test for overflow. *)
Definition nearest (x : Q) : Q :=
  if Qeq_bool x 0 then 0%Q
  else
    let e := Z.max (exponentOf (Qabs x)) (-1022) in
    let ulp := (2 ^ (e - 52))%Q in
    let y := (inject_Z (roundHalfEven (Qabs x / ulp)) * ulp)%Q in
    if Qlt_bool x 0 then (- y)%Q else y.

(** The binary64 value of the real number [x]. *)
Definition round (x : Q) : t :=
  let y := nearest x in
  if Qle_bool (2 ^ 1024) (Qabs y) then Infinite (Qlt_bool x 0) else Finite y.

Definition neg (a : t) : t :=
  match a with
  | Finite x => Finite (- x)
  | Infinite s => Infinite (negb s)
  | NaN => NaN
  end.

Definition add (a b : t) : t :=
  match a, b with
  | Finite x, Finite y => round (x + y)
  | Finite _, Infinite s | Infinite s, Finite _ => Infinite s
  | Infinite s, Infinite s' => if Bool.eqb s s' then Infinite s else NaN
  | _, _ => NaN
  end.

Definition sub (a b : t) : t := add a (neg b).

Definition mul (a b : t) : t :=
  match a, b with
  | Finite x, Finite y => round (x * y)
  | Finite x, Infinite s | Infinite s, Finite x =>
      if Qeq_bool x 0 then NaN else Infinite (xorb s (Qlt_bool x 0))
  | Infinite s, Infinite s' => Infinite (xorb s s')
  | _, _ => NaN
  end.

Definition div (a b : t) : t :=
  match a, b with
  | Finite x, Finite y =>
      if Qeq_bool y 0 then (if Qeq_bool x 0 then NaN else Infinite (Qlt_bool x 0))
      else round (x / y)
  | Finite _, Infinite _ => Finite 0
  | Infinite s, Finite y => Infinite (xorb s (Qlt_bool y 0))
  | _, _ => NaN
  end.

(** [a <= b]; false when one of the two is [NaN]. *)
Definition leb (a b : t) : bool :=
  match a, b with
  | NaN, _ | _, NaN => false
  | Infinite true, _ | _, Infinite false => true
  | Infinite false, _ | _, Infinite true => false
  | Finite x, Finite y => Qle_bool x y
  end.

(** [Math.max(a, b)] *)
Definition Math_max (a b : t) : t :=
  match a, b with
  | NaN, _ | _, NaN => NaN
  | _, _ => if leb a b then b else a
  end.

(** [Math.round(a)]: the integer [floor (a + 1/2)], which is a binary64
    value when [a] is one. *)
Definition Math_round (a : t) : t :=
  match a with
  | Finite x => Finite (inject_Z (Qfloor (x + (1 # 2))))
  | _ => a
  end.

Definition roundHours (value : t) : t :=
  div (Math_round (mul value (Finite 100))) (Finite 100).

Definition resolveStatus (alert : AlertConfig.t) (percentUsed : t) : AlertStatus :=
  if negb (AlertConfig.active alert) then Inactive
  else if leb (Finite (AlertConfig.criticalThresholdPct alert)) percentUsed then Red
  else if leb (Finite (AlertConfig.warningThresholdPct alert)) percentUsed then Yellow
  else Green.

(** [entries.reduce((sum, entry) => sum + entry.durationMs / 3_600_000, 0)] *)
Definition sumHours (entries : list TimeEntry.t) : t :=
  fold_left (fun sum entry => add sum (div (Finite (TimeEntry.durationMs entry)) (Finite 3600000)))
    entries (Finite 0).

Record Snapshot : Type := mkSnapshot {
  status : AlertStatus;
  hoursUsed : t;
  budgetHours : Q;
  remainingHours : t;
  overByHours : t;
  percentUsed : t;
  entryCount : Q;
  lastRefreshedAt : string;
  scopeSummary : string;
  warningMessage : option string;
  errorMessage : option string
}.

Definition buildSnapshot (now : string) (alert : AlertConfig.t) (entries : list TimeEntry.t)
    (warning : option string) : Snapshot :=
  let totalHours := roundHours (sumHours entries) in
  let budget := AlertConfig.budgetHours alert in
  let rawPercent :=
    if Qlt_bool 0 budget then mul (div totalHours (Finite budget)) (Finite 100)
    else Finite 0 in
  let percent := roundHours rawPercent in
  let remaining := roundHours (Math_max (Finite 0) (sub (Finite budget) totalHours)) in
  let overBy := roundHours (Math_max (Finite 0) (sub totalHours (Finite budget))) in
  {| status := resolveStatus alert percent;
     hoursUsed := totalHours;
     budgetHours := budget;
     remainingHours := remaining;
     overByHours := overBy;
     percentUsed := percent;
     entryCount := inject_Z (Z.of_nat (length entries));
     lastRefreshedAt := now;
     scopeSummary := resolveScopeSummary alert;
     warningMessage := warning;
     errorMessage := None |}.

End Double.

(** [a] and [b] are the same number, or both [NaN]. *)
Definition sameDouble (a b : Double.t) : bool :=
  match a, b with
  | Double.Finite x, Double.Finite y => Qeq_bool x y
  | Double.Infinite s, Double.Infinite s' => Bool.eqb s s'
  | Double.NaN, Double.NaN => true
  | _, _ => false
  end.

(** The value of a primitive float of Rocq, which is a binary64 number. *)
Definition floatValue (f : float) : Double.t :=
  match Prim2SF f with
  | S754_zero _ => Double.Finite 0
  | S754_finite s m e =>
      let v := (inject_Z (Zpos m) * 2 ^ e)%Q in Double.Finite (if s then - v else v)
  | S754_infinity s => Double.Infinite s
  | S754_nan => Double.NaN
  end.

(** The unit roundoff [2 ^ -53], and half the least subnormal number. *)
Definition unitRoundoff : Q := 1 # 9007199254740992.
Definition halfLeast : Q := (2 ^ (-1075))%Q.

(** ** API client ([clickupClient.ts]) *)

Definition ASSIGNEE_QUERY_UNASSIGNED : string := "__UNASSIGNED__".
Definition ASSIGNEE_QUERY_NONE : string := "__NONE__".

Definition buildAssigneeQueryValues (assigneeIds : option (list string)) : list string :=
  let normalized := spreadSet (List.filter nonEmpty (List.map trim (default [] assigneeIds))) in
  if Nat.eqb (length normalized) 0 then [ASSIGNEE_QUERY_NONE]
  else normalized ++ [ASSIGNEE_QUERY_UNASSIGNED; ASSIGNEE_QUERY_NONE].

(** The [assigneeValue] of one pass of [getTimeEntries]. *)
Definition assigneeValueOf (assigneeQueryValue : string) : option string :=
  if String.eqb assigneeQueryValue ASSIGNEE_QUERY_UNASSIGNED then Some "0"
  else if String.eqb assigneeQueryValue ASSIGNEE_QUERY_NONE then None
  else Some assigneeQueryValue.

Definition extractTaskId (raw : JSON) : option string :=
  match prop "task_id" raw with
  | Some (JStr s) => Some s
  | _ =>
      match prop "task" raw with
      | Some task =>
          if isObject task then
            match prop "id" task with
            | Some (JStr s) => Some s
            | _ => None
            end
          else None
      | None => None
      end
  end.

(** What the next request of a scan is, decided from one response. *)
Inductive Pagination : Type :=
| FollowCursor (cursor : string)
| GoToPage (page : jsnum)
| Exhausted.

(** The end of the body of the [while] loop of [getTimeEntries]: the cursor
    if the response has a non-empty one, else a numeric [next_page] (taken
    only above the current page), else a numeric [last_page]. *)
Definition nextStep (page : jsnum) (payload : JSON) : Pagination :=
  let nextCursor := match prop "next_cursor" payload with Some (JStr s) => Some s | _ => None end in
  match nextCursor with
  | Some (String c rest) => FollowCursor (String c rest)
  | _ =>
      match prop "next_page" payload with
      | Some (JNum nextPage) =>
          if num_le nextPage page then Exhausted else GoToPage nextPage
      | _ =>
          match prop "last_page" payload with
          | Some (JNum lastPage) =>
              if num_lt page lastPage then GoToPage (num_succ page) else Exhausted
          | _ => Exhausted
          end
      end
  end.

(** [payload.data] if it is an array, else [payload.time_entries] if it is
    one, else no entries. *)
Definition rawEntriesOf (payload : JSON) : list JSON :=
  match prop "data" payload with
  | Some (JArr items) => items
  | _ =>
      match prop "time_entries" payload with
      | Some (JArr items) => items
      | _ => []
      end
  end.

(** The query of one page request. *)
Definition timeEntriesQuery (params : TimeEntriesParams) (assigneeValue : option string)
    (page : jsnum) (cursor : option string) : Query :=
  [ ("start_date", QNum <$> p_startMs params);
    ("end_date", QNum <$> p_endMs params);
    ("folder_id", QStr <$> p_folderId params);
    ("list_id", QStr <$> p_listId params);
    ("assignee", QStr <$> assigneeValue);
    ("include_task_tags", Some (QStr "true")) ]
  ++ match cursor with
     | Some c => [("cursor", Some (QStr c))]
     | None => [("page", Some (QNum page))]
     end.

Section Client.

(** The provider: a state and what one [fetch] does to it.  A run of the
    client sees the responses in the order the provider gives them. *)
Variable W : Type.
Variable fetch : W -> HttpRequest -> W * FetchOutcome.

(** [Number(s)] when it is finite, [None] when it is [NaN] or infinite. *)
Variable NumberOf : string -> option Q.

(** [String(n)] and the number to string conversion of template literals. *)
Variable numToString : jsnum -> string.

Definition parseDurationMs (duration : option JSON) : Q :=
  match duration with
  | Some (JNum n) => match isFinite n with Some q => Qabs q | None => 0%Q end
  | Some (JStr s) => match NumberOf s with Some parsed => Qabs parsed | None => 0%Q end
  | _ => 0%Q
  end.

Definition parseOptionalMs (value : option JSON) : option Q :=
  match value with
  | Some (JNum n) => isFinite n
  | Some (JStr s) => NumberOf s
  | _ => None
  end.

(** [typeof raw.userid === 'string' ? raw.userid
     : typeof raw.userid === 'number' ? String(raw.userid) : undefined] *)
Definition userIdOf (raw : JSON) : option string :=
  match prop "userid" raw with
  | Some (JStr s) => Some s
  | Some (JNum n) => Some (numToString n)
  | _ => None
  end.

Definition getStableFallbackEntryId (raw : JSON) : string :=
  let taskId := default "no-task" (extractTaskId raw) in
  let start := default 0%Q (parseOptionalMs (prop "start" raw)) in
  let end_ := default 0%Q (parseOptionalMs (prop "end" raw)) in
  let duration := parseDurationMs (prop "duration" raw) in
  let userId := default "no-user" (userIdOf raw) in
  taskId +:+ ":" +:+ userId +:+ ":" +:+ numToString (Fin start) +:+ ":"
    +:+ numToString (Fin end_) +:+ ":" +:+ numToString (Fin duration).

(** The identity under which an entry is deduplicated. *)
Definition entryIdOf (raw : JSON) : string :=
  match prop "id" raw with
  | Some (JStr s) => s
  | _ => getStableFallbackEntryId raw
  end.

(** The entry pushed for a raw record. *)
Definition toTimeEntry (raw : JSON) : TimeEntry.t :=
  {| TimeEntry.id := entryIdOf raw;
     TimeEntry.taskId := extractTaskId raw;
     TimeEntry.durationMs := parseDurationMs (prop "duration" raw);
     TimeEntry.startMs := parseOptionalMs (prop "start" raw);
     TimeEntry.endMs := parseOptionalMs (prop "end" raw);
     TimeEntry.userId := userIdOf raw;
     TimeEntry.raw := raw |}.

(** The two variables [seenIds] and [entries] of [getTimeEntries]. *)
Definition Collected : Type := gset string * list TimeEntry.t.

(** One iteration of [for (const item of rawEntries)]. *)
Definition collectItem (acc : Collected) (item : JSON) : Collected :=
  if negb (isObject item) then acc
  else
    let id := entryIdOf item in
    if decide (id ∈ acc.1) then acc
    else ({[id]} ∪ acc.1, acc.2 ++ [toTimeEntry item]).

Definition collectPage (acc : Collected) (payload : JSON) : Collected :=
  fold_left collectItem (rawEntriesOf payload) acc.

(** *** [request] *)

(** The [for] loop of [request]: [left] attempts remain, the current one
    is number [attempt]; [left = 0] is [attempt > MAX_ATTEMPTS], where the
    loop is left and the statement after it runs. *)
Fixpoint requestLoop (left : nat) (attempt : Z) (w : W) (r : HttpRequest)
  : W * list Event * Completion JSON :=
  match left with
  | O => (w, [], Thrown (ClickUpApiError "Unexpected API error." None None))
  | S left' =>
      let '(w1, o) := fetch w r in
      let '(slept, outcome) := tryBlock attempt o in
      match outcome with
      | TryReturn payload => (w1, EvFetch r :: slept, Returned payload)
      | TryContinue =>
          let '(w2, evs, res) := requestLoop left' (attempt + 1)%Z w1 r in
          (w2, EvFetch r :: slept ++ evs, res)
      | TryThrow e =>
          let '(slept', next) := catchBlock attempt e in
          match next with
          | inl _ =>
              let '(w2, evs, res) := requestLoop left' (attempt + 1)%Z w1 r in
              (w2, EvFetch r :: slept ++ slept' ++ evs, res)
          | inr e' => (w1, EvFetch r :: slept ++ slept', Thrown e')
          end
      end
  end.

Definition request (token : string) (w : W) (path : string) (query : Query)
  : W * list Event * Completion JSON :=
  let r := {| req_token := token; req_path := path; req_params := definedParams query |} in
  let '(w', evs, res) := requestLoop (Z.to_nat MAX_ATTEMPTS) 1%Z w r in
  (w', EvRequest r :: evs, res).

(** *** [getTimeEntries] *)

(** The [while (guard < 200)] loop of one assignee pass; [budget] is
    [200 - guard].  A [null] payload makes [payload.data] a [TypeError]. *)
Fixpoint scanLoop (budget : nat) (token : string) (params : TimeEntriesParams)
    (assigneeValue : option string) (page : jsnum) (cursor : option string)
    (w : W) (acc : Collected) : W * list Event * Completion Collected :=
  match budget with
  | O => (w, [], Returned acc)
  | S budget' =>
      let query := timeEntriesQuery params assigneeValue page cursor in
      let '(w1, evs, res) :=
        request token w ("/team/" +:+ p_teamId params +:+ "/time_entries") query in
      match res with
      | Thrown e => (w1, evs, Thrown e)
      | Returned payload =>
          if isNull payload then
            (w1, evs, Thrown (OtherError "Cannot read properties of null (reading 'data')"))
          else
          let acc' := collectPage acc payload in
          match nextStep page payload with
          | FollowCursor c =>
              let '(w2, evs', res') :=
                scanLoop budget' token params assigneeValue page (Some c) w1 acc' in
              (w2, evs ++ EvPage payload :: evs', res')
          | GoToPage page' =>
              let '(w2, evs', res') :=
                scanLoop budget' token params assigneeValue page' cursor w1 acc' in
              (w2, evs ++ EvPage payload :: evs', res')
          | Exhausted => (w1, evs ++ [EvPage payload], Returned acc')
          end
      end
  end.

(** The [for (const assigneeQueryValue of assigneeQueryValues)] loop. *)
Fixpoint scanAll (token : string) (params : TimeEntriesParams) (values : list string)
    (w : W) (acc : Collected) : W * list Event * Completion Collected :=
  match values with
  | [] => (w, [], Returned acc)
  | assigneeQueryValue :: rest =>
      let '(w1, evs, res) :=
        scanLoop 200 token params (assigneeValueOf assigneeQueryValue) (Fin 0) None w acc in
      match res with
      | Thrown e => (w1, evs, Thrown e)
      | Returned acc' =>
          let '(w2, evs', res') := scanAll token params rest w1 acc' in
          (w2, evs ++ evs', res')
      end
  end.

Definition getTimeEntries (token : string) (w : W) (params : TimeEntriesParams)
  : W * list Event * Completion (list TimeEntry.t) :=
  let '(w', evs, res) :=
    scanAll token params (buildAssigneeQueryValues (p_assigneeIds params)) w (∅, []) in
  (w', evs, match res with Returned acc => Returned acc.2 | Thrown e => Thrown e end).

End Client.

(** ** Persistence ([storage.ts]) and sorting *)

(** [[...xs].sort(compare)], as a stable insertion sort: an element is
    placed before the first element it does not compare greater than.  For
    a comparator that is a total preorder this is the order every stable
    sort gives. *)
Section Sort.
Context {A : Type}.
Variable compare : A -> A -> Q.

Fixpoint sortInsert (x : A) (sorted : list A) : list A :=
  match sorted with
  | [] => [x]
  | y :: rest =>
      if Qle_bool (compare x y) 0 then x :: y :: rest
      else y :: sortInsert x rest
  end.

Fixpoint sortWith (xs : list A) : list A :=
  match xs with
  | [] => []
  | x :: rest => sortInsert x (sortWith rest)
  end.
End Sort.

(** The state file: the token as [getToken] decrypts it ([None] when
    there is none or it does not decrypt), the alerts, and what the file
    system allows.  [fs.readFile] rejects on a file that is not readable,
    [fs.writeFile] on one that is not writable (no permission, a read-only
    or full disk); the file exists and holds a state that parses. *)
Record LocalStore : Type := mkLocalStore {
  stored_token : option string;
  stored_alerts : list AlertConfig.t;
  stored_readable : bool;
  stored_writable : bool
}.

Section Coordinator.

Variable W : Type.
Variable fetch : W -> HttpRequest -> W * FetchOutcome.
Variable NumberOf : string -> option Q.
Variable numToString : jsnum -> string.

(** [new Date().toISOString()] *)
Variable clock : W -> string.

(** date-fns on the clock and on the dates of an alert, in epoch
    milliseconds: [startOfMonth(now)], [endOfMonth(now)],
    [startOfDay(new Date(s))], [endOfDay(new Date(s))].  For a date that
    does not parse the source has [NaN] here, which [jsnum] does not hold;
    no property below reads these values. *)
Variable startOfMonthMs endOfMonthMs : W -> jsnum.
Variable startOfDayMs endOfDayMs : string -> jsnum.

(** [a.localeCompare(b)] *)
Variable localeCompare : string -> string -> Q.

(** The two lookups of the client whose results the coordinator and the
    orchestrator consume, for a client with the given token:
    [client.getScopeTree()] and [client.getTeamMemberIds(teamId)].  The
    requests of [getScopeTree] run concurrently under [Promise.all], in an
    order the provider decides; the orchestrator and the coordinator use
    only how the lookups complete, so each is taken as any function of the
    provider state.  The requests that the two lookups send are theirs: the
    event list of a refresh holds the events of its [getTimeEntries] call,
    and is the list of all its requests when the scope tree is handed
    over. *)
Variable getScopeTree : string -> W -> W * Completion (list ScopeTreeTeam).
Variable getTeamMemberIds : string -> W -> string -> W * Completion (list string).

(** [a.order - b.order || a.createdAt.localeCompare(b.createdAt)] *)
Definition compareAlerts (a b : AlertConfig.t) : Q :=
  let d := (AlertConfig.order a - AlertConfig.order b)%Q in
  if Qeq_bool d 0 then localeCompare (AlertConfig.createdAt a) (AlertConfig.createdAt b)
  else d.

Definition sortAlerts (alerts : list AlertConfig.t) : list AlertConfig.t :=
  sortWith compareAlerts alerts.

(** [sortByOrder] of storage.ts has the body of [sortAlerts]. *)
Definition sortByOrder (alerts : list AlertConfig.t) : list AlertConfig.t :=
  sortWith compareAlerts alerts.

(** The alerts of the file as [normalizeState] orders them. *)
Definition normalizedAlerts (st : LocalStore) : list AlertConfig.t :=
  sortByOrder (stored_alerts st).

(** [readState]: the state of the file with its alerts sorted, or the
    rejection of [fs.readFile]. *)
Definition readState (st : LocalStore) : Completion LocalStore :=
  if stored_readable st then
    Returned {| stored_token := stored_token st;
                stored_alerts := normalizedAlerts st;
                stored_readable := stored_readable st;
                stored_writable := stored_writable st |}
  else Thrown (OtherError "EACCES: permission denied, open 'clickup-budget-monitor.json'").

(** [writeState]: the file holds the state given, with its alerts sorted,
    or [fs.writeFile] rejects and the file is as it was. *)
Definition writeState (st : LocalStore) (token : option string) (alerts : list AlertConfig.t)
  : Completion LocalStore :=
  if stored_writable st then
    Returned {| stored_token := token;
                stored_alerts := sortByOrder alerts;
                stored_readable := stored_readable st;
                stored_writable := stored_writable st |}
  else Thrown (OtherError "EROFS: read-only file system, open 'clickup-budget-monitor.json.tmp'").

Definition store_getAlerts (st : LocalStore) : Completion (list AlertConfig.t) :=
  match readState st with
  | Returned state => Returned (stored_alerts state)
  | Thrown e => Thrown e
  end.

(** [setAlerts], as the store it leaves; its callers drop what it returns. *)
Definition store_setAlerts (st : LocalStore) (alerts : list AlertConfig.t)
  : Completion LocalStore :=
  match readState st with
  | Returned state => writeState st (stored_token state) (sortByOrder alerts)
  | Thrown e => Thrown e
  end.

(** [getToken], with [token || undefined]. *)
Definition store_getToken (st : LocalStore) : Completion (option string) :=
  match readState st with
  | Returned state =>
      Returned match stored_token state with
               | Some token => if nonEmpty token then Some token else None
               | None => None
               end
  | Thrown e => Thrown e
  end.

(** *** [computeTimeRange] *)

Definition computeTimeRange (w : W) (alert : AlertConfig.t) : TimeRange :=
  match AlertConfig.timeRangeMode alert with
  | NoRange => {| range_startMs := None; range_endMs := None |}
  | Monthly =>
      {| range_startMs := Some (startOfMonthMs w); range_endMs := Some (endOfMonthMs w) |}
  | Custom =>
      match AlertConfig.startDate alert, AlertConfig.endDate alert with
      | Some (String c1 r1), Some (String c2 r2) =>
          {| range_startMs := Some (startOfDayMs (String c1 r1));
             range_endMs := Some (endOfDayMs (String c2 r2)) |}
      | _, _ => {| range_startMs := None; range_endMs := None |}
      end
  end.

(** *** Orchestrator ([refreshAlerts.ts]) *)

Definition needsFolder (alert : AlertConfig.t) : bool :=
  match AlertConfig.type alert, AlertConfig.customScopeType alert with
  | TypeFolder, _ => true
  | TypeCustom, Some ScopeFolder => true
  | _, _ => false
  end.

Definition needsList (alert : AlertConfig.t) : bool :=
  match AlertConfig.type alert, AlertConfig.customScopeType alert with
  | TypeList, _ => true
  | TypeCustom, Some ScopeList => true
  | _, _ => false
  end.

(** [id === optionalId] *)
Definition sameId (id_ : string) (optionalId : option string) : bool :=
  match optionalId with
  | Some other => String.eqb id_ other
  | None => false
  end.

Definition getScopeWarning (alert : AlertConfig.t) (tree : list ScopeTreeTeam) : option string :=
  match List.find (fun item => String.eqb (team_id item) (AlertConfig.teamId alert)) tree with
  | None => Some "Selected workspace is no longer accessible."
  | Some team =>
      if needsFolder alert
         && negb (existsb (fun folder => sameId (folder_id folder) (AlertConfig.folderId alert))
                    (team_folders team))
      then Some "Selected folder is missing or inaccessible."
      else if needsList alert
              && negb (existsb
                         (fun folder =>
                            existsb (fun l => sameId (list_id l) (AlertConfig.listId alert))
                              (folder_lists folder))
                         (team_folders team))
      then Some "Selected list is missing or inaccessible."
      else None
  end.

(** The alert of a failed refresh. *)
Definition withSnapshot (now : string) (alert : AlertConfig.t) (snapshot : AlertSnapshot.t)
  : AlertConfig.t :=
  {| AlertConfig.id := AlertConfig.id alert;
     AlertConfig.order := AlertConfig.order alert;
     AlertConfig.name := AlertConfig.name alert;
     AlertConfig.description := AlertConfig.description alert;
     AlertConfig.type := AlertConfig.type alert;
     AlertConfig.teamId := AlertConfig.teamId alert;
     AlertConfig.folderId := AlertConfig.folderId alert;
     AlertConfig.folderName := AlertConfig.folderName alert;
     AlertConfig.listId := AlertConfig.listId alert;
     AlertConfig.listName := AlertConfig.listName alert;
     AlertConfig.customScopeType := AlertConfig.customScopeType alert;
     AlertConfig.timeRangeMode := AlertConfig.timeRangeMode alert;
     AlertConfig.startDate := AlertConfig.startDate alert;
     AlertConfig.endDate := AlertConfig.endDate alert;
     AlertConfig.budgetHours := AlertConfig.budgetHours alert;
     AlertConfig.warningThresholdPct := AlertConfig.warningThresholdPct alert;
     AlertConfig.criticalThresholdPct := AlertConfig.criticalThresholdPct alert;
     AlertConfig.excludedTaskIds := AlertConfig.excludedTaskIds alert;
     AlertConfig.includeOnlyTaskIds := AlertConfig.includeOnlyTaskIds alert;
     AlertConfig.refreshFrequencyMinutes := AlertConfig.refreshFrequencyMinutes alert;
     AlertConfig.active := AlertConfig.active alert;
     AlertConfig.createdAt := AlertConfig.createdAt alert;
     AlertConfig.updatedAt := now;
     AlertConfig.lastRefreshedAt := Some (AlertSnapshot.lastRefreshedAt snapshot);
     AlertConfig.lastSnapshot := Some snapshot |}.

(** The alert of a successful refresh of an active alert: as
    [withSnapshot], and the two id lists go through [new Set]. *)
Definition withFreshSnapshot (now : string) (alert : AlertConfig.t) (snapshot : AlertSnapshot.t)
  : AlertConfig.t :=
  let updated := withSnapshot now alert snapshot in
  {| AlertConfig.id := AlertConfig.id updated;
     AlertConfig.order := AlertConfig.order updated;
     AlertConfig.name := AlertConfig.name updated;
     AlertConfig.description := AlertConfig.description updated;
     AlertConfig.type := AlertConfig.type updated;
     AlertConfig.teamId := AlertConfig.teamId updated;
     AlertConfig.folderId := AlertConfig.folderId updated;
     AlertConfig.folderName := AlertConfig.folderName updated;
     AlertConfig.listId := AlertConfig.listId updated;
     AlertConfig.listName := AlertConfig.listName updated;
     AlertConfig.customScopeType := AlertConfig.customScopeType updated;
     AlertConfig.timeRangeMode := AlertConfig.timeRangeMode updated;
     AlertConfig.startDate := AlertConfig.startDate updated;
     AlertConfig.endDate := AlertConfig.endDate updated;
     AlertConfig.budgetHours := AlertConfig.budgetHours updated;
     AlertConfig.warningThresholdPct := AlertConfig.warningThresholdPct updated;
     AlertConfig.criticalThresholdPct := AlertConfig.criticalThresholdPct updated;
     AlertConfig.excludedTaskIds := spreadSet (AlertConfig.excludedTaskIds alert);
     AlertConfig.includeOnlyTaskIds :=
       Some (match AlertConfig.includeOnlyTaskIds alert with
             | Some ids => spreadSet ids
             | None => []
             end);
     AlertConfig.refreshFrequencyMinutes := AlertConfig.refreshFrequencyMinutes updated;
     AlertConfig.active := AlertConfig.active updated;
     AlertConfig.createdAt := AlertConfig.createdAt updated;
     AlertConfig.updatedAt := AlertConfig.updatedAt updated;
     AlertConfig.lastRefreshedAt := AlertConfig.lastRefreshedAt updated;
     AlertConfig.lastSnapshot := AlertConfig.lastSnapshot updated |}.

(** [{ ...snapshot, status: 'inactive' }] *)
Definition asInactive (snapshot : AlertSnapshot.t) : AlertSnapshot.t :=
  {| AlertSnapshot.status := Inactive;
     AlertSnapshot.hoursUsed := AlertSnapshot.hoursUsed snapshot;
     AlertSnapshot.budgetHours := AlertSnapshot.budgetHours snapshot;
     AlertSnapshot.remainingHours := AlertSnapshot.remainingHours snapshot;
     AlertSnapshot.overByHours := AlertSnapshot.overByHours snapshot;
     AlertSnapshot.percentUsed := AlertSnapshot.percentUsed snapshot;
     AlertSnapshot.entryCount := AlertSnapshot.entryCount snapshot;
     AlertSnapshot.lastRefreshedAt := AlertSnapshot.lastRefreshedAt snapshot;
     AlertSnapshot.scopeSummary := AlertSnapshot.scopeSummary snapshot;
     AlertSnapshot.warningMessage := AlertSnapshot.warningMessage snapshot;
     AlertSnapshot.errorMessage := AlertSnapshot.errorMessage snapshot |}.

(** The result of a refresh that failed with [message]. *)
Definition failedResult (now : string) (alert : AlertConfig.t) (message : string)
  : RefreshAlertResult.t :=
  let snapshot := buildErrorSnapshot now alert message in
  {| RefreshAlertResult.alert := withSnapshot now alert snapshot;
     RefreshAlertResult.success := false;
     RefreshAlertResult.errorMessage := Some message |}.

(** The message of the [catch] of [refreshSingleAlert]. *)
Definition refreshErrorMessage (e : Exn) : string :=
  match e with
  | ClickUpApiError message _ _ => message
  | OtherError _ => "Failed to refresh alert due to an unexpected error."
  end.

(** The argument of the [getTimeEntries] call of [refreshSingleAlert]. *)
Definition timeEntriesParamsOf (w : W) (alert : AlertConfig.t) : TimeEntriesParams :=
  let timeRange := computeTimeRange w alert in
  {| p_teamId := AlertConfig.teamId alert;
     p_startMs := range_startMs timeRange;
     p_endMs := range_endMs timeRange;
     p_folderId := if needsFolder alert then AlertConfig.folderId alert else None;
     p_listId := if needsList alert then AlertConfig.listId alert else None;
     p_assigneeIds := None |}.

Definition refreshSingleAlert (token : string) (w : W) (alert : AlertConfig.t)
    (scopeTreeOverride : option (list ScopeTreeTeam))
  : W * list Event * RefreshAlertResult.t :=
  if negb (AlertConfig.active alert) then
    let snapshot := buildSnapshot (clock w) alert [] None in
    let inactiveSnapshot := asInactive snapshot in
    (w, [],
     {| RefreshAlertResult.alert := withSnapshot (clock w) alert inactiveSnapshot;
        RefreshAlertResult.success := true;
        RefreshAlertResult.errorMessage := None |})
  else
    let '(w1, tree) :=
      match scopeTreeOverride with
      | Some tree => (w, Returned tree)
      | None => getScopeTree token w
      end in
    match tree with
    | Thrown e => (w1, [], failedResult (clock w1) alert (refreshErrorMessage e))
    | Returned scopeTree =>
        match getScopeWarning alert scopeTree with
        | Some warning => (w1, [], failedResult (clock w1) alert warning)
        | None =>
            let '(w2, evs, res) :=
              getTimeEntries W fetch NumberOf numToString token w1
                (timeEntriesParamsOf w1 alert) in
            match res with
            | Thrown e => (w2, evs, failedResult (clock w2) alert (refreshErrorMessage e))
            | Returned entries =>
                let filteredEntries := applyEntryFilters alert entries in
                let snapshot := buildSnapshot (clock w2) alert filteredEntries None in
                (w2, evs,
                 {| RefreshAlertResult.alert := withFreshSnapshot (clock w2) alert snapshot;
                    RefreshAlertResult.success := true;
                    RefreshAlertResult.errorMessage := None |})
            end
        end
    end.

(** The calls in main.ts,
    [refreshSingleAlert(client, alert, undefined, teamMemberIds)], pass a
    fourth argument.  [refreshSingleAlert] declares three parameters and
    does not read [arguments], so the call binds the first three. *)
Definition refreshSingleAlert_call4 (token : string) (w : W) (alert : AlertConfig.t)
    (scopeTreeOverride : option (list ScopeTreeTeam)) (teamMemberIds : list string)
  : W * list Event * RefreshAlertResult.t :=
  refreshSingleAlert token w alert scopeTreeOverride.

(** *** Batch coordinator ([main.ts]) *)

(** The [for (const alert of sortAlerts(alerts))] loop of
    [refreshAllInternal], with its [teamMemberCache]. *)
Fixpoint refreshEach (token : string) (alerts : list AlertConfig.t) (w : W)
    (teamMemberCache : gmap string (list string))
  : W * list Event * list RefreshAlertResult.t :=
  match alerts with
  | [] => (w, [], [])
  | alert :: rest =>
      let '(w1, teamMemberIds, cache1) :=
        match teamMemberCache !! AlertConfig.teamId alert with
        | Some ids => (w, ids, teamMemberCache)
        | None =>
            let '(w1, looked) := getTeamMemberIds token w (AlertConfig.teamId alert) in
            let ids := match looked with Returned ids => ids | Thrown _ => [] end in
            (w1, ids, <[AlertConfig.teamId alert := ids]> teamMemberCache)
        end in
      let '(w2, evs, refreshed) := refreshSingleAlert_call4 token w1 alert None teamMemberIds in
      let '(w3, evs', results) := refreshEach token rest w2 cache1 in
      (w3, evs ++ evs', refreshed :: results)
  end.

(** [new Map(results.map((item) => [item.alert.id, item.alert]))] *)
Definition alertsById (results : list RefreshAlertResult.t) : gmap string AlertConfig.t :=
  fold_left
    (fun m item =>
       <[AlertConfig.id (RefreshAlertResult.alert item) := RefreshAlertResult.alert item]> m)
    results ∅.

(** [withClient] around the body of [refreshAllInternal]. *)
Definition refreshAllInternal (w : W) (st : LocalStore) (alerts : list AlertConfig.t)
  : W * LocalStore * list Event * Completion (list RefreshAlertResult.t) :=
  match store_getToken st with
  | Thrown e => (w, st, [], Thrown e)
  | Returned None =>
      (w, st, [], Thrown (OtherError "No ClickUp token configured. Add a token in settings first."))
  | Returned (Some token) =>
      let '(w1, evs, results) := refreshEach token (sortAlerts alerts) w ∅ in
      let nextAlertsById := alertsById results in
      let nextAlerts :=
        sortAlerts
          (List.map (fun alert => default alert (nextAlertsById !! AlertConfig.id alert)) alerts) in
      match store_setAlerts st nextAlerts with
      | Returned st1 => (w1, st1, evs, Returned results)
      | Thrown e => (w1, st, evs, Thrown e)
      end
  end.

(** The handler of ['alerts:refresh-all']. *)
Definition refreshAllHandler (w : W) (st : LocalStore)
  : W * LocalStore * list Event * Completion (list RefreshAlertResult.t) :=
  match store_getAlerts st with
  | Thrown e => (w, st, [], Thrown e)
  | Returned alerts =>
      if Nat.eqb (length alerts) 0 then (w, st, [], Returned [])
      else
        match refreshAllInternal w st alerts with
        | (w1, st1, evs, Returned results) => (w1, st1, evs, Returned results)
        | (w1, st1, evs, Thrown error) =>
            let message := exnMessage error in
            let nowIso := clock w1 in
            let failedResults :=
              List.map (fun alert => failedResult nowIso alert message) alerts in
            match store_setAlerts st1 (List.map RefreshAlertResult.alert failedResults) with
            | Returned st2 => (w1, st2, evs, Returned failedResults)
            | Thrown e => (w1, st1, evs, Thrown e)
            end
        end
  end.

End Coordinator.

(** ** Observations on a run *)

Definition fetchesOf (evs : list Event) : list HttpRequest :=
  omap (fun e => match e with EvFetch r => Some r | _ => None end) evs.

Definition sleepsOf (evs : list Event) : list Z :=
  omap (fun e => match e with EvSleep ms => Some ms | _ => None end) evs.

Definition requestsOf (evs : list Event) : list HttpRequest :=
  omap (fun e => match e with EvRequest r => Some r | _ => None end) evs.

Definition pagesOf (evs : list Event) : list JSON :=
  omap (fun e => match e with EvPage payload => Some payload | _ => None end) evs.

(** The [assignee] parameter of a request, if it has one. *)
Definition assigneeOf (r : HttpRequest) : option QueryValue :=
  assoc "assignee" (req_params r).

(** What one attempt does once [fetch] has settled: the [try] block, and
    the [catch] block on what it throws.  [inr tt] is [continue]. *)
Definition attemptStep (attempt : Z) (o : FetchOutcome)
  : list Event * (Completion JSON + unit) :=
  let '(slept, outcome) := tryBlock attempt o in
  match outcome with
  | TryReturn payload => (slept, inl (Returned payload))
  | TryContinue => (slept, inr tt)
  | TryThrow e =>
      let '(slept', next) := catchBlock attempt e in
      match next with
      | inl _ => (slept ++ slept', inr tt)
      | inr e' => (slept ++ slept', inl (Thrown e'))
      end
  end.

(** The error with which [request] ends when an attempt is its last. *)
Definition attemptError (o : FetchOutcome) : Exn :=
  match o with
  | FetchFailed | Unreadable _ =>
      ClickUpApiError "Network error while contacting ClickUp API." None None
  | Responded status payload =>
      if (status =? 401)%Z then
        ClickUpApiError "Invalid or revoked ClickUp token." (Some 401%Z) (Some "UNAUTHORIZED")
      else if (status =? 403)%Z then
        ClickUpApiError "Token is valid but lacks required permissions for this scope."
          (Some 403%Z) (Some "FORBIDDEN")
      else
        ClickUpApiError
          (normalizeErrorMessage payload ("ClickUp API request failed (" +:+ showZ status +:+ ")"))
          (Some status) None
  end.

(** An outcome on which the client retries: HTTP 429 or HTTP 5xx that was
    read, no response at all, or a response whose JSON body could not be
    read, whatever its status. *)
Definition retriable (o : FetchOutcome) : Prop :=
  match o with
  | FetchFailed | Unreadable _ => True
  | Responded status _ => status = 429%Z \/ (500 <= status <= 599)%Z
  end.

Definition isReturned {A : Type} (c : Completion A) : bool :=
  match c with Returned _ => true | Thrown _ => false end.

(** The error of the statement after the loop of [request]. *)
Definition unexpectedError : Exn := ClickUpApiError "Unexpected API error." None None.

(** Claim C4 as the specification words it, for one call of [request] whose
    first attempt gets a response of HTTP status [status] (401 or 403): the
    call fails at once, after that one attempt and without a wait, with an
    error of the kind [code]. *)
Definition fails_at_once_as_claimed {W : Type} (fetch : W -> HttpRequest -> W * FetchOutcome)
    (token : string) (w : W) (path : string) (query : Query) (status : Z) (code : string)
  : Prop :=
  let r := {| req_token := token; req_path := path; req_params := definedParams query |} in
  let run := request W fetch token w path query in
  statusOf (fetch w r).2 = Some status ->
  fetchesOf run.1.2 = [r]
  /\ sleepsOf run.1.2 = []
  /\ exists message : string, run.2 = Thrown (ClickUpApiError message (Some status) (Some code)).

(** Claim C8 as the specification words it, for one call of [request]: if
    the call made its four attempts and did not return a payload, it threw
    [unexpectedError]. *)
Definition exhaustion_is_unexpected {W : Type} (fetch : W -> HttpRequest -> W * FetchOutcome)
    (token : string) (w : W) (path : string) (query : Query) : Prop :=
  let run := request W fetch token w path query in
  length (fetchesOf run.1.2) = 4 ->
  isReturned run.2 = false ->
  run.2 = Thrown unexpectedError.

(** The assignee values of the passes of [getTimeEntries] for a filter
    whose normalised ids are [ids]: each id, then ["0"], then none; only
    none when there is no id. *)
Definition expectedScans (ids : list string) : list (option string) :=
  match ids with
  | [] => [None]
  | _ => (Some <$> ids) ++ [Some "0"; None]
  end.

(** Claim C1 as the specification words it: one pass per distinct id of
    the filter, then ["0"], then none; only the pass without assignee when
    no filter is supplied. *)
Definition claimedScans (assigneeIds : option (list string)) : list (option string) :=
  match assigneeIds with
  | None => [None]
  | Some ids => (Some <$> spreadSet ids) ++ [Some "0"; None]
  end.

(** The requests of a run fall into consecutive passes, one per expected
    assignee value, each with at least one request, all of them carrying
    that value. *)
Definition scannedInPasses (requests : list HttpRequest) (values : list (option string)) : Prop :=
  exists passes : list (list HttpRequest),
    requests = concat passes
    /\ Forall2
         (fun value pass => pass <> [] /\ Forall (fun r => assigneeOf r = QStr <$> value) pass)
         values passes.

(** What holds of [seenIds] and [entries] throughout [getTimeEntries]: the
    ids of the entries are pairwise distinct, they are the members of
    [seenIds], and each entry is the one built from its raw record. *)
Definition collected_ok (NumberOf : string -> option Q) (numToString : jsnum -> string)
    (acc : Collected) : Prop :=
  NoDup (TimeEntry.id <$> acc.2)
  /\ (forall x : string, x ∈ acc.1 <-> x ∈ TimeEntry.id <$> acc.2)
  /\ Forall (fun e => e = toTimeEntry NumberOf numToString (TimeEntry.raw e)) acc.2.

(** The response has a cursor that the client follows: a non-empty string
    under [next_cursor]. *)
Definition suppliesCursor (payload : JSON) : bool :=
  match prop "next_cursor" payload with
  | Some (JStr s) => nonEmpty s
  | _ => false
  end.

(** The number of entries of [entries] filed under the identity [id_]. *)
Definition occurrences (id_ : string) (entries : list TimeEntry.t) : nat :=
  length (List.filter (fun e => String.eqb (TimeEntry.id e) id_) entries).

(** No id is one of the two strings the client reserves as markers. *)
Definition noMarker (ids : list string) : Prop :=
  Forall (fun id_ => id_ <> ASSIGNEE_QUERY_UNASSIGNED /\ id_ <> ASSIGNEE_QUERY_NONE) ids.

(** ** Providers for examples *)

(** A provider that answers the attempts from a script, in order, and with
    an empty JSON object once the script is used up. *)
Definition scriptedFetch (w : list FetchOutcome) (r : HttpRequest)
  : list FetchOutcome * FetchOutcome :=
  match w with
  | o :: rest => (rest, o)
  | [] => ([], Responded 200 (JObj []))
  end.

(** A provider that gives the same response to every attempt. *)
Definition constantFetch (o : FetchOutcome) (w : unit) (r : HttpRequest)
  : unit * FetchOutcome := (w, o).

(** A page with no entries and no word on further pages. *)
Definition emptyPage : FetchOutcome := Responded 200 (JObj [("data", JArr [])]).

(** A scope tree with one team, one folder and one list. *)
Definition sampleTree : list ScopeTreeTeam :=
  [ {| team_id := "team-1";
       team_name := "Studio";
       team_folders :=
         [ {| folder_id := "folder-1";
              folder_name := "Design";
              folder_teamId := "team-1";
              folder_lists :=
                [ {| list_id := "list-1"; list_name := "Backlog";
                     list_folderId := "folder-1"; list_teamId := "team-1" |} ] |} ] |} ].

(** ** Alerts and entries for examples *)

Definition sampleAlert (active : bool) (budgetHours : Q) (excludedTaskIds : list string)
    (includeOnlyTaskIds : option (list string)) (lastSnapshot : option AlertSnapshot.t)
  : AlertConfig.t :=
  {| AlertConfig.id := "alert-1";
     AlertConfig.order := 0%Q;
     AlertConfig.name := "Design retainer";
     AlertConfig.description := None;
     AlertConfig.type := TypeFolder;
     AlertConfig.teamId := "team-1";
     AlertConfig.folderId := Some "folder-1";
     AlertConfig.folderName := Some "Design";
     AlertConfig.listId := None;
     AlertConfig.listName := None;
     AlertConfig.customScopeType := None;
     AlertConfig.timeRangeMode := NoRange;
     AlertConfig.startDate := None;
     AlertConfig.endDate := None;
     AlertConfig.budgetHours := budgetHours;
     AlertConfig.warningThresholdPct := 80%Q;
     AlertConfig.criticalThresholdPct := 95%Q;
     AlertConfig.excludedTaskIds := excludedTaskIds;
     AlertConfig.includeOnlyTaskIds := includeOnlyTaskIds;
     AlertConfig.refreshFrequencyMinutes := 0%Q;
     AlertConfig.active := active;
     AlertConfig.createdAt := "2024-01-01T00:00:00.000Z";
     AlertConfig.updatedAt := "2024-01-01T00:00:00.000Z";
     AlertConfig.lastRefreshedAt := None;
     AlertConfig.lastSnapshot := lastSnapshot |}.

Definition sampleEntry (id_ : string) (taskId : option string) (durationMs : Q) : TimeEntry.t :=
  {| TimeEntry.id := id_;
     TimeEntry.taskId := taskId;
     TimeEntry.durationMs := durationMs;
     TimeEntry.startMs := None;
     TimeEntry.endMs := None;
     TimeEntry.userId := None;
     TimeEntry.raw := JObj [] |}.

Definition sampleSnapshot (budgetHours : Q) : AlertSnapshot.t :=
  {| AlertSnapshot.status := Green;
     AlertSnapshot.hoursUsed := 10%Q;
     AlertSnapshot.budgetHours := budgetHours;
     AlertSnapshot.remainingHours := (budgetHours - 10)%Q;
     AlertSnapshot.overByHours := 0%Q;
     AlertSnapshot.percentUsed := 20%Q;
     AlertSnapshot.entryCount := 3%Q;
     AlertSnapshot.lastRefreshedAt := "2024-02-01T00:00:00.000Z";
     AlertSnapshot.scopeSummary := "Folder: Design | Cumulative";
     AlertSnapshot.warningMessage := None;
     AlertSnapshot.errorMessage := None |}.

(** ** Runs for examples *)

(** Stand-ins for [Number] and [String] in the examples: [Number] reads
    one string, and a number is printed as numerator over denominator. *)
Definition exampleNumberOf (s : string) : option Q :=
  if String.eqb s "-1500" then Some (-1500)%Q else None.

Definition exampleNumToString (n : jsnum) : string :=
  match n with
  | Fin q => showZ (Qnum q) +:+ "/" +:+ showZ (Zpos (Qden q))
  | PInf => "Infinity"
  | NInf => "-Infinity"
  end.

(** A page with three records: one with an id, two without id that differ
    in nothing the derived key reads. *)
Definition examplePayload : JSON :=
  JObj [ ("data",
           JArr [ JObj [("id", JStr "entry-1"); ("task_id", JStr "task-1");
                        ("duration", JStr "-1500"); ("userid", JNum (Fin 7))];
                  JObj [("task", JObj [("id", JStr "task-2")]); ("duration", JNum (Fin (-60000)));
                        ("start", JNum (Fin 1000)); ("end", JNum (Fin 61000))];
                  JObj [("task", JObj [("id", JStr "task-2")]); ("duration", JNum (Fin 60000));
                        ("start", JNum (Fin 1000)); ("end", JNum (Fin 61000));
                        ("note", JStr "again")];
                  JStr "not a record" ]) ].

Definition exampleParams (assigneeIds : option (list string)) : TimeEntriesParams :=
  {| p_teamId := "team-1"; p_startMs := None; p_endMs := None;
     p_folderId := Some "folder-1"; p_listId := None; p_assigneeIds := assigneeIds |}.

(** [getTimeEntries] against a provider that answers every request with
    the same payload. *)
Definition exampleRun (payload : JSON) (assigneeIds : option (list string))
  : unit * list Event * Completion (list TimeEntry.t) :=
  getTimeEntries unit (constantFetch (Responded 200 payload)) exampleNumberOf exampleNumToString
    "token" tt (exampleParams assigneeIds).

Definition returnedEntries (run : unit * list Event * Completion (list TimeEntry.t))
  : list TimeEntry.t :=
  match run.2 with Returned entries => entries | Thrown _ => [] end.

(** A page that names as next page the page just read. *)
Definition stalledPayload : JSON :=
  JObj [("data", JArr []); ("next_page", JNum (Fin 0))].

(** [refreshSingleAlert], called as main.ts calls it, on an active alert
    whose scope is in the tree, against a provider of empty pages. *)
Definition exampleRefresh (teamMemberIds : list string)
  : unit * list Event * RefreshAlertResult.t :=
  refreshSingleAlert_call4 unit (constantFetch emptyPage) exampleNumberOf exampleNumToString
    (fun _ => "2024-03-01T00:00:00.000Z") (fun _ => Fin 0) (fun _ => Fin 0)
    (fun _ => Fin 0) (fun _ => Fin 0) (fun _ w => (w, Returned sampleTree))
    "token" tt (sampleAlert true 50 [] None None) None teamMemberIds.

(** The handler of the batch refresh over the same provider. *)
Definition exampleHandler (st : LocalStore)
  : unit * LocalStore * list Event * Completion (list RefreshAlertResult.t) :=
  refreshAllHandler unit (constantFetch emptyPage) exampleNumberOf exampleNumToString
    (fun _ => "2024-03-01T00:00:00.000Z") (fun _ => Fin 0) (fun _ => Fin 0)
    (fun _ => Fin 0) (fun _ => Fin 0) (fun _ _ => 0%Q) (fun _ w => (w, Returned sampleTree))
    (fun _ w _ => (w, Returned ["user-1"; "user-2"])) tt st.

Definition storeWithoutToken : LocalStore :=
  {| stored_token := None;
     stored_alerts := [sampleAlert true 50 [] None (Some (sampleSnapshot 50))];
     stored_readable := true;
     stored_writable := true |}.

(** The same store on a file system that takes no writes. *)
Definition storeReadOnly : LocalStore :=
  {| stored_token := None;
     stored_alerts := [sampleAlert true 50 [] None (Some (sampleSnapshot 50))];
     stored_readable := true;
     stored_writable := false |}.

(** Claim C3 as the specification words it, for one run of the handler: it
    ends in a list of results and in no exception. *)
Definition batch_returns_as_claimed (st : LocalStore) : Prop :=
  exists results : list RefreshAlertResult.t, (exampleHandler st).2 = Returned results.

(** ** The claims on the aggregator, as the specification words them *)







(** Claim C6: the six numeric fields of the error snapshot are those of the
    previous snapshot; without one, [remainingHours] is the budget of the
    alert and the other five are 0. *)
Definition carried_forward_as_claimed (alert : AlertConfig.t) (snapshot : AlertSnapshot.t)
  : Prop :=
  match AlertConfig.lastSnapshot alert with
  | Some last =>
      (AlertSnapshot.hoursUsed snapshot == AlertSnapshot.hoursUsed last)%Q
      /\ (AlertSnapshot.budgetHours snapshot == AlertSnapshot.budgetHours last)%Q
      /\ (AlertSnapshot.remainingHours snapshot == AlertSnapshot.remainingHours last)%Q
      /\ (AlertSnapshot.overByHours snapshot == AlertSnapshot.overByHours last)%Q
      /\ (AlertSnapshot.percentUsed snapshot == AlertSnapshot.percentUsed last)%Q
      /\ (AlertSnapshot.entryCount snapshot == AlertSnapshot.entryCount last)%Q
  | None =>
      (AlertSnapshot.remainingHours snapshot == AlertConfig.budgetHours alert)%Q
      /\ (AlertSnapshot.hoursUsed snapshot == 0)%Q
      /\ (AlertSnapshot.budgetHours snapshot == 0)%Q
      /\ (AlertSnapshot.overByHours snapshot == 0)%Q
      /\ (AlertSnapshot.percentUsed snapshot == 0)%Q
      /\ (AlertSnapshot.entryCount snapshot == 0)%Q
  end.

(** [includeOnlyTaskIds] is there and is not the empty list. *)
Definition includeOnlyNonEmpty (alert : AlertConfig.t) : bool :=
  match AlertConfig.includeOnlyTaskIds alert with
  | Some (_ :: _) => true
  | _ => false
  end.

(** Claim C9: an entry without task id survives the filters exactly when
    [includeOnlyTaskIds] is not a non-empty list. *)
Definition survives_as_claimed (alert : AlertConfig.t) (entries : list TimeEntry.t)
    (entry : TimeEntry.t) : Prop :=
  entry ∈ applyEntryFilters alert entries
  <-> entry ∈ entries /\ includeOnlyNonEmpty alert = false.

(** ** More of the API client ([clickupClient.ts]) *)

(** Whether a value read from a payload is truthy; [None] is [undefined]. *)
Definition truthy (value : option JSON) : bool :=
  match value with
  | None | Some JNull => false
  | Some (JBool b) => b
  | Some (JNum (Fin q)) => negb (Qeq_bool q 0)
  | Some (JNum _) => true
  | Some (JStr s) => nonEmpty s
  | Some (JArr _) | Some (JObj _) => true
  end.

(** [payload[key] ?? []] as the receiver of the array method [method]:
    reading a property of [null] is a [TypeError], and so is calling the
    method on a value that is neither nullish nor an array. *)
Definition arrayOrEmpty (payload : JSON) (key method : string) : Completion (list JSON) :=
  if isNull payload then
    Thrown (OtherError ("Cannot read properties of null (reading '" +:+ key +:+ "')"))
  else
    match prop key payload with
    | None | Some JNull => Returned []
    | Some (JArr items) => Returned items
    | Some _ =>
        Thrown (OtherError ("(intermediate value)." +:+ method +:+ " is not a function"))
    end.

(** [items.map(f)] for a callback that may throw: the first exception ends
    the call. *)
Fixpoint mapCompletion {A B : Type} (f : A -> Completion B) (items : list A)
  : Completion (list B) :=
  match items with
  | [] => Returned []
  | item :: rest =>
      match f item with
      | Thrown e => Thrown e
      | Returned b =>
          match mapCompletion f rest with
          | Thrown e => Thrown e
          | Returned bs => Returned (b :: bs)
          end
      end
  end.

Record TaskInfo : Type := mkTaskInfo {
  task_id : string;
  task_name : option JSON;
  task_listId : string
}.

(** The query of one page request of [getTasks]. *)
Definition tasksQuery (page : Z) : Query :=
  [ ("archived", Some (QStr "false"));
    ("include_closed", Some (QStr "true"));
    ("page", Some (QNum (Fin (inject_Z page)))) ].

Module ClickUpClient.
Section Lookups.

Variable W : Type.
Variable fetch : W -> HttpRequest -> W * FetchOutcome.
Variable numToString : jsnum -> string.

(** [String(value)] for an array or an object, which goes through the
    [toString] the value has and may throw. *)
Variable compoundToString : JSON -> Completion string.

(** [String(value)]; [None] is [undefined]. *)
Definition jsString (value : option JSON) : Completion string :=
  match value with
  | None => Returned "undefined"
  | Some JNull => Returned "null"
  | Some (JBool true) => Returned "true"
  | Some (JBool false) => Returned "false"
  | Some (JNum n) => Returned (numToString n)
  | Some (JStr s) => Returned s
  | Some compound => compoundToString compound
  end.

(** The callback of [map] in [extractUserIdsFromUserArray]. *)
Definition userIdOfMember (entry : JSON) : option string :=
  if negb (isObject entry) then None
  else
    let fromUser :=
      match prop "user" entry with
      | Some user =>
          if isObject user then
            match prop "id" user with
            | Some (JStr s) => Some s
            | Some (JNum n) => Some (numToString n)
            | _ => None
            end
          else None
      | None => None
      end in
    match fromUser with
    | Some id_ => Some id_
    | None =>
        match prop "id" entry with
        | Some (JStr s) => Some s
        | Some (JNum n) => Some (numToString n)
        | _ => None
        end
    end.

Definition extractUserIdsFromUserArray (value : option JSON) : list string :=
  match value with
  | Some (JArr entries) =>
      spreadSet (List.filter nonEmpty (omap userIdOfMember entries))
  | _ => []
  end.

(** [items.find((item) => String(item.id) === String(teamId))] *)
Fixpoint findTeam (teamId : string) (items : list JSON) : Completion (option JSON) :=
  match items with
  | [] => Returned None
  | item :: rest =>
      if isNull item then
        Thrown (OtherError "Cannot read properties of null (reading 'id')")
      else
        match jsString (prop "id" item) with
        | Thrown e => Thrown e
        | Returned s => if String.eqb s teamId then Returned (Some item) else findTeam teamId rest
        end
  end.

(** The ids that [getTeamMemberIds] reads off the team it found. *)
Definition memberIdsOf (team : JSON) : list string :=
  spreadSet
    (extractUserIdsFromUserArray (prop "members" team)
     ++ extractUserIdsFromUserArray (prop "guests" team)
     ++ extractUserIdsFromUserArray (prop "users" team)
     ++ extractUserIdsFromUserArray (prop "member_guests" team)
     ++ extractUserIdsFromUserArray (prop "member_invites" team)).

Definition getTeamMemberIds (token : string) (w : W) (teamId : string)
  : W * list Event * Completion (list string) :=
  let '(w1, evs, res) := request W fetch token w "/team" [] in
  (w1, evs,
   match res with
   | Thrown e => Thrown e
   | Returned payload =>
       match arrayOrEmpty payload "teams" "find" with
       | Thrown e => Thrown e
       | Returned items =>
           match findTeam teamId items with
           | Thrown e => Thrown e
           | Returned None => Returned []
           | Returned (Some team) =>
               if truthy (Some team) then Returned (memberIdsOf team) else Returned []
           end
       end
   end).

(** The callback of [map] in [getTasks]. *)
Definition toTaskInfo (listId : string) (task : JSON) : Completion TaskInfo :=
  if isNull task then Thrown (OtherError "Cannot read properties of null (reading 'id')")
  else
    match jsString (prop "id" task) with
    | Thrown e => Thrown e
    | Returned id_ =>
        Returned {| task_id := id_; task_name := prop "name" task; task_listId := listId |}
    end.

(** The [while (page < 200)] loop of [getTasks]; [budget] is [200 - page]. *)
Fixpoint tasksLoop (budget : nat) (page : Z) (token : string) (listId : string) (w : W)
    (tasks : list TaskInfo) : W * list Event * Completion (list TaskInfo) :=
  match budget with
  | O => (w, [], Returned tasks)
  | S budget' =>
      let '(w1, evs, res) :=
        request W fetch token w ("/list/" +:+ listId +:+ "/task") (tasksQuery page) in
      match res with
      | Thrown e => (w1, evs, Thrown e)
      | Returned payload =>
          match arrayOrEmpty payload "tasks" "map" with
          | Thrown e => (w1, evs, Thrown e)
          | Returned items =>
              match mapCompletion (toTaskInfo listId) items with
              | Thrown e => (w1, evs, Thrown e)
              | Returned chunk =>
                  if truthy (prop "last_page" payload) || Nat.eqb (length chunk) 0 then
                    (w1, evs, Returned (tasks ++ chunk))
                  else
                    let '(w2, evs', res') :=
                      tasksLoop budget' (page + 1)%Z token listId w1 (tasks ++ chunk) in
                    (w2, evs ++ evs', res')
              end
          end
      end
  end.

Definition getTasks (token : string) (w : W) (listId : string)
  : W * list Event * Completion (list TaskInfo) :=
  tasksLoop 200 0%Z token listId w [].

End Lookups.
End ClickUpClient.

(** ** More of the coordinator ([main.ts]) *)

(** [{ ...alert, order }] *)
Definition withOrder (alert : AlertConfig.t) (order : Q) : AlertConfig.t :=
  {| AlertConfig.id := AlertConfig.id alert;
     AlertConfig.order := order;
     AlertConfig.name := AlertConfig.name alert;
     AlertConfig.description := AlertConfig.description alert;
     AlertConfig.type := AlertConfig.type alert;
     AlertConfig.teamId := AlertConfig.teamId alert;
     AlertConfig.folderId := AlertConfig.folderId alert;
     AlertConfig.folderName := AlertConfig.folderName alert;
     AlertConfig.listId := AlertConfig.listId alert;
     AlertConfig.listName := AlertConfig.listName alert;
     AlertConfig.customScopeType := AlertConfig.customScopeType alert;
     AlertConfig.timeRangeMode := AlertConfig.timeRangeMode alert;
     AlertConfig.startDate := AlertConfig.startDate alert;
     AlertConfig.endDate := AlertConfig.endDate alert;
     AlertConfig.budgetHours := AlertConfig.budgetHours alert;
     AlertConfig.warningThresholdPct := AlertConfig.warningThresholdPct alert;
     AlertConfig.criticalThresholdPct := AlertConfig.criticalThresholdPct alert;
     AlertConfig.excludedTaskIds := AlertConfig.excludedTaskIds alert;
     AlertConfig.includeOnlyTaskIds := AlertConfig.includeOnlyTaskIds alert;
     AlertConfig.refreshFrequencyMinutes := AlertConfig.refreshFrequencyMinutes alert;
     AlertConfig.active := AlertConfig.active alert;
     AlertConfig.createdAt := AlertConfig.createdAt alert;
     AlertConfig.updatedAt := AlertConfig.updatedAt alert;
     AlertConfig.lastRefreshedAt := AlertConfig.lastRefreshedAt alert;
     AlertConfig.lastSnapshot := AlertConfig.lastSnapshot alert |}.

(** [{ ...alert, updatedAt }] *)
Definition withUpdatedAt (alert : AlertConfig.t) (updatedAt : string) : AlertConfig.t :=
  {| AlertConfig.id := AlertConfig.id alert;
     AlertConfig.order := AlertConfig.order alert;
     AlertConfig.name := AlertConfig.name alert;
     AlertConfig.description := AlertConfig.description alert;
     AlertConfig.type := AlertConfig.type alert;
     AlertConfig.teamId := AlertConfig.teamId alert;
     AlertConfig.folderId := AlertConfig.folderId alert;
     AlertConfig.folderName := AlertConfig.folderName alert;
     AlertConfig.listId := AlertConfig.listId alert;
     AlertConfig.listName := AlertConfig.listName alert;
     AlertConfig.customScopeType := AlertConfig.customScopeType alert;
     AlertConfig.timeRangeMode := AlertConfig.timeRangeMode alert;
     AlertConfig.startDate := AlertConfig.startDate alert;
     AlertConfig.endDate := AlertConfig.endDate alert;
     AlertConfig.budgetHours := AlertConfig.budgetHours alert;
     AlertConfig.warningThresholdPct := AlertConfig.warningThresholdPct alert;
     AlertConfig.criticalThresholdPct := AlertConfig.criticalThresholdPct alert;
     AlertConfig.excludedTaskIds := AlertConfig.excludedTaskIds alert;
     AlertConfig.includeOnlyTaskIds := AlertConfig.includeOnlyTaskIds alert;
     AlertConfig.refreshFrequencyMinutes := AlertConfig.refreshFrequencyMinutes alert;
     AlertConfig.active := AlertConfig.active alert;
     AlertConfig.createdAt := AlertConfig.createdAt alert;
     AlertConfig.updatedAt := updatedAt;
     AlertConfig.lastRefreshedAt := AlertConfig.lastRefreshedAt alert;
     AlertConfig.lastSnapshot := AlertConfig.lastSnapshot alert |}.

(** [alerts.map((item, index) => ({ ...item, order: index }))] *)
Definition renumber (alerts : list AlertConfig.t) : list AlertConfig.t :=
  imap (fun index item => withOrder item (inject_Z (Z.of_nat index))) alerts.

(** [new Map(alerts.map((item) => [item.id, item]))] *)
Definition byId (alerts : list AlertConfig.t) : gmap string AlertConfig.t :=
  fold_left (fun m item => <[AlertConfig.id item := item]> m) alerts ∅.

(** The list [next] of the handler of ['alerts:reorder']: the alerts found
    for the ids given, in their order, then the alerts whose id is not
    among them. *)
Definition reordered (ids : list string) (alerts : list AlertConfig.t) : list AlertConfig.t :=
  omap (fun id_ => byId alerts !! id_) ids
  ++ List.filter (fun alert => negb (bool_decide (AlertConfig.id alert ∈ ids))) alerts.

Section Handlers.

Variable W : Type.
Variable fetch : W -> HttpRequest -> W * FetchOutcome.
Variable NumberOf : string -> option Q.
Variable numToString : jsnum -> string.
Variable clock : W -> string.
Variable startOfMonthMs endOfMonthMs : W -> jsnum.
Variable startOfDayMs endOfDayMs : string -> jsnum.
Variable localeCompare : string -> string -> Q.
Variable getScopeTree : string -> W -> W * Completion (list ScopeTreeTeam).
Variable getTeamMemberIds : string -> W -> string -> W * Completion (list string).

(** The handler of ['alerts:delete']. *)
Definition deleteAlertHandler (st : LocalStore) (id_ : string) : LocalStore * Completion unit :=
  match store_getAlerts localeCompare st with
  | Thrown e => (st, Thrown e)
  | Returned alerts =>
      let filtered :=
        renumber (List.filter (fun item => negb (String.eqb (AlertConfig.id item) id_)) alerts) in
      match store_setAlerts localeCompare st filtered with
      | Returned st1 => (st1, Returned tt)
      | Thrown e => (st, Thrown e)
      end
  end.

(** The handler of ['alerts:reorder']. *)
Definition reorderAlertsHandler (w : W) (st : LocalStore) (ids : list string)
  : LocalStore * Completion (list AlertConfig.t) :=
  match store_getAlerts localeCompare st with
  | Thrown e => (st, Thrown e)
  | Returned alerts =>
      let normalized :=
        imap (fun index alert => withUpdatedAt (withOrder alert (inject_Z (Z.of_nat index))) (clock w))
          (reordered ids alerts) in
      match store_setAlerts localeCompare st normalized with
      | Returned st1 => (st1, Returned normalized)
      | Thrown e => (st, Thrown e)
      end
  end.

(** The handler of ['alerts:refresh']: one alert, found by its id. *)
Definition refreshAlertHandler (w : W) (st : LocalStore) (id_ : string)
  : W * LocalStore * list Event * Completion RefreshAlertResult.t :=
  match store_getAlerts localeCompare st with
  | Thrown e => (w, st, [], Thrown e)
  | Returned alerts =>
      match List.find (fun item => String.eqb (AlertConfig.id item) id_) alerts with
      | None => (w, st, [], Thrown (OtherError "Alert not found."))
      | Some target =>
          match store_getToken localeCompare st with
          | Thrown e => (w, st, [], Thrown e)
          | Returned None =>
              (w, st, [],
               Thrown (OtherError "No ClickUp token configured. Add a token in settings first."))
          | Returned (Some token) =>
              let '(w1, looked) := getTeamMemberIds token w (AlertConfig.teamId target) in
              let teamMemberIds := match looked with Returned ids => ids | Thrown _ => [] end in
              let '(w2, evs, result) :=
                refreshSingleAlert_call4 W fetch NumberOf numToString clock startOfMonthMs
                  endOfMonthMs startOfDayMs endOfDayMs getScopeTree token w1 target None
                  teamMemberIds in
              let nextAlerts :=
                List.map
                  (fun item =>
                     if String.eqb (AlertConfig.id item) id_ then RefreshAlertResult.alert result
                     else item)
                  alerts in
              match store_setAlerts localeCompare st nextAlerts with
              | Returned st1 => (w2, st1, evs, Returned result)
              | Thrown e => (w2, st, evs, Thrown e)
              end
          end
      end
  end.

End Handlers.

(** ** Dashboard summary ([src/utils.ts]) *)

Module DashboardSummary.
Record t : Type := mk {
  activeAlerts : nat;
  green : nat;
  yellow : nat;
  red : nat;
  overBudget : nat
}.
End DashboardSummary.

(** The body of the loop of [computeSummary]. *)
Definition summarize (summary : DashboardSummary.t) (alert : AlertConfig.t) : DashboardSummary.t :=
  if negb (AlertConfig.active alert) then summary
  else
    let status := AlertSnapshot.status <$> AlertConfig.lastSnapshot alert in
    let overBy := default 0%Q (AlertSnapshot.overByHours <$> AlertConfig.lastSnapshot alert) in
    let bump (hit : bool) (n : nat) : nat := if hit then S n else n in
    {| DashboardSummary.activeAlerts := S (DashboardSummary.activeAlerts summary);
       DashboardSummary.green :=
         bump (match status with Some Green => true | _ => false end)
           (DashboardSummary.green summary);
       DashboardSummary.yellow :=
         bump (match status with Some Yellow => true | _ => false end)
           (DashboardSummary.yellow summary);
       DashboardSummary.red :=
         bump (match status with Some Red => true | _ => false end)
           (DashboardSummary.red summary);
       DashboardSummary.overBudget :=
         bump (Qlt_bool 0 overBy) (DashboardSummary.overBudget summary) |}.

Definition computeSummary (alerts : list AlertConfig.t) : DashboardSummary.t :=
  fold_left summarize alerts
    {| DashboardSummary.activeAlerts := 0; DashboardSummary.green := 0;
       DashboardSummary.yellow := 0; DashboardSummary.red := 0;
       DashboardSummary.overBudget := 0 |}.

(** ** Task id input ([src/utils.ts]) *)

(** [input.split(',')]: the pieces between the commas; a string without
    comma, the empty one too, is its only piece. *)
Fixpoint splitComma (s : string) : list string :=
  match s with
  | EmptyString => [EmptyString]
  | String c rest =>
      if Ascii.eqb c ","%char then EmptyString :: splitComma rest
      else
        match splitComma rest with
        | piece :: pieces => String c piece :: pieces
        | [] => [String c EmptyString]
        end
  end.

(** [values.join(', ')] *)
Fixpoint joinComma (values : list string) : string :=
  match values with
  | [] => EmptyString
  | [value] => value
  | value :: rest => value +:+ ", " +:+ joinComma rest
  end.

Definition parseTaskIdInput (input : string) : list string :=
  spreadSet (List.filter nonEmpty (List.map trim (splitComma input))).

Definition formatTaskIds (values : option (list string)) : string :=
  joinComma (default [] values).

(** Whether a string has no comma. *)
Fixpoint noComma (s : string) : bool :=
  match s with
  | EmptyString => true
  | String c rest => negb (Ascii.eqb c ","%char) && noComma rest
  end.

(** A first page that hands out a cursor, and a later page that has no
    cursor but names a next page. *)
Definition cursorPage : JSON :=
  JObj [("data", JArr []); ("next_cursor", JStr "cursor-1")].

Definition numberedPage : JSON :=
  JObj [("data", JArr []); ("next_page", JNum (Fin 5))].

(** A [/team] payload with one workspace whose member is also listed as a
    guest, once under [user] and once by its own [id]. *)
Definition teamsPayload : JSON :=
  JObj [("teams",
         JArr [ JObj [("id", JStr "team-1");
                      ("members", JArr [ JObj [("user", JObj [("id", JNum (Fin 7))])];
                                         JObj [("user", JObj [("id", JStr "u-2")])];
                                         JNull ]);
                      ("guests", JArr [ JObj [("id", JNum (Fin 7))];
                                        JObj [("id", JStr "")] ])] ])].

(** [String(value)] for the compound values of the examples. *)
Definition exampleCompoundToString (value : JSON) : Completion string :=
  Returned "[object Object]".

(** A page of two tasks that says it is the last. *)
Definition lastTasksPage : JSON :=
  JObj [("tasks", JArr [ JObj [("id", JStr "t-1"); ("name", JStr "Draft")];
                         JObj [("id", JNum (Fin 2)); ("name", JStr "Review")] ]);
        ("last_page", JBool true)].

(** [refreshSingleAlert] with the scope tree handed over, against a
    provider that gives the same response to every attempt. *)
Definition exampleRefreshWith (o : FetchOutcome) (alert : AlertConfig.t)
  : unit * list Event * RefreshAlertResult.t :=
  refreshSingleAlert unit (constantFetch o) exampleNumberOf exampleNumToString
    (fun _ => "2024-03-01T00:00:00.000Z") (fun _ => Fin 0) (fun _ => Fin 0)
    (fun _ => Fin 0) (fun _ => Fin 0) (fun _ w => (w, Returned sampleTree))
    "token" tt alert (Some sampleTree).

(** A provider that keeps a log of the workspaces whose members were
    looked up: the state is the log. *)
Definition loggingLookup (token : string) (w : list string) (teamId : string)
  : list string * Completion (list string) :=
  (w ++ [teamId], Returned []).

Definition quietFetch (w : list string) (r : HttpRequest) : list string * FetchOutcome :=
  (w, emptyPage).

(** The example alert under another id and position. *)
Definition sampleAlertAt (id_ : string) (order : Q) : AlertConfig.t :=
  withOrder
    {| AlertConfig.id := id_;
       AlertConfig.order := 0%Q;
       AlertConfig.name := "Design retainer";
       AlertConfig.description := None;
       AlertConfig.type := TypeFolder;
       AlertConfig.teamId := "team-1";
       AlertConfig.folderId := Some "folder-1";
       AlertConfig.folderName := Some "Design";
       AlertConfig.listId := None;
       AlertConfig.listName := None;
       AlertConfig.customScopeType := None;
       AlertConfig.timeRangeMode := NoRange;
       AlertConfig.startDate := None;
       AlertConfig.endDate := None;
       AlertConfig.budgetHours := 50%Q;
       AlertConfig.warningThresholdPct := 80%Q;
       AlertConfig.criticalThresholdPct := 95%Q;
       AlertConfig.excludedTaskIds := [];
       AlertConfig.includeOnlyTaskIds := None;
       AlertConfig.refreshFrequencyMinutes := 0%Q;
       AlertConfig.active := true;
       AlertConfig.createdAt := "2024-01-01T00:00:00.000Z";
       AlertConfig.updatedAt := "2024-01-01T00:00:00.000Z";
       AlertConfig.lastRefreshedAt := None;
       AlertConfig.lastSnapshot := None |}
    order.

(** A store with a token and three alerts, written out of order. *)
Definition storeOfThree : LocalStore :=
  {| stored_token := Some "token";
     stored_alerts := [sampleAlertAt "alert-c" 2; sampleAlertAt "alert-a" 0;
                       sampleAlertAt "alert-b" 1];
     stored_readable := true;
     stored_writable := true |}.

(** A comparison of creation dates for the examples; the alerts of the
    examples differ in [order]. *)
Definition exampleLocaleCompare (a b : string) : Q := 0%Q.

(** White space of more than one byte, for the examples: U+00A0 (no-break
    space), U+3000 (ideographic space), U+FEFF (byte order mark) and
    U+2028 (line separator), in UTF-8. *)
Definition noBreakSpace : string := String "194"%char (String "160"%char "").
Definition ideographicSpace : string :=
  String "227"%char (String "128"%char (String "128"%char "")).
Definition byteOrderMark : string :=
  String "239"%char (String "187"%char (String "191"%char "")).
Definition lineSeparator : string :=
  String "226"%char (String "128"%char (String "168"%char "")).

(** U+00E0 (a with grave accent) is C3 A0: its second byte is the second
    byte of the no-break space. *)
Definition aGrave : string := String "195"%char (String "160"%char "").

(** ** The definitions at small inputs *)

(** The rounding of [Double] against the primitive floats of Rocq, which
    are binary64 numbers: quotients and sums of the aggregator, a tie, two
    subnormal numbers and an overflow. *)
Example round_agrees_with_primitive_floats :
  sameDouble (floatValue (1 / 10)%float) (Double.round (1 # 10)) = true
  /\ sameDouble (floatValue (143982000 / 3600000 * 100)%float)
       (Double.mul (Double.div (Double.Finite 143982000) (Double.Finite 3600000))
          (Double.Finite 100)) = true
  /\ sameDouble (floatValue ((2000 / 3600000 + 196000 / 3600000) * 100)%float)
       (Double.mul
          (Double.sumHours [sampleEntry "entry-1" None 2000; sampleEntry "entry-2" None 196000])
          (Double.Finite 100)) = true
  /\ sameDouble (floatValue (4167 / 100 / 50 * 100)%float)
       (Double.mul (Double.div (Double.round (4167 # 100)) (Double.Finite 50))
          (Double.Finite 100)) = true
  /\ sameDouble (floatValue (50 - 4167 / 100)%float)
       (Double.sub (Double.Finite 50) (Double.round (4167 # 100))) = true
  /\ sameDouble (floatValue (1 + 0x1p-53)%float) (Double.round (1 + 2 ^ (-53))) = true
  /\ sameDouble (floatValue (1 + 0x1p-52 + 0x1p-53)%float)
       (Double.round (1 + 2 ^ (-52) + 2 ^ (-53))) = true
  /\ sameDouble (floatValue (0x1p-1074 / 2)%float) (Double.round (2 ^ (-1075))) = true
  /\ sameDouble (floatValue (0x1p-1074 * 3 / 2)%float) (Double.round (3 * 2 ^ (-1075))) = true
  /\ sameDouble (floatValue (0x1p1023 * 2)%float) (Double.round (2 ^ 1024)) = true
  /\ sameDouble (floatValue (0x1.fffffffffffffp1023 + 0x1p969)%float)
       (Double.round ((2 ^ 53 - 1) * 2 ^ 971 + 2 ^ 969)) = true
  /\ sameDouble (floatValue (0 / 0)%float) (Double.div (Double.Finite 0) (Double.Finite 0)) = true.
Proof. vm_compute. repeat split. Qed.

(** [Double.buildSnapshot] at small inputs: the snapshot of the scenario,
    one over the budget, one without budget, and the two lists of entries
    of 198,000 ms in all that differ in [hoursUsed]. *)
Example Double_buildSnapshot_ex :
  let fields (snapshot : Double.Snapshot) :=
    (Double.status snapshot, Double.hoursUsed snapshot, Double.percentUsed snapshot,
     Double.remainingHours snapshot, Double.overByHours snapshot) in
  let entry := sampleEntry "entry-1" (Some "task-1") in
  fields (Double.buildSnapshot "now" (sampleAlert true 50 [] None None) [entry 150000000%Q] None)
  = (Yellow, Double.round (4167 # 100), Double.round (8334 # 100), Double.round (833 # 100),
     Double.Finite 0)
  /\ fields (Double.buildSnapshot "now" (sampleAlert true 40 [] None None) [entry 150000000%Q] None)
     = (Red, Double.round (4167 # 100), Double.round (10418 # 100), Double.Finite 0,
        Double.round (167 # 100))
  /\ fields (Double.buildSnapshot "now" (sampleAlert true 0 [] None None) [entry 150000000%Q] None)
     = (Green, Double.round (4167 # 100), Double.Finite 0, Double.Finite 0,
        Double.round (4167 # 100))
  /\ fields (Double.buildSnapshot "now" (sampleAlert true 50 [] None None) [entry 198000%Q] None)
     = (Green, Double.round (6 # 100), Double.round (12 # 100), Double.round (4994 # 100),
        Double.Finite 0)
  /\ fields (Double.buildSnapshot "now" (sampleAlert true 50 [] None None)
               [entry 2000%Q; entry 196000%Q] None)
     = (Green, Double.round (5 # 100), Double.round (10 # 100), Double.round (4995 # 100),
        Double.Finite 0).
Proof. vm_compute. repeat split. Qed.

Example trim_ex : trim (String "009"%char " user-1  ") = "user-1" /\ trim "   " = "".
Proof. split; reflexivity. Qed.

(** White space beyond ASCII is trimmed as well, and a character that
    shares a byte with a white space character is not cut. *)
Example trim_unicode_ex :
  trim (noBreakSpace +:+ byteOrderMark +:+ "task 1" +:+ lineSeparator +:+ ideographicSpace)
  = "task 1"
  /\ trim noBreakSpace = ""
  /\ trim ("caf" +:+ aGrave +:+ " ") = "caf" +:+ aGrave
  /\ uniqIds (Some [noBreakSpace; "a" +:+ noBreakSpace; "a"]) = ["a"]
  /\ buildAssigneeQueryValues (Some [noBreakSpace]) = ["__NONE__"].
Proof. vm_compute. repeat split. Qed.

Example uniqIds_ex : uniqIds (Some [" a"; "b"; ""; "a "; "  "; "b"]) = ["a"; "b"].
Proof. vm_compute. reflexivity. Qed.

Example buildAssigneeQueryValues_ex :
  buildAssigneeQueryValues (Some ["7"; " 7"; "9"]) = ["7"; "9"; "__UNASSIGNED__"; "__NONE__"]
  /\ buildAssigneeQueryValues (Some []) = ["__NONE__"]
  /\ buildAssigneeQueryValues None = ["__NONE__"].
Proof. vm_compute. repeat split. Qed.

Example backoffMs_ex : backoffMs 1 = 250%Z /\ backoffMs 2 = 500%Z /\ backoffMs 3 = 1000%Z.
Proof. repeat split. Qed.

Example Math_round_ex :
  (Math_round (5 # 2) == 3)%Q /\ (Math_round (- (5 # 2)) == -2)%Q
  /\ (roundHours (150000000 / 3600000) == 4167 # 100)%Q.
Proof. repeat split. Qed.

Example normalizeErrorMessage_ex :
  normalizeErrorMessage (JObj [("err", JStr "Rate limit reached")]) "fallback"
  = "Rate limit reached"
  /\ normalizeErrorMessage (JObj [("message", JStr "Team not found")]) "fallback"
     = "Team not found"
  /\ normalizeErrorMessage JNull ("ClickUp API request failed (" +:+ showZ 502 +:+ ")")
     = "ClickUp API request failed (502)".
Proof. repeat split. Qed.

Example nextStep_ex :
  nextStep (Fin 0) (JObj [("next_cursor", JStr "c1"); ("next_page", JNum (Fin 5))])
  = FollowCursor "c1"
  /\ nextStep (Fin 2) (JObj [("next_cursor", JStr ""); ("next_page", JNum (Fin 3))])
     = GoToPage (Fin 3)
  /\ nextStep (Fin 2) (JObj [("next_page", JNum (Fin 2)); ("last_page", JNum (Fin 9))])
     = Exhausted
  /\ nextStep (Fin 2) (JObj [("last_page", JNum (Fin 2))]) = Exhausted.
Proof. repeat split. Qed.

Example keepEntry_ex :
  let alert := sampleAlert true 50 ["task-1"] (Some ["task-1"; "task-2"]) None in
  applyEntryFilters alert
    [sampleEntry "entry-1" (Some "task-1") 10; sampleEntry "entry-2" (Some "task-2") 20;
     sampleEntry "entry-3" (Some "task-3") 30; sampleEntry "entry-4" None 40]
  = [sampleEntry "entry-2" (Some "task-2") 20].
Proof. vm_compute. reflexivity. Qed.

(** An include-only id that is a no-break space is blank, and an excluded
    id followed by one is the id. *)
Example keepEntry_unicode_ex :
  applyEntryFilters (sampleAlert true 50 [] (Some [noBreakSpace]) None)
    [sampleEntry "entry-1" None 10]
  = [sampleEntry "entry-1" None 10]
  /\ applyEntryFilters (sampleAlert true 50 ["task-1" +:+ noBreakSpace] None None)
       [sampleEntry "entry-1" (Some "task-1") 10]
     = [].
Proof. vm_compute. split; reflexivity. Qed.

(** ** Properties of [request] *)

Section RequestFacts.

Variable W : Type.
Variable fetch : W -> HttpRequest -> W * FetchOutcome.

Lemma requestLoop_S (left : nat) (attempt : Z) (w : W) (r : HttpRequest) :
  requestLoop W fetch (S left) attempt w r =
  let '(w1, o) := fetch w r in
  match attemptStep attempt o with
  | (slept, inl res) => (w1, EvFetch r :: slept, res)
  | (slept, inr _) =>
      let '(w2, evs, res) := requestLoop W fetch left (attempt + 1)%Z w1 r in
      (w2, EvFetch r :: slept ++ evs, res)
  end.
Proof.
  cbn [requestLoop]. destruct (fetch w r) as [w1 o].
  unfold attemptStep. destruct (tryBlock attempt o) as [slept [p | | e]].
  - reflexivity.
  - reflexivity.
  - destruct (catchBlock attempt e) as [slept' [[] | e']].
    + destruct (requestLoop W fetch left (attempt + 1)%Z w1 r) as [[w2 evs] res].
      rewrite <- app_assoc. reflexivity.
    + reflexivity.
Qed.

(** What one attempt does, by the kind of its outcome. *)
Lemma attemptStep_ok (attempt status : Z) (payload : JSON) :
  response_ok status = true ->
  attemptStep attempt (Responded status payload) = ([], inl (Returned payload)).
Proof. intros Hok. unfold attemptStep, tryBlock. rewrite Hok. reflexivity. Qed.

Lemma attemptStep_retry (attempt : Z) (o : FetchOutcome) :
  (attempt < MAX_ATTEMPTS)%Z -> retriable o ->
  attemptStep attempt o = ([EvSleep (backoffMs attempt)], inr tt).
Proof.
  intros Hlt Hr. apply Z.ltb_lt in Hlt.
  destruct o as [| status payload | status];
    unfold attemptStep, tryBlock, catchBlock, isRetriableError;
    [rewrite Hlt; reflexivity | | rewrite Hlt; reflexivity].
  - cbn in Hr.
    assert (response_ok status = false) as ->.
    { unfold response_ok. apply andb_false_iff; right; apply Z.leb_gt; lia. }
    assert ((status =? 401)%Z = false) as -> by (apply Z.eqb_neq; lia).
    assert ((status =? 403)%Z = false) as -> by (apply Z.eqb_neq; lia).
    assert (((status =? 429)%Z || (500 <=? status)%Z) = true) as ->.
    { apply orb_true_iff. destruct Hr as [-> | Hr]; [left; reflexivity |].
      right. apply Z.leb_le. lia. }
    rewrite Hlt. reflexivity.
Qed.

Lemma attemptStep_last (attempt : Z) (o : FetchOutcome) :
  (MAX_ATTEMPTS <= attempt)%Z ->
  attemptStep attempt o =
  match o with
  | Responded status payload =>
      if response_ok status then ([], inl (Returned payload))
      else ([], inl (Thrown (attemptError o)))
  | FetchFailed | Unreadable _ => ([], inl (Thrown (attemptError o)))
  end.
Proof.
  intros Hge. apply Z.ltb_ge in Hge.
  destruct o as [| status payload | status];
    unfold attemptStep, tryBlock, catchBlock, attemptError, isRetriableError;
    [rewrite Hge; reflexivity | | rewrite Hge; reflexivity].
  - destruct (response_ok status); [reflexivity |].
    destruct (status =? 401)%Z; [rewrite Hge; reflexivity |].
    destruct (status =? 403)%Z; [rewrite Hge; reflexivity |].
    rewrite Hge, andb_false_r. reflexivity.
Qed.

Lemma attemptStep_auth (attempt status : Z) (payload : JSON) :
  status = 401%Z \/ status = 403%Z ->
  attemptStep attempt (Responded status payload) =
  ([], inl (Thrown (attemptError (Responded status payload)))).
Proof.
  intros [-> | ->]; unfold attemptStep, tryBlock, catchBlock, isRetriableError;
    cbn [response_ok Z.eqb Z.leb Z.compare Pos.compare Pos.compare_cont Pos.eqb andb orb];
    rewrite andb_false_r; reflexivity.
Qed.

(** An attempt sleeps only to retry, and throws only the error of its
    outcome. *)
Lemma attemptStep_shape (attempt : Z) (o : FetchOutcome) :
  (exists payload, attemptStep attempt o = ([], inl (Returned payload)))
  \/ attemptStep attempt o = ([], inl (Thrown (attemptError o)))
  \/ ((attempt < MAX_ATTEMPTS)%Z
      /\ attemptStep attempt o = ([EvSleep (backoffMs attempt)], inr tt)).
Proof.
  destruct (Z.ltb_spec attempt MAX_ATTEMPTS) as [Hlt | Hge].
  - destruct o as [| status payload | status];
      [right; right; split; [exact Hlt |]; apply attemptStep_retry; [exact Hlt | exact I]
      | | right; right; split; [exact Hlt |]; apply attemptStep_retry; [exact Hlt | exact I]].
    + apply Z.ltb_lt in Hlt.
      unfold attemptStep, tryBlock, catchBlock, attemptError, isRetriableError.
      destruct (response_ok status); [left; eexists; reflexivity |].
      destruct (status =? 401)%Z; [right; left; rewrite andb_false_r; reflexivity |].
      destruct (status =? 403)%Z; [right; left; rewrite andb_false_r; reflexivity |].
      rewrite Hlt.
      destruct ((status =? 429)%Z || (500 <=? status)%Z) eqn:Hs.
      * right. right. split; [apply Z.ltb_lt; exact Hlt | reflexivity].
      * right. left. cbn [andb]. rewrite Hs. reflexivity.
  - rewrite (attemptStep_last attempt o Hge).
    destruct o as [| status payload | status]; [right; left; reflexivity | | right; left; reflexivity].
    destruct (response_ok status); [left; eexists; reflexivity | right; left; reflexivity].
Qed.

Lemma fetchesOf_app (a b : list Event) : fetchesOf (a ++ b) = fetchesOf a ++ fetchesOf b.
Proof. apply omap_app. Qed.

Lemma sleepsOf_app (a b : list Event) : sleepsOf (a ++ b) = sleepsOf a ++ sleepsOf b.
Proof. apply omap_app. Qed.

Lemma requestsOf_app (a b : list Event) : requestsOf (a ++ b) = requestsOf a ++ requestsOf b.
Proof. apply omap_app. Qed.

(** The loop makes at most as many attempts as remain. *)
Lemma requestLoop_fetches (left : nat) :
  forall (attempt : Z) (w : W) (r : HttpRequest),
    length (fetchesOf (requestLoop W fetch left attempt w r).1.2) <= left.
Proof.
  induction left as [| left IH]; intros attempt w r.
  - cbn. lia.
  - rewrite requestLoop_S. destruct (fetch w r) as [w1 o].
    destruct (attemptStep_shape attempt o) as [[payload ->] | [-> | [_ ->]]].
    + cbn. lia.
    + cbn. lia.
    + specialize (IH (attempt + 1)%Z w1 r).
      destruct (requestLoop W fetch left (attempt + 1)%Z w1 r) as [[w2 evs] res].
      cbn in *. lia.
Qed.

(** [request] makes no requests of its own and no [EvRequest] but the
    first event. *)
Lemma requestLoop_requests (left : nat) :
  forall (attempt : Z) (w : W) (r : HttpRequest),
    requestsOf (requestLoop W fetch left attempt w r).1.2 = [].
Proof.
  induction left as [| left IH]; intros attempt w r.
  - reflexivity.
  - rewrite requestLoop_S. destruct (fetch w r) as [w1 o].
    destruct (attemptStep_shape attempt o) as [[payload ->] | [-> | [_ ->]]].
    + reflexivity.
    + reflexivity.
    + specialize (IH (attempt + 1)%Z w1 r).
      destruct (requestLoop W fetch left (attempt + 1)%Z w1 r) as [[w2 evs] res].
      cbn in *. exact IH.
Qed.

Lemma attemptError_not_unexpected (o : FetchOutcome) : attemptError o <> unexpectedError.
Proof.
  destruct o as [| status payload | status]; unfold attemptError, unexpectedError;
    [discriminate | | discriminate].
  destruct (status =? 401)%Z; [discriminate |].
  destruct (status =? 403)%Z; discriminate.
Qed.

(** While attempts remain the loop does not end in the statement after it. *)
Lemma requestLoop_not_unexpected (left : nat) :
  forall (attempt : Z) (w : W) (r : HttpRequest),
    (attempt + Z.of_nat left = MAX_ATTEMPTS + 1)%Z -> 0 < left ->
    (requestLoop W fetch left attempt w r).2 <> Thrown unexpectedError.
Proof.
  induction left as [| left IH]; intros attempt w r Hsum Hpos; [lia |].
  rewrite requestLoop_S. destruct (fetch w r) as [w1 o].
  destruct (attemptStep_shape attempt o) as [[payload ->] | [-> | [Hlt ->]]].
  - discriminate.
  - cbn. intros [= H]. exact (attemptError_not_unexpected o H).
  - assert (0 < left) as Hleft by (unfold MAX_ATTEMPTS in *; lia).
    specialize (IH (attempt + 1)%Z w1 r ltac:(lia) Hleft).
    destruct (requestLoop W fetch left (attempt + 1)%Z w1 r) as [[w2 evs] res].
    exact IH.
Qed.

(** C4, amended.  The retry policy of [request].
    - An attempt before the fourth that ends in HTTP 429 or HTTP 5xx, in a
      failure with no response (network error, timeout), or in a response
      with a JSON content type whose body cannot be read, whatever its
      status, is followed by a sleep of [250 * 2 ^ (attempt - 1)] ms and by
      the next attempt.
    - A call makes at most 4 attempts.
    - HTTP 401 ends the call at once with code UNAUTHORIZED and HTTP 403
      with code FORBIDDEN, no sleep and no further attempt, when the
      response was read: its content type is not JSON, or its body parses.
    - 429 on attempts 1 to 3 and 200 on attempt 4: the sleeps are 250, 500
      and 1000 ms and the call returns the payload of the fourth.
    - A successful attempt ends the call: nothing is fetched after it.
    - Responses whose JSON body cannot be read on all four attempts, HTTP
      401 and 403 among them: the sleeps are 250, 500 and 1000 ms and the
      call ends in the network error, without status and without code. *)
Theorem C4_retry_policy :
  (forall (left : nat) (attempt : Z) (w w1 : W) (r : HttpRequest) (o : FetchOutcome),
      (attempt < MAX_ATTEMPTS)%Z ->
      fetch w r = (w1, o) ->
      retriable o ->
      requestLoop W fetch (S left) attempt w r =
      (let '(w2, evs, res) := requestLoop W fetch left (attempt + 1)%Z w1 r in
       (w2, EvFetch r :: EvSleep (250 * 2 ^ (attempt - 1))%Z :: evs, res)))
  /\ (forall (token : string) (w : W) (path : string) (query : Query),
        length (fetchesOf (request W fetch token w path query).1.2) <= 4)
  /\ (forall (left : nat) (attempt : Z) (w w1 : W) (r : HttpRequest) (payload : JSON),
        fetch w r = (w1, Responded 401 payload) ->
        requestLoop W fetch (S left) attempt w r =
        (w1, [EvFetch r],
         Thrown (ClickUpApiError "Invalid or revoked ClickUp token."
                   (Some 401%Z) (Some "UNAUTHORIZED"))))
  /\ (forall (left : nat) (attempt : Z) (w w1 : W) (r : HttpRequest) (payload : JSON),
        fetch w r = (w1, Responded 403 payload) ->
        requestLoop W fetch (S left) attempt w r =
        (w1, [EvFetch r],
         Thrown (ClickUpApiError "Token is valid but lacks required permissions for this scope."
                   (Some 403%Z) (Some "FORBIDDEN"))))
  /\ (forall (token : string) (w w1 w2 w3 w4 : W) (path : string) (query : Query)
             (p1 p2 p3 payload : JSON),
        let r := {| req_token := token; req_path := path; req_params := definedParams query |} in
        fetch w r = (w1, Responded 429 p1) ->
        fetch w1 r = (w2, Responded 429 p2) ->
        fetch w2 r = (w3, Responded 429 p3) ->
        fetch w3 r = (w4, Responded 200 payload) ->
        request W fetch token w path query =
        (w4,
         [EvRequest r; EvFetch r; EvSleep 250; EvFetch r; EvSleep 500; EvFetch r;
          EvSleep 1000; EvFetch r],
         Returned payload))
  /\ (forall (left : nat) (attempt status : Z) (w w1 : W) (r : HttpRequest) (payload : JSON),
        fetch w r = (w1, Responded status payload) ->
        response_ok status = true ->
        requestLoop W fetch (S left) attempt w r = (w1, [EvFetch r], Returned payload))
  /\ (forall (token : string) (w w1 w2 w3 w4 : W) (path : string) (query : Query)
             (s1 s2 s3 s4 : Z),
        let r := {| req_token := token; req_path := path; req_params := definedParams query |} in
        fetch w r = (w1, Unreadable s1) ->
        fetch w1 r = (w2, Unreadable s2) ->
        fetch w2 r = (w3, Unreadable s3) ->
        fetch w3 r = (w4, Unreadable s4) ->
        request W fetch token w path query =
        (w4,
         [EvRequest r; EvFetch r; EvSleep 250; EvFetch r; EvSleep 500; EvFetch r;
          EvSleep 1000; EvFetch r],
         Thrown (ClickUpApiError "Network error while contacting ClickUp API." None None))).
Proof.
  split; [| split; [| split; [| split; [| split; [| split]]]]].
  - intros left attempt w w1 r o Hlt Hfetch Hretry.
    rewrite requestLoop_S, Hfetch, (attemptStep_retry attempt o Hlt Hretry).
    reflexivity.
  - intros token w path query. unfold request.
    pose proof (requestLoop_fetches (Z.to_nat MAX_ATTEMPTS) 1%Z w
                  {| req_token := token; req_path := path; req_params := definedParams query |})
      as Hle.
    change (Z.to_nat MAX_ATTEMPTS) with 4 in *.
    destruct (requestLoop W fetch 4 1%Z w _) as [[w' evs] res].
    exact Hle.
  - intros left attempt w w1 r payload Hfetch.
    rewrite requestLoop_S, Hfetch, attemptStep_auth by (left; reflexivity). reflexivity.
  - intros left attempt w w1 r payload Hfetch.
    rewrite requestLoop_S, Hfetch, attemptStep_auth by (right; reflexivity). reflexivity.
  - intros token w w1 w2 w3 w4 path query p1 p2 p3 payload r H1 H2 H3 H4.
    unfold request. fold r.
    change (Z.to_nat MAX_ATTEMPTS) with 4.
    rewrite requestLoop_S, H1, (attemptStep_retry 1 _) by (unfold MAX_ATTEMPTS; cbn; lia).
    rewrite requestLoop_S, H2, (attemptStep_retry (1 + 1) _) by (unfold MAX_ATTEMPTS; cbn; lia).
    rewrite requestLoop_S, H3, (attemptStep_retry (1 + 1 + 1) _) by (unfold MAX_ATTEMPTS; cbn; lia).
    rewrite requestLoop_S, H4, attemptStep_ok by reflexivity.
    reflexivity.
  - intros left attempt status w w1 r payload Hfetch Hok.
    rewrite requestLoop_S, Hfetch, attemptStep_ok by exact Hok. reflexivity.
  - intros token w w1 w2 w3 w4 path query s1 s2 s3 s4 r H1 H2 H3 H4.
    unfold request. fold r.
    change (Z.to_nat MAX_ATTEMPTS) with 4.
    rewrite requestLoop_S, H1, (attemptStep_retry 1 _) by (unfold MAX_ATTEMPTS; cbn; lia).
    rewrite requestLoop_S, H2, (attemptStep_retry (1 + 1) _) by (unfold MAX_ATTEMPTS; cbn; lia).
    rewrite requestLoop_S, H3, (attemptStep_retry (1 + 1 + 1) _) by (unfold MAX_ATTEMPTS; cbn; lia).
    rewrite requestLoop_S, H4, (attemptStep_last (1 + 1 + 1 + 1) _)
      by (unfold MAX_ATTEMPTS; cbn; lia).
    reflexivity.
Qed.

(** C8, amended.  A call of [request] that makes its four attempts and
    returns no payload throws the error of the fourth attempt: the
    UNAUTHORIZED or FORBIDDEN error on HTTP 401 or 403, the message of the
    provider (or "ClickUp API request failed (status)") with the status on
    any other response that was read, and "Network error while contacting
    ClickUp API." when there was no response or the JSON body of the
    response could not be read.  No call of [request] ends in the error
    "Unexpected API error." of the statement after its loop. *)
Theorem C8_exhaustion_throws_last_error :
  (forall (token : string) (w w1 w2 w3 w4 : W) (path : string) (query : Query)
          (o1 o2 o3 o4 : FetchOutcome),
      let r := {| req_token := token; req_path := path; req_params := definedParams query |} in
      let run := request W fetch token w path query in
      fetch w r = (w1, o1) ->
      fetch w1 r = (w2, o2) ->
      fetch w2 r = (w3, o3) ->
      fetch w3 r = (w4, o4) ->
      length (fetchesOf run.1.2) = 4 ->
      isReturned run.2 = false ->
      run.2 = Thrown (attemptError o4))
  /\ (forall (token : string) (w : W) (path : string) (query : Query),
        (request W fetch token w path query).2 <> Thrown unexpectedError).
Proof.
  split.
  - intros token w w1 w2 w3 w4 path query o1 o2 o3 o4 r run H1 H2 H3 H4.
    subst run. unfold request. fold r. change (Z.to_nat MAX_ATTEMPTS) with 4.
    rewrite requestLoop_S, H1.
    destruct (attemptStep_shape 1 o1) as [[? ->] | [-> | [_ ->]]]; [cbn; lia | cbn; lia |].
    rewrite requestLoop_S, H2.
    destruct (attemptStep_shape (1 + 1) o2) as [[? ->] | [-> | [_ ->]]]; [cbn; lia | cbn; lia |].
    rewrite requestLoop_S, H3.
    destruct (attemptStep_shape (1 + 1 + 1) o3) as [[? ->] | [-> | [_ ->]]];
      [cbn; lia | cbn; lia |].
    rewrite requestLoop_S, H4.
    rewrite (attemptStep_last (1 + 1 + 1 + 1) o4) by (unfold MAX_ATTEMPTS; cbn; lia).
    destruct o4 as [| status payload | status]; [reflexivity | | reflexivity].
    destruct (response_ok status); [cbn; discriminate | reflexivity].
  - intros token w path query. unfold request.
    pose proof (requestLoop_not_unexpected (Z.to_nat MAX_ATTEMPTS) 1%Z w
                  {| req_token := token; req_path := path; req_params := definedParams query |}
                  eq_refl ltac:(unfold MAX_ATTEMPTS; cbn; lia)) as Hne.
    destruct (requestLoop W fetch (Z.to_nat MAX_ATTEMPTS) 1%Z w _) as [[w' evs] res].
    exact Hne.
Qed.

End RequestFacts.

(** ** Properties of [getTimeEntries] *)

Section TimeEntriesFacts.

Variable W : Type.
Variable fetch : W -> HttpRequest -> W * FetchOutcome.
Variable NumberOf : string -> option Q.
Variable numToString : jsnum -> string.

Local Abbreviation entryId := (entryIdOf NumberOf numToString).
Local Abbreviation ok := (collected_ok NumberOf numToString).

Lemma parseDurationMs_nonneg (duration : option JSON) :
  (0 <= parseDurationMs NumberOf duration)%Q.
Proof.
  unfold parseDurationMs.
  destruct duration as [[| b | [q | |] | s | items | fields] |];
    try apply Qle_refl; try apply Qabs_nonneg.
  destruct (NumberOf s); [apply Qabs_nonneg | apply Qle_refl].
Qed.

Lemma collected_ok_empty : ok (∅, []).
Proof.
  split; [constructor |]. split; [| constructor].
  intros x. cbn. set_solver.
Qed.

Lemma collectItem_ok (acc : Collected) (item : JSON) :
  ok acc -> ok (collectItem NumberOf numToString acc item).
Proof.
  intros Hok. pose proof Hok as (Hnd & Hseen & Hall). unfold collectItem.
  destruct (isObject item); cbn [negb]; [| exact Hok].
  destruct (decide (entryId item ∈ acc.1)) as [Hin | Hnew]; [exact Hok |].
  split; [| split]; cbn [fst snd].
  - rewrite fmap_app. apply NoDup_app. split; [exact Hnd |]. split; [| apply NoDup_singleton].
    intros x Hx Hx'. apply list_elem_of_singleton in Hx'. subst x.
    apply Hnew, Hseen, Hx.
  - intros x. rewrite fmap_app, elem_of_app, elem_of_union, elem_of_singleton, Hseen.
    cbn. rewrite list_elem_of_singleton. tauto.
  - apply Forall_app. split; [exact Hall |]. constructor; [| constructor].
    reflexivity.
Qed.

Lemma collectItem_seen (acc : Collected) (item : JSON) :
  acc.1 ⊆ (collectItem NumberOf numToString acc item).1
  /\ (isObject item = true -> entryId item ∈ (collectItem NumberOf numToString acc item).1).
Proof.
  unfold collectItem. destruct (isObject item); cbn [negb].
  - destruct (decide (entryId item ∈ acc.1)) as [Hin | Hnew]; cbn [fst]; set_solver.
  - split; [set_solver | discriminate].
Qed.

Lemma collectItems_spec (items : list JSON) :
  forall acc : Collected,
    let acc' := fold_left (collectItem NumberOf numToString) items acc in
    (ok acc -> ok acc')
    /\ acc.1 ⊆ acc'.1
    /\ (forall item, item ∈ items -> isObject item = true -> entryId item ∈ acc'.1).
Proof.
  induction items as [| item items IH]; intros acc; cbn.
  - split; [tauto |]. split; [reflexivity |]. intros item Hin. inversion Hin.
  - destruct (IH (collectItem NumberOf numToString acc item)) as (IHok & IHsub & IHin).
    destruct (collectItem_seen acc item) as (Hsub & Hnew).
    split; [intros Hok; apply IHok, collectItem_ok, Hok |].
    split; [intros x Hx; apply IHsub, Hsub, Hx |].
    intros x Hx Hobj. apply elem_of_cons in Hx as [-> | Hx].
    + apply IHsub, Hnew, Hobj.
    + apply IHin; assumption.
Qed.

Lemma pagesOf_app (a b : list Event) : pagesOf (a ++ b) = pagesOf a ++ pagesOf b.
Proof. apply omap_app. Qed.

Lemma requestLoop_pages (left : nat) :
  forall (attempt : Z) (w : W) (r : HttpRequest),
    pagesOf (requestLoop W fetch left attempt w r).1.2 = [].
Proof.
  induction left as [| left IH]; intros attempt w r.
  - reflexivity.
  - rewrite requestLoop_S. destruct (fetch w r) as [w1 o].
    destruct (attemptStep_shape attempt o) as [[payload ->] | [-> | [_ ->]]].
    + reflexivity.
    + reflexivity.
    + specialize (IH (attempt + 1)%Z w1 r).
      destruct (requestLoop W fetch left (attempt + 1)%Z w1 r) as [[w2 evs] res].
      cbn in *. exact IH.
Qed.

(** A call of [request] is one request and reads no page. *)
Lemma request_events (token : string) (w : W) (path : string) (query : Query) :
  requestsOf (request W fetch token w path query).1.2
  = [{| req_token := token; req_path := path; req_params := definedParams query |}]
  /\ pagesOf (request W fetch token w path query).1.2 = [].
Proof.
  unfold request.
  pose proof (requestLoop_requests W fetch (Z.to_nat MAX_ATTEMPTS) 1%Z w
                {| req_token := token; req_path := path; req_params := definedParams query |})
    as Hreq.
  pose proof (requestLoop_pages (Z.to_nat MAX_ATTEMPTS) 1%Z w
                {| req_token := token; req_path := path; req_params := definedParams query |})
    as Hpages.
  destruct (requestLoop W fetch (Z.to_nat MAX_ATTEMPTS) 1%Z w _) as [[w' evs] res].
  cbn in *. rewrite Hreq, Hpages. split; reflexivity.
Qed.

(** Every page request of a pass carries the assignee value of the pass. *)
Lemma assigneeOf_query (token path : string) (params : TimeEntriesParams)
    (assigneeValue : option string) (page : jsnum) (cursor : option string) :
  assigneeOf {| req_token := token; req_path := path;
                req_params := definedParams (timeEntriesQuery params assigneeValue page cursor) |}
  = QStr <$> assigneeValue.
Proof.
  unfold assigneeOf, timeEntriesQuery.
  destruct params as [team [start |] [stop |] [folder |] [lst |] ids];
    destruct assigneeValue, cursor; reflexivity.
Qed.

(** The requests of one pass: at most [budget], at least one when the
    budget is not zero, all with the assignee value of the pass. *)
Lemma scanLoop_requests (budget : nat) :
  forall (token : string) (params : TimeEntriesParams) (assigneeValue : option string)
         (page : jsnum) (cursor : option string) (w : W) (acc : Collected),
    let evs := (scanLoop W fetch NumberOf numToString budget token params assigneeValue
                  page cursor w acc).1.2 in
    length (requestsOf evs) <= budget
    /\ (0 < budget -> requestsOf evs <> [])
    /\ Forall (fun r => assigneeOf r = QStr <$> assigneeValue) (requestsOf evs).
Proof.
  induction budget as [| budget IH]; intros token params assigneeValue page cursor w acc evs.
  - subst evs. cbn. split; [lia |]. split; [lia | constructor].
  - subst evs. cbn [scanLoop].
    destruct (request_events token w ("/team/" +:+ p_teamId params +:+ "/time_entries")
                (timeEntriesQuery params assigneeValue page cursor)) as [Hreq _].
    pose proof (assigneeOf_query token ("/team/" +:+ p_teamId params +:+ "/time_entries")
                  params assigneeValue page cursor) as Hassignee.
    destruct (request W fetch token w _ _) as [[w1 evs] res]. cbn [fst snd] in Hreq.
    assert (length (requestsOf evs) <= S budget
            /\ (0 < S budget -> requestsOf evs <> [])
            /\ Forall (fun r => assigneeOf r = QStr <$> assigneeValue) (requestsOf evs))
      as Hone.
    { rewrite Hreq. cbn [length]. split; [lia |]. split; [discriminate |].
      constructor; [exact Hassignee | constructor]. }
    assert (forall page' cursor',
               let '(w2, evs', res') :=
                 scanLoop W fetch NumberOf numToString budget token params assigneeValue
                   page' cursor' w1 (collectPage NumberOf numToString acc
                                       match res with Returned p => p | Thrown _ => JNull end) in
               forall payload,
                 length (requestsOf (evs ++ EvPage payload :: evs')) <= S budget
                 /\ (0 < S budget -> requestsOf (evs ++ EvPage payload :: evs') <> [])
                 /\ Forall (fun r => assigneeOf r = QStr <$> assigneeValue)
                      (requestsOf (evs ++ EvPage payload :: evs'))) as Hmore.
    { intros page' cursor'.
      specialize (IH token params assigneeValue page' cursor' w1
                    (collectPage NumberOf numToString acc
                       match res with Returned p => p | Thrown _ => JNull end)).
      destruct (scanLoop W fetch NumberOf numToString budget token params assigneeValue
                  page' cursor' w1 _) as [[w2 evs'] res'].
      cbn [fst snd] in IH. destruct IH as (IHlen & _ & IHall).
      intros payload. rewrite requestsOf_app, Hreq.
      change (requestsOf (EvPage payload :: evs')) with (requestsOf evs').
      cbn [app length].
      split; [lia |]. split; [discriminate |].
      constructor; [exact Hassignee | exact IHall]. }
    destruct res as [payload | e]; [| exact Hone].
    destruct (isNull payload); [exact Hone |].
    destruct (nextStep page payload) as [c | page' |].
    + specialize (Hmore page (Some c)).
      destruct (scanLoop W fetch NumberOf numToString budget token params assigneeValue
                  page (Some c) w1 _) as [[w2 evs'] res'].
      apply Hmore.
    + specialize (Hmore page' cursor).
      destruct (scanLoop W fetch NumberOf numToString budget token params assigneeValue
                  page' cursor w1 _) as [[w2 evs'] res'].
      apply Hmore.
    + cbn [fst snd]. rewrite requestsOf_app.
      change (requestsOf [EvPage payload]) with (@nil HttpRequest).
      rewrite app_nil_r. exact Hone.
Qed.

(** What a pass that returns has collected: the invariant is kept, ids
    are only added, and every record of every page it read is among
    them. *)
Lemma scanLoop_collected (budget : nat) :
  forall (token : string) (params : TimeEntriesParams) (assigneeValue : option string)
         (page : jsnum) (cursor : option string) (w w' : W) (acc acc' : Collected)
         (evs : list Event),
    scanLoop W fetch NumberOf numToString budget token params assigneeValue page cursor w acc
    = (w', evs, Returned acc') ->
    (ok acc -> ok acc')
    /\ acc.1 ⊆ acc'.1
    /\ (forall payload item,
          payload ∈ pagesOf evs -> item ∈ rawEntriesOf payload -> isObject item = true ->
          entryId item ∈ acc'.1).
Proof.
  induction budget as [| budget IH];
    intros token params assigneeValue page cursor w w' acc acc' evs.
  - cbn. intros [= <- <- <-]. split; [tauto |]. split; [reflexivity |].
    intros payload item Hin. inversion Hin.
  - cbn [scanLoop].
    destruct (request_events token w ("/team/" +:+ p_teamId params +:+ "/time_entries")
                (timeEntriesQuery params assigneeValue page cursor)) as [_ Hpages].
    destruct (request W fetch token w _ _) as [[w1 evs0] res]. cbn [fst snd] in Hpages.
    destruct res as [payload | e]; [| discriminate].
    destruct (isNull payload); [discriminate |].
    destruct (collectItems_spec (rawEntriesOf payload) acc) as (Hok & Hsub & Hcover).
    fold (collectPage NumberOf numToString acc payload) in Hok, Hsub, Hcover.
    assert (forall page' cursor' w2 evs' res',
               scanLoop W fetch NumberOf numToString budget token params assigneeValue
                 page' cursor' w1 (collectPage NumberOf numToString acc payload)
               = (w2, evs', res') ->
               (w2, evs0 ++ EvPage payload :: evs', res') = (w', evs, Returned acc') ->
               (ok acc -> ok acc')
               /\ acc.1 ⊆ acc'.1
               /\ (forall payload0 item,
                     payload0 ∈ pagesOf evs -> item ∈ rawEntriesOf payload0 ->
                     isObject item = true -> entryId item ∈ acc'.1)) as Hmore.
    { intros page' cursor' w2 evs' res' Hrec [= -> <- ->].
      destruct (IH _ _ _ _ _ _ _ _ _ _ Hrec) as (IHok & IHsub & IHcover).
      split; [intros Hacc; apply IHok, Hok, Hacc |].
      split; [intros x Hx; apply IHsub, Hsub, Hx |].
      intros payload0 item. rewrite pagesOf_app, Hpages.
      change (pagesOf (EvPage payload :: evs')) with (payload :: pagesOf evs').
      cbn [app]. intros Hin Hitem Hobj.
      apply elem_of_cons in Hin as [-> | Hin].
      - apply IHsub, Hcover; assumption.
      - apply (IHcover payload0 item); assumption. }
    destruct (nextStep page payload) as [c | page' |].
    + destruct (scanLoop W fetch NumberOf numToString budget token params assigneeValue
                  page (Some c) w1 _) as [[w2 evs'] res'] eqn:Hrec.
      apply (Hmore _ _ _ _ _ Hrec).
    + destruct (scanLoop W fetch NumberOf numToString budget token params assigneeValue
                  page' cursor w1 _) as [[w2 evs'] res'] eqn:Hrec.
      apply (Hmore _ _ _ _ _ Hrec).
    + intros [= <- <- <-].
      split; [exact Hok |]. split; [exact Hsub |].
      intros payload0 item. rewrite pagesOf_app, Hpages.
      change (pagesOf [EvPage payload]) with [payload]. cbn [app].
      intros Hin. apply list_elem_of_singleton in Hin as ->. apply Hcover.
Qed.

(** The passes of [getTimeEntries], when it returns. *)
Lemma scanAll_spec (token : string) (params : TimeEntriesParams) (values : list string) :
  forall (w w' : W) (acc acc' : Collected) (evs : list Event),
    scanAll W fetch NumberOf numToString token params values w acc = (w', evs, Returned acc') ->
    (ok acc -> ok acc')
    /\ acc.1 ⊆ acc'.1
    /\ (forall payload item,
          payload ∈ pagesOf evs -> item ∈ rawEntriesOf payload -> isObject item = true ->
          entryId item ∈ acc'.1)
    /\ scannedInPasses (requestsOf evs) (assigneeValueOf <$> values).
Proof.
  induction values as [| value values IH]; intros w w' acc acc' evs.
  - cbn. intros [= <- <- <-]. split; [tauto |]. split; [reflexivity |].
    split; [intros payload item Hin; inversion Hin |].
    exists []. split; [reflexivity | constructor].
  - cbn [scanAll].
    pose proof (scanLoop_requests 200 token params (assigneeValueOf value) (Fin 0) None w acc)
      as Hreqs.
    destruct (scanLoop W fetch NumberOf numToString 200 token params (assigneeValueOf value)
                (Fin 0) None w acc) as [[w1 evs0] res] eqn:Hscan.
    cbn [fst snd] in Hreqs. destruct Hreqs as (_ & Hnonempty & Hassignee).
    destruct res as [acc1 | e]; [| discriminate].
    destruct (scanAll W fetch NumberOf numToString token params values w1 acc1)
      as [[w2 evs'] res'] eqn:Hrest.
    intros [= <- <- ->].
    destruct (scanLoop_collected _ _ _ _ _ _ _ _ _ _ _ Hscan) as (Hok & Hsub & Hcover).
    destruct (IH _ _ _ _ _ Hrest) as (IHok & IHsub & IHcover & passes & Hconcat & Hpasses).
    split; [intros Hacc; apply IHok, Hok, Hacc |].
    split; [intros x Hx; apply IHsub, Hsub, Hx |].
    split.
    + intros payload item. rewrite pagesOf_app, elem_of_app.
      intros [Hin | Hin] Hitem Hobj.
      * apply IHsub. apply (Hcover payload item); assumption.
      * apply (IHcover payload item); assumption.
    + exists (requestsOf evs0 :: passes). split.
      * rewrite requestsOf_app, Hconcat. reflexivity.
      * rewrite fmap_cons. constructor; [| exact Hpasses].
        split; [apply Hnonempty; lia | exact Hassignee].
Qed.

Lemma assigneeValueOf_plain (value : string) :
  value <> ASSIGNEE_QUERY_UNASSIGNED -> value <> ASSIGNEE_QUERY_NONE ->
  assigneeValueOf value = Some value.
Proof.
  intros H1 H2. unfold assigneeValueOf.
  apply String.eqb_neq in H1, H2. rewrite H1, H2. reflexivity.
Qed.

Lemma expectedScans_spec (assigneeIds : option (list string)) :
  noMarker (uniqIds assigneeIds) ->
  assigneeValueOf <$> buildAssigneeQueryValues assigneeIds
  = expectedScans (uniqIds assigneeIds).
Proof.
  unfold buildAssigneeQueryValues. fold (uniqIds assigneeIds).
  destruct (uniqIds assigneeIds) as [| id_ ids] eqn:Hids; [reflexivity |].
  intros Hplain. cbn [length Nat.eqb expectedScans]. rewrite fmap_app. f_equal.
  clear Hids. induction Hplain as [| x xs [H1 H2] _ IH]; [reflexivity |].
  rewrite !fmap_cons, IH, assigneeValueOf_plain by assumption. reflexivity.
Qed.

Lemma occurrences_absent (id_ : string) (entries : list TimeEntry.t) :
  id_ ∉ TimeEntry.id <$> entries -> occurrences id_ entries = 0.
Proof.
  unfold occurrences. induction entries as [| e entries IH]; [reflexivity |].
  rewrite fmap_cons, not_elem_of_cons. intros [Hne Hnotin]. cbn [List.filter].
  destruct (String.eqb_spec (TimeEntry.id e) id_) as [Heq | _]; [congruence |].
  apply IH, Hnotin.
Qed.

Lemma occurrences_once (id_ : string) (entries : list TimeEntry.t) :
  NoDup (TimeEntry.id <$> entries) -> id_ ∈ TimeEntry.id <$> entries ->
  occurrences id_ entries = 1.
Proof.
  induction entries as [| e entries IH]; [intros _ Hin; inversion Hin |].
  rewrite fmap_cons, NoDup_cons, elem_of_cons. intros [Hfresh Hnd] Hin.
  unfold occurrences. cbn [List.filter].
  destruct (String.eqb_spec (TimeEntry.id e) id_) as [Heq | Hne].
  - subst id_. cbn [length]. f_equal. apply occurrences_absent, Hfresh.
  - destruct Hin as [-> | Hin]; [congruence |]. apply IH; assumption.
Qed.

(** C1, amended.  For a call of [getTimeEntries] that returns:
    - when no id of the filter, once trimmed, is one of the two strings
      the client reserves as markers, the requests are made in
      consecutive passes, one per distinct non-blank trimmed id of the
      filter, then one with assignee 0, then one without assignee; and in
      a single pass without assignee when the filter is absent or has no
      non-blank id;
    - the ids of the returned entries are pairwise distinct;
    - the id of an entry is the [id] of its raw record when that is a
      string, and the key derived from it otherwise, which is the same for
      two records with the same task id, user id, start, end and duration;
    - every record of every page read in any pass is filed under its
      identity exactly once. *)
Theorem C1_passes_and_dedup (token : string) (w w' : W) (params : TimeEntriesParams)
    (evs : list Event) (entries : list TimeEntry.t) :
  getTimeEntries W fetch NumberOf numToString token w params = (w', evs, Returned entries) ->
  (noMarker (uniqIds (p_assigneeIds params)) ->
   scannedInPasses (requestsOf evs) (expectedScans (uniqIds (p_assigneeIds params))))
  /\ NoDup (TimeEntry.id <$> entries)
  /\ (forall e, e ∈ entries ->
        TimeEntry.id e =
        match prop "id" (TimeEntry.raw e) with
        | Some (JStr s) => s
        | _ => getStableFallbackEntryId NumberOf numToString (TimeEntry.raw e)
        end)
  /\ (forall raw1 raw2,
        extractTaskId raw1 = extractTaskId raw2 ->
        userIdOf numToString raw1 = userIdOf numToString raw2 ->
        parseOptionalMs NumberOf (prop "start" raw1) = parseOptionalMs NumberOf (prop "start" raw2) ->
        parseOptionalMs NumberOf (prop "end" raw1) = parseOptionalMs NumberOf (prop "end" raw2) ->
        parseDurationMs NumberOf (prop "duration" raw1)
        = parseDurationMs NumberOf (prop "duration" raw2) ->
        getStableFallbackEntryId NumberOf numToString raw1
        = getStableFallbackEntryId NumberOf numToString raw2)
  /\ (forall payload item,
        payload ∈ pagesOf evs -> item ∈ rawEntriesOf payload -> isObject item = true ->
        occurrences (entryId item) entries = 1).
Proof.
  unfold getTimeEntries.
  destruct (scanAll W fetch NumberOf numToString token params
              (buildAssigneeQueryValues (p_assigneeIds params)) w (∅, []))
    as [[w1 evs1] res] eqn:Hscan.
  destruct res as [acc |]; [| discriminate].
  intros [= <- <- <-].
  destruct (scanAll_spec _ _ _ _ _ _ _ _ Hscan) as (Hok & _ & Hcover & Hpasses).
  destruct (Hok collected_ok_empty) as (Hnd & Hseen & Hall).
  split; [| split; [| split; [| split]]].
  - intros Hplain. rewrite <- expectedScans_spec by exact Hplain. exact Hpasses.
  - exact Hnd.
  - intros e He. rewrite Forall_forall in Hall. rewrite (Hall e He) at 1. reflexivity.
  - intros raw1 raw2 Htask Huser Hstart Hend Hduration.
    unfold getStableFallbackEntryId. rewrite Htask, Huser, Hstart, Hend, Hduration.
    reflexivity.
  - intros payload item Hpage Hitem Hobj.
    apply occurrences_once; [exact Hnd |].
    apply Hseen, (Hcover payload item); assumption.
Qed.

Lemma scanAll_requests (token : string) (params : TimeEntriesParams) (values : list string) :
  forall (w : W) (acc : Collected),
    length (requestsOf (scanAll W fetch NumberOf numToString token params values w acc).1.2)
    <= 200 * length values.
Proof.
  induction values as [| value values IH]; intros w acc.
  - cbn. lia.
  - cbn [scanAll].
    pose proof (scanLoop_requests 200 token params (assigneeValueOf value) (Fin 0) None w acc)
      as (Hlen & _).
    destruct (scanLoop W fetch NumberOf numToString 200 token params (assigneeValueOf value)
                (Fin 0) None w acc) as [[w1 evs0] res].
    cbn [fst snd] in Hlen. cbn [length].
    destruct res as [acc1 | e]; [| cbn [fst snd]; lia].
    specialize (IH w1 acc1).
    destruct (scanAll W fetch NumberOf numToString token params values w1 acc1)
      as [[w2 evs'] res'].
    cbn [fst snd] in *. rewrite requestsOf_app, length_app. lia.
Qed.

Lemma nextStep_no_cursor (page : jsnum) (payload : JSON) :
  suppliesCursor payload = false ->
  nextStep page payload =
  match prop "next_page" payload with
  | Some (JNum nextPage) => if num_le nextPage page then Exhausted else GoToPage nextPage
  | _ =>
      match prop "last_page" payload with
      | Some (JNum lastPage) =>
          if num_lt page lastPage then GoToPage (num_succ page) else Exhausted
      | _ => Exhausted
      end
  end.
Proof.
  unfold suppliesCursor, nextStep.
  destruct (prop "next_cursor" payload) as [[| | | [| c rest] | |] |];
    try reflexivity.
  discriminate.
Qed.

(** C7.  A pass of [getTimeEntries] makes at most 200 page requests,
    whatever the responses say, and a call makes at most 200 per pass.
    When a response has no cursor and a numeric [next_page] that is not
    above the current page, the pass ends with that response: nothing
    more is requested.  When a response has no cursor and no numeric
    [next_page], what follows is decided by a numeric [last_page]: the
    next page if the current one is below it, the end of the pass if it
    is not or if there is none. *)
Theorem C7_scan_terminates :
  (forall (token : string) (params : TimeEntriesParams) (assigneeValue : option string)
          (w : W) (acc : Collected),
      length (requestsOf (scanLoop W fetch NumberOf numToString 200 token params assigneeValue
                            (Fin 0) None w acc).1.2) <= 200)
  /\ (forall (token : string) (w : W) (params : TimeEntriesParams),
        length (requestsOf (getTimeEntries W fetch NumberOf numToString token w params).1.2)
        <= 200 * length (buildAssigneeQueryValues (p_assigneeIds params)))
  /\ (forall (budget : nat) (token : string) (params : TimeEntriesParams)
             (assigneeValue : option string) (page nextPage : jsnum) (cursor : option string)
             (w w1 : W) (acc : Collected) (evs : list Event) (payload : JSON),
        request W fetch token w ("/team/" +:+ p_teamId params +:+ "/time_entries")
          (timeEntriesQuery params assigneeValue page cursor) = (w1, evs, Returned payload) ->
        suppliesCursor payload = false ->
        prop "next_page" payload = Some (JNum nextPage) ->
        num_lt page nextPage = false ->
        scanLoop W fetch NumberOf numToString (S budget) token params assigneeValue page cursor
          w acc
        = (w1, evs ++ [EvPage payload], Returned (collectPage NumberOf numToString acc payload))
        /\ length (requestsOf (evs ++ [EvPage payload])) = 1)
  /\ (forall (page : jsnum) (payload : JSON),
        suppliesCursor payload = false ->
        (forall nextPage, prop "next_page" payload <> Some (JNum nextPage)) ->
        nextStep page payload =
        match prop "last_page" payload with
        | Some (JNum lastPage) =>
            if num_lt page lastPage then GoToPage (num_succ page) else Exhausted
        | _ => Exhausted
        end).
Proof.
  split; [| split; [| split]].
  - intros token params assigneeValue w acc.
    apply (scanLoop_requests 200 token params assigneeValue (Fin 0) None w acc).
  - intros token w params. unfold getTimeEntries.
    pose proof (scanAll_requests token params (buildAssigneeQueryValues (p_assigneeIds params))
                  w (∅, [])) as Hlen.
    destruct (scanAll W fetch NumberOf numToString token params _ w (∅, []))
      as [[w1 evs] res].
    exact Hlen.
  - intros budget token params assigneeValue page nextPage cursor w w1 acc evs payload
      Hrequest Hcursor Hnext Hle.
    pose proof (request_events token w ("/team/" +:+ p_teamId params +:+ "/time_entries")
                  (timeEntriesQuery params assigneeValue page cursor)) as [Hreq _].
    cbn [scanLoop]. rewrite Hrequest in *. cbn [fst snd] in Hreq.
    assert (isNull payload = false) as -> by (destruct payload; [discriminate Hnext | ..]; reflexivity).
    rewrite (nextStep_no_cursor page payload Hcursor), Hnext.
    unfold num_lt in Hle. apply negb_false_iff in Hle. rewrite Hle.
    split; [reflexivity |].
    rewrite requestsOf_app, Hreq. reflexivity.
  - intros page payload Hcursor Hnone.
    rewrite (nextStep_no_cursor page payload Hcursor).
    destruct (prop "next_page" payload) as [[| | nextPage | | |] |]; try reflexivity.
    exfalso. exact (Hnone nextPage eq_refl).
Qed.

(** C10.  Every entry that [getTimeEntries] returns has a duration that
    is not negative: it is [parseDurationMs] of the [duration] of its raw
    record.  [parseDurationMs] gives the absolute value of a finite
    number, and of a string that [Number] reads as a finite number; it
    gives 0 for a missing duration, for a string that [Number] does not
    read as a finite number, and for every other value. *)
Theorem C10_duration_nonnegative :
  (forall (token : string) (w w' : W) (params : TimeEntriesParams) (evs : list Event)
          (entries : list TimeEntry.t),
      getTimeEntries W fetch NumberOf numToString token w params = (w', evs, Returned entries) ->
      Forall
        (fun e =>
           (0 <= TimeEntry.durationMs e)%Q
           /\ TimeEntry.durationMs e
              = parseDurationMs NumberOf (prop "duration" (TimeEntry.raw e)))
        entries)
  /\ (forall d : Q, parseDurationMs NumberOf (Some (JNum (Fin d))) = Qabs d)
  /\ (forall (s : string) (d : Q),
        NumberOf s = Some d -> parseDurationMs NumberOf (Some (JStr s)) = Qabs d)
  /\ (forall d : Q, (d < 0)%Q -> (parseDurationMs NumberOf (Some (JNum (Fin d))) == - d)%Q)
  /\ parseDurationMs NumberOf None = 0%Q
  /\ (forall s : string,
        NumberOf s = None -> parseDurationMs NumberOf (Some (JStr s)) = 0%Q)
  /\ (forall v : JSON,
        (forall d, v <> JNum (Fin d)) -> (forall s, v <> JStr s) ->
        parseDurationMs NumberOf (Some v) = 0%Q).
Proof.
  split; [| repeat split].
  - intros token w w' params evs entries. unfold getTimeEntries.
    destruct (scanAll W fetch NumberOf numToString token params
                (buildAssigneeQueryValues (p_assigneeIds params)) w (∅, []))
      as [[w1 evs1] res] eqn:Hscan.
    destruct res as [acc |]; [| discriminate].
    intros [= <- <- <-].
    destruct (scanAll_spec _ _ _ _ _ _ _ _ Hscan) as (Hok & _).
    destruct (Hok collected_ok_empty) as (_ & _ & Hall).
    eapply Forall_impl; [exact Hall |].
    intros e He. cbn beta in He.
    assert (TimeEntry.durationMs e
            = parseDurationMs NumberOf (prop "duration" (TimeEntry.raw e))) as ->
        by (rewrite He at 1; reflexivity).
    split; [apply parseDurationMs_nonneg | reflexivity].
  - intros s d Hs. cbn. rewrite Hs. reflexivity.
  - intros d Hd. cbn. apply Qabs_neg. apply Qlt_le_weak, Hd.
  - intros s Hs. cbn. rewrite Hs. reflexivity.
  - intros v Hnum Hstr.
    destruct v as [| b | [d | |] | s | items | fields]; try reflexivity.
    + exfalso. exact (Hnum d eq_refl).
    + exfalso. exact (Hstr s eq_refl).
Qed.

End TimeEntriesFacts.

(** ** Properties of the aggregator *)

Lemma uniqIds_nil_iff (ids : option (list string)) :
  uniqIds ids = [] <-> Forall (fun id_ => trim id_ = "") (default [] ids).
Proof.
  unfold uniqIds, spreadSet. generalize (default [] ids) as l. clear ids.
  induction l as [| x l IH]; [split; [constructor | reflexivity] |].
  cbn [List.map List.filter].
  destruct (trim x) as [| c rest] eqn:Htrim; cbn [nonEmpty].
  - rewrite IH. split; [intros H; constructor; [exact Htrim | exact H] |].
    intros H. inversion H; assumption.
  - cbn [setOrder]. destruct (decide (String c rest ∈ (∅ : gset string))) as [Hin | _].
    + exfalso. revert Hin. apply not_elem_of_empty.
    + split; [discriminate |]. intros H. inversion H; congruence.
Qed.

Lemma keepEntry_without_task (alert : AlertConfig.t) (entry : TimeEntry.t) :
  TimeEntry.taskId entry = None ->
  keepEntry alert entry = true <-> uniqIds (AlertConfig.includeOnlyTaskIds alert) = [].
Proof.
  intros Hnone. unfold keepEntry, lacksTaskId. rewrite Hnone.
  destruct (uniqIds (AlertConfig.includeOnlyTaskIds alert)); cbn; split;
    (reflexivity || discriminate).
Qed.

(** C9, amended.  An entry without task id survives [applyEntryFilters]
    exactly when the include-only set of the alert is empty, where that set
    holds the ids of [includeOnlyTaskIds] trimmed and without the blank
    ones: the entry is dropped whenever [includeOnlyTaskIds] has an id that
    is not blank, and kept when it is absent, empty or has only blank ids.
    [excludedTaskIds] plays no part: two alerts with the same
    [includeOnlyTaskIds] treat the entry alike. *)
Theorem C9_entry_without_task (alert : AlertConfig.t) (entries : list TimeEntry.t)
    (entry : TimeEntry.t) :
  TimeEntry.taskId entry = None ->
  (entry ∈ applyEntryFilters alert entries
   <-> entry ∈ entries /\ uniqIds (AlertConfig.includeOnlyTaskIds alert) = [])
  /\ (entry ∈ applyEntryFilters alert entries
      <-> entry ∈ entries
          /\ Forall (fun id_ => trim id_ = "") (default [] (AlertConfig.includeOnlyTaskIds alert)))
  /\ (forall other : AlertConfig.t,
        AlertConfig.includeOnlyTaskIds other = AlertConfig.includeOnlyTaskIds alert ->
        keepEntry other entry = keepEntry alert entry).
Proof.
  intros Hnone.
  assert (entry ∈ applyEntryFilters alert entries
          <-> entry ∈ entries /\ uniqIds (AlertConfig.includeOnlyTaskIds alert) = []) as Hiff.
  { unfold applyEntryFilters. rewrite !list_elem_of_In, filter_In.
    rewrite (keepEntry_without_task alert entry Hnone). reflexivity. }
  split; [exact Hiff |]. split.
  - rewrite Hiff, uniqIds_nil_iff. reflexivity.
  - intros other Hsame. unfold keepEntry, lacksTaskId. rewrite Hnone, Hsame. reflexivity.
Qed.

(** C6, amended.  The snapshot of [buildErrorSnapshot] has status [error]
    and the message given.  Its [budgetHours] is the budget of the alert.
    With a previous snapshot, [hoursUsed], [remainingHours], [overByHours],
    [percentUsed], [entryCount] and [scopeSummary] are those of the previous
    snapshot.  Without one, [remainingHours] is the budget of the alert,
    the other four numeric fields are 0, and [scopeSummary] is computed
    from the alert. *)
Theorem C6_error_snapshot (now : string) (alert : AlertConfig.t) (errorMessage : string) :
  let snapshot := buildErrorSnapshot now alert errorMessage in
  AlertSnapshot.status snapshot = StatusError
  /\ AlertSnapshot.errorMessage snapshot = Some errorMessage
  /\ AlertSnapshot.budgetHours snapshot = AlertConfig.budgetHours alert
  /\ (forall last : AlertSnapshot.t,
        AlertConfig.lastSnapshot alert = Some last ->
        AlertSnapshot.hoursUsed snapshot = AlertSnapshot.hoursUsed last
        /\ AlertSnapshot.remainingHours snapshot = AlertSnapshot.remainingHours last
        /\ AlertSnapshot.overByHours snapshot = AlertSnapshot.overByHours last
        /\ AlertSnapshot.percentUsed snapshot = AlertSnapshot.percentUsed last
        /\ AlertSnapshot.entryCount snapshot = AlertSnapshot.entryCount last
        /\ AlertSnapshot.scopeSummary snapshot = AlertSnapshot.scopeSummary last)
  /\ (AlertConfig.lastSnapshot alert = None ->
      AlertSnapshot.hoursUsed snapshot = 0%Q
      /\ AlertSnapshot.remainingHours snapshot = AlertConfig.budgetHours alert
      /\ AlertSnapshot.overByHours snapshot = 0%Q
      /\ AlertSnapshot.percentUsed snapshot = 0%Q
      /\ AlertSnapshot.entryCount snapshot = 0%Q
      /\ AlertSnapshot.scopeSummary snapshot = resolveScopeSummary alert).
Proof.
  cbn. split; [reflexivity |]. split; [reflexivity |]. split; [reflexivity |]. split.
  - intros last ->. cbn. repeat split.
  - intros ->. cbn. repeat split.
Qed.

#[global] Instance Math_round_proper : Proper (Qeq ==> Qeq) Math_round.
Proof.
  intros x y Hxy. unfold Math_round. rewrite Hxy. reflexivity.
Qed.

#[global] Instance roundHours_proper : Proper (Qeq ==> Qeq) roundHours.
Proof.
  intros x y Hxy. unfold roundHours. rewrite Hxy. reflexivity.
Qed.

#[global] Instance Math_max_proper : Proper (Qeq ==> Qeq ==> Qeq) Math_max.
Proof.
  intros a a' Ha b b' Hb. unfold Math_max. rewrite Ha, Hb.
  destruct (Qle_bool a' b'); assumption.
Qed.

Lemma Qle_bool_false (a b : Q) : Qle_bool a b = false <-> (b < a)%Q.
Proof.
  split.
  - intros H. apply Qnot_le_lt. intros Hle. apply Qle_bool_iff in Hle. congruence.
  - intros H. destruct (Qle_bool a b) eqn:E; [| reflexivity].
    apply Qle_bool_iff in E. exfalso. exact (Qlt_not_le _ _ H E).
Qed.


(** ** Rounding to binary64 *)

Lemma pow2_pos (e : Z) : (0 < 2 ^ e)%Q.
Proof. apply Qpower_0_lt. reflexivity. Qed.

Lemma exponentOf_le (x : Q) : (0 < x)%Q -> (2 ^ Double.exponentOf x <= x)%Q.
Proof.
  intros Hx. unfold Double.exponentOf.
  destruct (Qle_bool _ x) eqn:Htest; [apply Qle_bool_iff; exact Htest |].
  clear Htest. destruct x as [a b]. cbn [Qnum Qden].
  assert (0 < a)%Z as Ha by (unfold Qlt in Hx; cbn in Hx; lia).
  pose proof (Z.log2_spec a Ha) as [Hlow _].
  pose proof (Z.log2_spec (Zpos b) (Pos2Z.is_pos b)) as [_ Hhigh].
  pose proof (Z.log2_nonneg a) as Hla. pose proof (Z.log2_nonneg (Zpos b)) as Hlb.
  set (la := Z.log2 a) in *. set (lb := Z.log2 (Zpos b)) in *.
  replace (la - lb - 1)%Z with (la - Z.succ lb)%Z by lia.
  rewrite Qpower_minus by discriminate.
  change 2%Q with (inject_Z 2).
  rewrite <- !Zpower_Qpower by lia.
  assert (0 < 2 ^ Z.succ lb)%Z as Hpos by (apply Z.pow_pos_nonneg; lia).
  apply Qle_shift_div_r.
  - rewrite <- (Zlt_Qlt 0). exact Hpos.
  - unfold Qle, Qmult, inject_Z. cbn [Qnum Qden]. nia.
Qed.

Lemma roundHalfEven_error (m : Q) :
  (- (1 # 2) <= inject_Z (Double.roundHalfEven m) - m)%Q
  /\ (inject_Z (Double.roundHalfEven m) - m <= 1 # 2)%Q.
Proof.
  pose proof (Qfloor_le m) as Hlow. pose proof (Qlt_floor m) as Hhigh.
  rewrite inject_Z_plus in Hhigh. change (inject_Z 1) with 1%Q in Hhigh.
  unfold Double.roundHalfEven, Qlt_bool.
  destruct (Qle_bool (1 # 2) (m - inject_Z (Qfloor m))) eqn:Hbelow; cbn [negb].
  - apply Qle_bool_iff in Hbelow.
    destruct (Qle_bool (m - inject_Z (Qfloor m)) (1 # 2)) eqn:Habove; cbn [negb].
    + apply Qle_bool_iff in Habove.
      destruct (Z.even (Qfloor m)); rewrite ?inject_Z_plus;
        change (inject_Z 1) with 1%Q; lra.
    + apply Qle_bool_false in Habove. rewrite inject_Z_plus.
      change (inject_Z 1) with 1%Q. lra.
  - apply Qle_bool_false in Hbelow. lra.
Qed.

Lemma roundHalfEven_nonneg (m : Q) : (0 <= m)%Q -> (0 <= Double.roundHalfEven m)%Z.
Proof.
  intros Hm.
  assert (0 <= Qfloor m)%Z as Hfloor.
  { change 0%Z with (Qfloor 0). apply Qfloor_resp_le. exact Hm. }
  unfold Double.roundHalfEven.
  destruct (Qlt_bool _ _); [exact Hfloor |].
  destruct (Qlt_bool _ _); [lia |]. destruct (Z.even _); lia.
Qed.

(** The rounding of a number that is not negative: it is not negative, and
    its distance to the number is at most [2 ^ -53] of the number, or half
    the least subnormal number. *)
Lemma nearest_error (x : Q) :
  (0 <= x)%Q ->
  (0 <= Double.nearest x)%Q
  /\ (Double.nearest x - x <= unitRoundoff * x + halfLeast)%Q
  /\ (x - Double.nearest x <= unitRoundoff * x + halfLeast)%Q.
Proof.
  intros Hx. pose proof (pow2_pos (-1075)) as Hleast. fold halfLeast in Hleast.
  unfold Double.nearest. destruct (Qeq_bool x 0) eqn:Hzero.
  - apply Qeq_bool_iff in Hzero. unfold unitRoundoff. lra.
  - assert (0 < x)%Q as Hpos.
    { destruct (Qlt_le_dec 0 x) as [Hlt | Hle]; [exact Hlt |].
      assert (x == 0)%Q as Heq by lra. apply Qeq_bool_iff in Heq. congruence. }
    assert (Qlt_bool x 0 = false) as ->.
    { unfold Qlt_bool. apply negb_false_iff, Qle_bool_iff. exact Hx. }
    assert (Qabs x = x) as ->.
    { destruct x as [[| p | p] b]; try reflexivity.
      unfold Qlt in Hpos. cbn in Hpos. lia. }
    set (e := Z.max (Double.exponentOf x) (-1022)).
    set (ulp := (2 ^ (e - 52))%Q).
    assert (0 < ulp)%Q as Hulp by apply pow2_pos.
    assert (ulp * (1 # 2) <= unitRoundoff * x + halfLeast)%Q as Hhalf.
    { subst ulp e. destruct (Z.max_spec (Double.exponentOf x) (-1022)) as [[_ ->] | [Hge ->]].
      - change (2 ^ (-1022 - 52) * (1 # 2) <= unitRoundoff * x + halfLeast)%Q.
        assert (2 ^ (-1022 - 52) * (1 # 2) == halfLeast)%Q as -> by (vm_compute; reflexivity).
        unfold unitRoundoff. lra.
      - pose proof (exponentOf_le x Hpos) as Hexp.
        unfold Zminus. rewrite Qpower_plus by discriminate.
        assert (2 ^ (- (52)) * (1 # 2) == unitRoundoff)%Q as Hu by (vm_compute; reflexivity).
        rewrite <- Qmult_assoc, Hu.
        set (p := (2 ^ Double.exponentOf x)%Q) in *.
        unfold unitRoundoff in *. lra. }
    pose proof (roundHalfEven_error (x / ulp)) as [Hlow Hhigh].
    pose proof (roundHalfEven_nonneg (x / ulp)) as Hn.
    set (n := inject_Z (Double.roundHalfEven (x / ulp))) in *.
    assert (0 <= n)%Q as Hnonneg.
    { subst n. rewrite <- (Zle_Qle 0). apply Hn. apply Qle_shift_div_l; lra. }
    assert (n * ulp - x == (n - x / ulp) * ulp)%Q as Hdiff by (field; lra).
    assert ((n - x / ulp) * ulp <= (1 # 2) * ulp)%Q as Hup.
    { apply Qmult_le_compat_r; lra. }
    assert (- (1 # 2) * ulp <= (n - x / ulp) * ulp)%Q as Hdown.
    { apply Qmult_le_compat_r; lra. }
    split; [apply Qmult_le_0_compat; lra |].
    set (d := ((n - x / ulp) * ulp)%Q) in *. set (y := (n * ulp)%Q) in *.
    split; lra.
Qed.






Lemma Qfloor_pin (x : Q) (k : Z) :
  (inject_Z k <= x)%Q -> (x < inject_Z k + 1)%Q -> Qfloor x = k.
Proof.
  intros Hlow Hhigh.
  pose proof (Qfloor_le x) as Hfloor. pose proof (Qlt_floor x) as Hnext.
  assert (inject_Z (Qfloor x) < inject_Z (k + 1))%Q as Hup.
  { rewrite inject_Z_plus. change (inject_Z 1) with 1%Q. lra. }
  assert (inject_Z k < inject_Z (Qfloor x + 1))%Q as Hdown by lra.
  rewrite <- Zlt_Qlt in Hup, Hdown. lia.
Qed.





Lemma exponentOf_lt (x : Q) : (0 < x)%Q -> (x < 2 ^ (Double.exponentOf x + 1))%Q.
Proof.
  intros Hx. unfold Double.exponentOf.
  destruct (Qle_bool _ x) eqn:Htest.
  - clear Htest. destruct x as [a b]. cbn [Qnum Qden].
    assert (0 < a)%Z as Ha by (unfold Qlt in Hx; cbn in Hx; lia).
    pose proof (Z.log2_spec a Ha) as [_ Hhigh].
    pose proof (Z.log2_spec (Zpos b) (Pos2Z.is_pos b)) as [Hlow _].
    pose proof (Z.log2_nonneg a) as Hla. pose proof (Z.log2_nonneg (Zpos b)) as Hlb.
    set (la := Z.log2 a) in *. set (lb := Z.log2 (Zpos b)) in *.
    replace (la - lb + 1)%Z with (Z.succ la - lb)%Z by lia.
    rewrite Qpower_minus by discriminate.
    change 2%Q with (inject_Z 2).
    rewrite <- !Zpower_Qpower by lia.
    assert (0 < 2 ^ lb)%Z as Hpos by (apply Z.pow_pos_nonneg; lia).
    apply Qlt_shift_div_l.
    + rewrite <- (Zlt_Qlt 0). exact Hpos.
    + unfold Qlt, Qmult, inject_Z. cbn [Qnum Qden]. nia.
  - apply Qle_bool_false in Htest.
    replace (Z.log2 (Qnum x) - Z.log2 (Zpos (Qden x)) - 1 + 1)%Z
      with (Z.log2 (Qnum x) - Z.log2 (Zpos (Qden x)))%Z by lia.
    exact Htest.
Qed.

(** The exponent of a positive number is that of its value, whatever
    fraction gives it. *)
Lemma exponentOf_unique (x : Q) (e : Z) :
  (2 ^ e <= x)%Q -> (x < 2 ^ (e + 1))%Q -> Double.exponentOf x = e.
Proof.
  intros Hlow Hhigh.
  assert (0 < x)%Q as Hx by (pose proof (pow2_pos e); lra).
  pose proof (exponentOf_le x Hx) as Hlow'. pose proof (exponentOf_lt x Hx) as Hhigh'.
  set (e' := Double.exponentOf x) in *.
  assert (1 <= 2)%Q as Hbase by discriminate.
  destruct (Z.lt_trichotomy e' e) as [Hlt | [Heq | Hgt]]; [| exact Heq |]; exfalso.
  - pose proof (Qpower_le_compat_l 2 (e' + 1) e ltac:(lia) Hbase). lra.
  - pose proof (Qpower_le_compat_l 2 (e + 1) e' ltac:(lia) Hbase). lra.
Qed.

Lemma roundHalfEven_value (m m' : Q) :
  (m == m')%Q -> Double.roundHalfEven m = Double.roundHalfEven m'.
Proof.
  intros Heq. unfold Double.roundHalfEven, Qlt_bool.
  rewrite (Qfloor_comp _ _ Heq).
  assert (m - inject_Z (Qfloor m') == m' - inject_Z (Qfloor m'))%Q as Hrest
      by (rewrite Heq; reflexivity).
  rewrite !Hrest. reflexivity.
Qed.

(** The rounding is a function of the value of the fraction. *)
Lemma nearest_value (x x' : Q) : (x == x')%Q -> Double.nearest x = Double.nearest x'.
Proof.
  intros Heq. unfold Double.nearest.
  assert (Qeq_bool x 0 = Qeq_bool x' 0) as Hzero.
  { destruct (Qeq_bool x' 0) eqn:Hx'.
    - apply Qeq_bool_iff. apply Qeq_bool_iff in Hx'. rewrite Heq. exact Hx'.
    - destruct (Qeq_bool x 0) eqn:Hx; [| reflexivity].
      apply Qeq_bool_iff in Hx. rewrite Heq in Hx. apply Qeq_bool_iff in Hx. congruence. }
  rewrite Hzero. destruct (Qeq_bool x' 0) eqn:Hx'; [reflexivity |].
  assert (0 < Qabs x')%Q as Hpos.
  { destruct x' as [[| p | p] d]; [cbn in Hx'; discriminate Hx' | reflexivity | reflexivity]. }
  assert (Qabs x == Qabs x')%Q as Habs by (rewrite Heq; reflexivity).
  assert (Double.exponentOf (Qabs x) = Double.exponentOf (Qabs x')) as Hexp.
  { apply exponentOf_unique; rewrite Habs; [apply exponentOf_le | apply exponentOf_lt]; exact Hpos. }
  rewrite Hexp.
  set (ulp := (2 ^ (Z.max (Double.exponentOf (Qabs x')) (-1022) - 52))%Q).
  assert (Qabs x / ulp == Qabs x' / ulp)%Q as Hscaled by (rewrite Habs; reflexivity).
  rewrite (roundHalfEven_value _ _ Hscaled).
  assert (Qlt_bool x 0 = Qlt_bool x' 0) as -> by (unfold Qlt_bool; rewrite Heq; reflexivity).
  reflexivity.
Qed.







(** ** Properties of the orchestrator and of the batch coordinator *)

Section CoordinatorFacts.

Variable W : Type.
Variable fetch : W -> HttpRequest -> W * FetchOutcome.
Variable NumberOf : string -> option Q.
Variable numToString : jsnum -> string.
Variable clock : W -> string.
Variable startOfMonthMs endOfMonthMs : W -> jsnum.
Variable startOfDayMs endOfDayMs : string -> jsnum.
Variable localeCompare : string -> string -> Q.
Variable getScopeTree : string -> W -> W * Completion (list ScopeTreeTeam).
Variable getTeamMemberIds : string -> W -> string -> W * Completion (list string).

Local Abbreviation refreshOne :=
  (refreshSingleAlert W fetch NumberOf numToString clock startOfMonthMs endOfMonthMs
     startOfDayMs endOfDayMs getScopeTree).
Local Abbreviation refreshOne4 :=
  (refreshSingleAlert_call4 W fetch NumberOf numToString clock startOfMonthMs endOfMonthMs
     startOfDayMs endOfDayMs getScopeTree).
Local Abbreviation refreshMany :=
  (refreshEach W fetch NumberOf numToString clock startOfMonthMs endOfMonthMs
     startOfDayMs endOfDayMs getScopeTree getTeamMemberIds).
Local Abbreviation refreshInternal :=
  (refreshAllInternal W fetch NumberOf numToString clock startOfMonthMs endOfMonthMs
     startOfDayMs endOfDayMs localeCompare getScopeTree getTeamMemberIds).
Local Abbreviation handler :=
  (refreshAllHandler W fetch NumberOf numToString clock startOfMonthMs endOfMonthMs
     startOfDayMs endOfDayMs localeCompare getScopeTree getTeamMemberIds).
Local Abbreviation inputAlerts := (normalizedAlerts localeCompare).
Local Abbreviation persist := (store_setAlerts localeCompare).

Lemma sortInsert_perm {A : Type} (compare : A -> A -> Q) (x : A) (sorted : list A) :
  sortInsert compare x sorted ≡ₚ x :: sorted.
Proof.
  induction sorted as [| y rest IH]; cbn [sortInsert]; [reflexivity |].
  destruct (Qle_bool (compare x y) 0); [reflexivity |].
  rewrite IH. apply Permutation_swap.
Qed.

Lemma sortWith_perm {A : Type} (compare : A -> A -> Q) (xs : list A) :
  sortWith compare xs ≡ₚ xs.
Proof.
  induction xs as [| x rest IH]; cbn [sortWith]; [reflexivity |].
  rewrite sortInsert_perm, IH. reflexivity.
Qed.

(** A refresh gives back the alert it was given, under the same id. *)
Lemma refreshSingleAlert_id (token : string) (w : W) (alert : AlertConfig.t)
    (scopeTreeOverride : option (list ScopeTreeTeam)) :
  AlertConfig.id (RefreshAlertResult.alert (refreshOne token w alert scopeTreeOverride).2)
  = AlertConfig.id alert.
Proof.
  unfold refreshSingleAlert.
  destruct (AlertConfig.active alert); cbn [negb]; [| reflexivity].
  destruct (match scopeTreeOverride with
            | Some tree => (w, Returned tree)
            | None => getScopeTree token w
            end) as [w1 [scopeTree | e]]; [| reflexivity].
  destruct (getScopeWarning alert scopeTree); [reflexivity |].
  destruct (getTimeEntries W fetch NumberOf numToString token w1 _) as [[w2 evs] [entries | e]];
    reflexivity.
Qed.

Lemma refreshEach_ids (token : string) (alerts : list AlertConfig.t) :
  forall (w : W) (teamMemberCache : gmap string (list string)),
    (fun r => AlertConfig.id (RefreshAlertResult.alert r))
      <$> (refreshMany token alerts w teamMemberCache).2
    = AlertConfig.id <$> alerts.
Proof.
  induction alerts as [| alert rest IH]; intros w teamMemberCache; [reflexivity |].
  cbn [refreshEach].
  destruct (match teamMemberCache !! AlertConfig.teamId alert with
            | Some ids => (w, ids, teamMemberCache)
            | None =>
                let '(w1, looked) := getTeamMemberIds token w (AlertConfig.teamId alert) in
                (w1, match looked with Returned ids => ids | Thrown _ => [] end,
                 <[AlertConfig.teamId alert := match looked with
                                              | Returned ids => ids
                                              | Thrown _ => []
                                              end]> teamMemberCache)
            end) as [[w1 teamMemberIds] cache1] eqn:Hlookup.
  pose proof (refreshSingleAlert_id token w1 alert None) as Hid.
  unfold refreshSingleAlert_call4.
  destruct (refreshOne token w1 alert None) as [[w2 evs] refreshed]. cbn [snd] in Hid.
  specialize (IH w2 cache1).
  destruct (refreshMany token rest w2 cache1) as [[w3 evs'] results]. cbn [snd] in IH.
  cbn [snd]. rewrite fmap_cons, IH, Hid. reflexivity.
Qed.

Lemma failedResult_facts (now : string) (alert : AlertConfig.t) (message : string) :
  let result := failedResult now alert message in
  RefreshAlertResult.success result = false
  /\ RefreshAlertResult.errorMessage result = Some message
  /\ AlertConfig.id (RefreshAlertResult.alert result) = AlertConfig.id alert
  /\ AlertConfig.lastSnapshot (RefreshAlertResult.alert result)
     = Some (buildErrorSnapshot now alert message)
  /\ AlertSnapshot.status (buildErrorSnapshot now alert message) = StatusError
  /\ AlertSnapshot.errorMessage (buildErrorSnapshot now alert message) = Some message.
Proof. cbn. repeat split. Qed.

Lemma nonempty_length {A : Type} (l : list A) : l <> [] -> Nat.eqb (length l) 0 = false.
Proof. destruct l; [congruence | reflexivity]. Qed.

(** C3, amended.  [inputAlerts st] is the alert list that the handler
    reads from the store.  On a store that can be read and written and
    whose alert list is not empty, the handler of the batch refresh
    returns: it ends in a list of results and in no exception.  The results
    are as many as the alerts, one under the id of each alert.  When
    [refreshAllInternal] throws, as it does before any refresh when no token
    is configured, the handler gives every alert of the input the result of
    a failed refresh: [success] false, the message of the exception as
    [errorMessage], and as last snapshot the error snapshot with that
    message.  It writes the alerts of these results to the store and
    returns the results.  On a store that cannot be read, or that can be
    read and cannot be written, the handler ends in an exception. *)
Theorem C3_batch_refresh_total :
  (forall (w : W) (st : LocalStore),
      stored_readable st = true ->
      stored_writable st = true ->
      inputAlerts st <> [] ->
      exists results : list RefreshAlertResult.t,
        (handler w st).2 = Returned results
        /\ length results = length (inputAlerts st)
        /\ (fun r => AlertConfig.id (RefreshAlertResult.alert r)) <$> results
           ≡ₚ AlertConfig.id <$> inputAlerts st)
  /\ (forall (w w1 : W) (st st1 : LocalStore) (evs : list Event) (error : Exn),
        stored_readable st = true ->
        stored_readable st1 = true ->
        stored_writable st1 = true ->
        inputAlerts st <> [] ->
        refreshInternal w st (inputAlerts st) = (w1, st1, evs, Thrown error) ->
        let results :=
          (fun alert => failedResult (clock w1) alert (exnMessage error)) <$> inputAlerts st in
        exists st2 : LocalStore,
          persist st1 (RefreshAlertResult.alert <$> results) = Returned st2
          /\ handler w st = (w1, st2, evs, Returned results)
          /\ Forall
               (fun r =>
                  RefreshAlertResult.success r = false
                  /\ RefreshAlertResult.errorMessage r = Some (exnMessage error)
                  /\ exists snapshot,
                       AlertConfig.lastSnapshot (RefreshAlertResult.alert r) = Some snapshot
                       /\ AlertSnapshot.status snapshot = StatusError
                       /\ AlertSnapshot.errorMessage snapshot = Some (exnMessage error))
               results
          /\ (fun r => AlertConfig.id (RefreshAlertResult.alert r)) <$> results
             = AlertConfig.id <$> inputAlerts st)
  /\ (forall (w : W) (st : LocalStore) (alerts : list AlertConfig.t),
        store_getToken localeCompare st = Returned None ->
        refreshInternal w st alerts
        = (w, st, [],
           Thrown (OtherError "No ClickUp token configured. Add a token in settings first.")))
  /\ (forall (w : W) (st : LocalStore),
        stored_readable st = false
        \/ (stored_readable st = true /\ stored_writable st = false /\ inputAlerts st <> []) ->
        exists error : Exn, (handler w st).2 = Thrown error).
Proof.
  split; [| split; [| split]].
  - intros w st Hreadable Hwritable Hnonempty.
    unfold refreshAllHandler, store_getAlerts, readState. rewrite Hreadable.
    cbn [stored_alerts]. rewrite (nonempty_length _ Hnonempty).
    unfold refreshAllInternal, store_getToken, store_setAlerts, readState, writeState.
    rewrite Hreadable, Hwritable. cbn [stored_token].
    destruct (match stored_token st with
              | Some token => if nonEmpty token then Some token else None
              | None => None
              end) as [token |].
    + pose proof (refreshEach_ids token (sortAlerts localeCompare (inputAlerts st)) w ∅) as Hids.
      destruct (refreshMany token (sortAlerts localeCompare (inputAlerts st)) w ∅)
        as [[w1 evs] results].
      cbn [snd] in Hids. exists results. cbn [snd]. split; [reflexivity |].
      assert ((fun r => AlertConfig.id (RefreshAlertResult.alert r)) <$> results
              ≡ₚ AlertConfig.id <$> inputAlerts st) as Hperm.
      { rewrite Hids. apply fmap_Permutation, sortWith_perm. }
      split; [| exact Hperm].
      apply Permutation_length in Hperm. rewrite !length_fmap in Hperm. exact Hperm.
    + rewrite Hreadable, Hwritable. eexists. cbn [snd]. split; [reflexivity |].
      split; [apply length_fmap |].
      rewrite <- list_fmap_compose. reflexivity.
  - intros w w1 st st1 evs error Hreadable Hreadable1 Hwritable1 Hnonempty Hthrown results.
    unfold refreshAllHandler, store_getAlerts. unfold readState at 1. rewrite Hreadable.
    cbn [stored_alerts]. rewrite (nonempty_length _ Hnonempty), Hthrown.
    unfold store_setAlerts, readState, writeState. rewrite Hreadable1, Hwritable1.
    eexists. split; [reflexivity |]. split; [reflexivity |]. split.
    + subst results. apply Forall_fmap, Forall_forall. intros alert _. cbn.
      split; [reflexivity |]. split; [reflexivity |].
      eexists. split; [reflexivity |]. split; reflexivity.
    + subst results. rewrite <- list_fmap_compose. reflexivity.
  - intros w st alerts Htoken. unfold refreshAllInternal. rewrite Htoken. reflexivity.
  - intros w st [Hunreadable | (Hreadable & Hreadonly & Hnonempty)].
    + unfold refreshAllHandler, store_getAlerts, readState. rewrite Hunreadable.
      eexists. reflexivity.
    + unfold refreshAllHandler, store_getAlerts, readState. rewrite Hreadable.
      cbn [stored_alerts]. rewrite (nonempty_length _ Hnonempty).
      unfold refreshAllInternal, store_getToken, store_setAlerts, readState, writeState.
      rewrite Hreadable, Hreadonly. cbn [stored_token].
      destruct (match stored_token st with
                | Some token => if nonEmpty token then Some token else None
                | None => None
                end) as [token |].
      * destruct (refreshMany token (sortAlerts localeCompare (inputAlerts st)) w ∅)
          as [[w1 evs] results].
        rewrite Hreadable, Hreadonly. eexists. reflexivity.
      * rewrite Hreadable, Hreadonly. eexists. reflexivity.
Qed.

(** The pass of a call of [getTimeEntries] without assignee ids. *)
Lemma getTimeEntries_unfiltered (token : string) (w : W) (params : TimeEntriesParams) :
  p_assigneeIds params = None ->
  Forall (fun r => assigneeOf r = None)
    (requestsOf (getTimeEntries W fetch NumberOf numToString token w params).1.2).
Proof.
  intros Hnone. unfold getTimeEntries. rewrite Hnone.
  change (buildAssigneeQueryValues None) with [ASSIGNEE_QUERY_NONE]. cbn [scanAll].
  pose proof (scanLoop_requests W fetch NumberOf numToString 200 token params
                (assigneeValueOf ASSIGNEE_QUERY_NONE) (Fin 0) None w (∅, [])) as (_ & _ & Hall).
  destruct (scanLoop W fetch NumberOf numToString 200 token params
              (assigneeValueOf ASSIGNEE_QUERY_NONE) (Fin 0) None w (∅, []))
    as [[w1 evs] [acc | e]]; cbn [fst snd] in *; [rewrite app_nil_r |]; exact Hall.
Qed.

(** What [refreshSingleAlert] does with the team member ids of its caller:
    the result is the same whatever they are, and no request of the refresh
    carries an assignee. *)
Lemma refreshSingleAlert_ignores_members (token : string) (w : W) (alert : AlertConfig.t)
    (scopeTreeOverride : option (list ScopeTreeTeam)) (teamMemberIds : list string) :
  refreshOne4 token w alert scopeTreeOverride teamMemberIds
  = refreshOne4 token w alert scopeTreeOverride []
  /\ Forall (fun r => assigneeOf r = None)
       (requestsOf (refreshOne4 token w alert scopeTreeOverride teamMemberIds).1.2).
Proof.
  split; [reflexivity |].
  unfold refreshSingleAlert_call4, refreshSingleAlert.
  destruct (AlertConfig.active alert); cbn [negb]; [| constructor].
  destruct (match scopeTreeOverride with
            | Some tree => (w, Returned tree)
            | None => getScopeTree token w
            end) as [w1 [scopeTree | e]]; [| constructor].
  destruct (getScopeWarning alert scopeTree); [constructor |].
  pose proof (getTimeEntries_unfiltered token w1
                (timeEntriesParamsOf W startOfMonthMs endOfMonthMs startOfDayMs endOfDayMs
                   w1 alert) eq_refl) as Hall.
  destruct (getTimeEntries W fetch NumberOf numToString token w1 _) as [[w2 evs] [entries | e]];
    exact Hall.
Qed.

End CoordinatorFacts.

(** ** The claims at concrete inputs *)

(** C5.  [refreshSingleAlert] is called with the team member ids
    [user-1] and [user-2] on an active alert whose scope exists.  The
    refresh succeeds with one request, which has no assignee: the ids do
    not reach [getTimeEntries].  Given them as [assigneeIds],
    [getTimeEntries] asks for [user-1], [user-2], [0] and then without
    assignee. *)
Theorem C5_team_member_ids_not_forwarded :
  RefreshAlertResult.success (exampleRefresh ["user-1"; "user-2"]).2 = true
  /\ assigneeOf <$> requestsOf (exampleRefresh ["user-1"; "user-2"]).1.2 = [None]
  /\ exampleRefresh ["user-1"; "user-2"] = exampleRefresh []
  /\ assigneeOf <$> requestsOf (exampleRun (JObj []) (Some ["user-1"; "user-2"])).1.2
     = [Some (QStr "user-1"); Some (QStr "user-2"); Some (QStr "0"); None].
Proof. vm_compute. repeat split. Qed.

(** C4 at a script: 429 three times and then 200 gives the payload after
    sleeps of 250, 500 and 1000 ms; a 503 on the first attempt is followed
    by a sleep of 250 ms and the second attempt; a 401 ends the call. *)
Lemma C4_retry_policy_witness :
  let r := {| req_token := "token"; req_path := "/team"; req_params := [] |} in
  request (list FetchOutcome) scriptedFetch "token"
    [Responded 429 JNull; Responded 429 JNull; Responded 429 JNull;
     Responded 200 (JObj [("teams", JArr [])])] "/team" []
  = ([],
     [EvRequest r; EvFetch r; EvSleep 250; EvFetch r; EvSleep 500; EvFetch r; EvSleep 1000;
      EvFetch r],
     Returned (JObj [("teams", JArr [])]))
  /\ requestLoop (list FetchOutcome) scriptedFetch 4 1 [Responded 503 JNull; FetchFailed] r
     = (let '(w2, evs, res) := requestLoop (list FetchOutcome) scriptedFetch 3 (1 + 1) [FetchFailed] r in
        (w2, EvFetch r :: EvSleep (250 * 2 ^ (1 - 1)) :: evs, res))
  /\ requestLoop (list FetchOutcome) scriptedFetch 4 1 [Responded 401 JNull; FetchFailed] r
     = ([FetchFailed], [EvFetch r],
        Thrown (ClickUpApiError "Invalid or revoked ClickUp token." (Some 401%Z)
                  (Some "UNAUTHORIZED"))).
Proof.
  intros r.
  pose proof (C4_retry_policy (list FetchOutcome) scriptedFetch)
    as (Hretry & _ & Hunauthorized & _ & Hscenario & _).
  split; [| split].
  - apply (Hscenario "token"
             [Responded 429 JNull; Responded 429 JNull; Responded 429 JNull;
              Responded 200 (JObj [("teams", JArr [])])]
             [Responded 429 JNull; Responded 429 JNull; Responded 200 (JObj [("teams", JArr [])])]
             [Responded 429 JNull; Responded 200 (JObj [("teams", JArr [])])]
             [Responded 200 (JObj [("teams", JArr [])])]
             [] "/team" [] JNull JNull JNull (JObj [("teams", JArr [])]));
      reflexivity.
  - apply (Hretry 3 1%Z [Responded 503 JNull; FetchFailed] [FetchFailed] r (Responded 503 JNull)).
    + reflexivity.
    + reflexivity.
    + right. lia.
  - apply (Hunauthorized 3 1%Z [Responded 401 JNull; FetchFailed] [FetchFailed] r JNull).
    reflexivity.
Defined.

(** C4 as worded fails on a provider that answers 401 with a JSON content
    type and a body that does not parse: the body is read before the
    status, so the call sees no 401; it makes its four attempts with the
    three waits and ends in the network error.  The same holds of 403. *)
Lemma C4_counterexample :
  let run := request unit (constantFetch (Unreadable 401)) "token" tt "/team" [] in
  length (fetchesOf run.1.2) = 4
  /\ sleepsOf run.1.2 = [250; 500; 1000]%Z
  /\ run.2 = Thrown (ClickUpApiError "Network error while contacting ClickUp API." None None)
  /\ ~ fails_at_once_as_claimed (constantFetch (Unreadable 401)) "token" tt "/team" [] 401
        "UNAUTHORIZED"
  /\ ~ fails_at_once_as_claimed (constantFetch (Unreadable 403)) "token" tt "/team" [] 403
        "FORBIDDEN".
Proof.
  intros run. split; [reflexivity |]. split; [reflexivity |]. split; [reflexivity |].
  split; intros Hclaim; destruct (Hclaim eq_refl) as (Hfetches & _);
    vm_compute in Hfetches; discriminate Hfetches.
Qed.

(** C8 at a script of four failures without response: the call ends in
    the network error of the fourth attempt. *)
Lemma C8_exhaustion_witness :
  (request (list FetchOutcome) scriptedFetch "token"
     [FetchFailed; FetchFailed; FetchFailed; FetchFailed] "/team" []).2
  = Thrown (ClickUpApiError "Network error while contacting ClickUp API." None None).
Proof.
  apply (proj1 (C8_exhaustion_throws_last_error (list FetchOutcome) scriptedFetch) "token"
           [FetchFailed; FetchFailed; FetchFailed; FetchFailed]
           [FetchFailed; FetchFailed; FetchFailed] [FetchFailed; FetchFailed] [FetchFailed] []
           "/team" [] FetchFailed FetchFailed FetchFailed FetchFailed);
    reflexivity.
Defined.

(** C8 as worded fails on four 429 responses: the four attempts are made,
    no payload is returned, and the call throws the error of the last
    response, with status 429, not "Unexpected API error.". *)
Lemma C8_counterexample :
  ~ exhaustion_is_unexpected scriptedFetch "token"
      [Responded 429 JNull; Responded 429 JNull; Responded 429 JNull; Responded 429 JNull]
      "/team" [].
Proof.
  unfold exhaustion_is_unexpected. intros Hclaim.
  specialize (Hclaim eq_refl eq_refl). vm_compute in Hclaim. discriminate Hclaim.
Qed.

(** C1 at a filter with a repeated id and a blank one, against a provider
    that gives the same three records to every pass. *)
Lemma C1_passes_and_dedup_witness :
  let run := exampleRun examplePayload (Some [" user-1 "; "user-1"; ""; "user-2"]) in
  scannedInPasses (requestsOf run.1.2) [Some "user-1"; Some "user-2"; Some "0"; None]
  /\ NoDup (TimeEntry.id <$> returnedEntries run)
  /\ length (returnedEntries run) = 2.
Proof.
  intros run.
  destruct (C1_passes_and_dedup unit (constantFetch (Responded 200 examplePayload))
              exampleNumberOf exampleNumToString "token" tt run.1.1
              (exampleParams (Some [" user-1 "; "user-1"; ""; "user-2"]))
              run.1.2 (returnedEntries run))
    as (Hpasses & Hdistinct & _).
  - vm_compute. reflexivity.
  - split; [| split; [exact Hdistinct | vm_compute; reflexivity]].
    apply Hpasses. vm_compute. repeat constructor; discriminate.
Defined.

(** C1 as worded fails on a filter that holds one blank id: a filter is
    supplied, and the only pass is the one without assignee. *)
Lemma C1_counterexample :
  let run := exampleRun examplePayload (Some [" "]) in
  isReturned run.2 = true
  /\ assigneeOf <$> requestsOf run.1.2 = [None]
  /\ ~ scannedInPasses (requestsOf run.1.2) (claimedScans (Some [" "])).
Proof.
  intros run. split; [reflexivity |]. split; [vm_compute; reflexivity |].
  intros (passes & Hconcat & Hpasses).
  change (claimedScans (Some [" "])) with [Some " "; Some "0"; None] in Hpasses.
  assert (length (requestsOf run.1.2) = 1) as Hone by (vm_compute; reflexivity).
  rewrite Hconcat in Hone.
  inversion Hpasses as [| v1 p1 vs1 ps1 [Hp1 _] Hrest1]; subst.
  inversion Hrest1 as [| v2 p2 vs2 ps2 [Hp2 _] Hrest2]; subst.
  cbn [concat] in Hone. rewrite !length_app in Hone.
  destruct p1; [congruence |]. destruct p2; [congruence |].
  cbn [length] in Hone. lia.
Qed.

(** C7 at a provider that names page 0 as the page after page 0: the pass
    ends with its first response; and a response with only [last_page] 3,
    read on page 0, leads to page 1. *)
Lemma C7_scan_terminates_witness :
  let r := {| req_token := "token"; req_path := "/team/team-1/time_entries";
              req_params := definedParams (timeEntriesQuery (exampleParams None) None (Fin 0) None) |} in
  scanLoop unit (constantFetch (Responded 200 stalledPayload)) exampleNumberOf exampleNumToString
    200 "token" (exampleParams None) None (Fin 0) None tt (∅, [])
  = (tt, [EvRequest r; EvFetch r] ++ [EvPage stalledPayload],
     Returned (collectPage exampleNumberOf exampleNumToString (∅, []) stalledPayload))
  /\ nextStep (Fin 0) (JObj [("data", JArr []); ("last_page", JNum (Fin 3))])
     = GoToPage (Fin (0 + 1)).
Proof.
  intros r.
  pose proof (C7_scan_terminates unit (constantFetch (Responded 200 stalledPayload))
                exampleNumberOf exampleNumToString) as (_ & _ & Hstop & Hlast).
  split.
  - apply (Hstop 199 "token" (exampleParams None) None (Fin 0) (Fin 0) None tt tt (∅, [])
             [EvRequest r; EvFetch r] stalledPayload); reflexivity.
  - apply (Hlast (Fin 0) (JObj [("data", JArr []); ("last_page", JNum (Fin 3))])).
    + reflexivity.
    + intros nextPage. discriminate.
Defined.

(** C10 at the example page: the durations "-1500" and -60000 of the
    provider come out as 1500 and 60000. *)
Lemma C10_duration_nonnegative_witness :
  Forall
    (fun e =>
       (0 <= TimeEntry.durationMs e)%Q
       /\ TimeEntry.durationMs e
          = parseDurationMs exampleNumberOf (prop "duration" (TimeEntry.raw e)))
    (returnedEntries (exampleRun examplePayload None))
  /\ TimeEntry.durationMs <$> returnedEntries (exampleRun examplePayload None)
     = [Qabs (-1500); Qabs (-60000)]
  /\ parseDurationMs exampleNumberOf (Some (JStr "-1500")) = Qabs (-1500)
  /\ (parseDurationMs exampleNumberOf (Some (JNum (Fin (-60000)))) == - (-60000))%Q
  /\ parseDurationMs exampleNumberOf (Some (JStr "soon")) = 0%Q
  /\ parseDurationMs exampleNumberOf (Some (JNum PInf)) = 0%Q.
Proof.
  pose proof (C10_duration_nonnegative unit (constantFetch (Responded 200 examplePayload))
                exampleNumberOf exampleNumToString)
    as (Hentries & _ & Hstring & Hnegative & _ & Hunparsable & Hother).
  split; [| split; [| split; [| split; [| split]]]].
  - apply (Hentries "token" tt tt (exampleParams None) (exampleRun examplePayload None).1.2).
    vm_compute. reflexivity.
  - vm_compute. reflexivity.
  - apply Hstring. reflexivity.
  - apply Hnegative. reflexivity.
  - apply Hunparsable. reflexivity.
  - apply Hother; intros; discriminate.
Defined.

(** C9 at an alert with the include-only id [task-9] and the excluded id
    [task-1]: an entry without task id is dropped. *)
Lemma C9_entry_without_task_witness :
  let alert := sampleAlert true 50 ["task-1"] (Some ["task-9"]) None in
  let entry := sampleEntry "entry-1" None 1000 in
  (entry ∈ applyEntryFilters alert [entry]
   <-> entry ∈ [entry] /\ uniqIds (AlertConfig.includeOnlyTaskIds alert) = [])
  /\ entry ∉ applyEntryFilters alert [entry].
Proof.
  intros alert entry.
  destruct (C9_entry_without_task alert [entry] entry) as (Hiff & _).
  - reflexivity.
  - split; [exact Hiff |]. rewrite Hiff. intros [_ Hempty]. vm_compute in Hempty.
    discriminate Hempty.
Defined.

(** C9 as worded fails on an alert whose [includeOnlyTaskIds] holds one
    blank id: the list is not empty, and the entry without task id is
    kept. *)
Lemma C9_counterexample :
  let alert := sampleAlert true 50 [] (Some [" "]) None in
  let entry := sampleEntry "entry-1" None 1000 in
  applyEntryFilters alert [entry] = [entry]
  /\ includeOnlyNonEmpty alert = true
  /\ ~ survives_as_claimed alert [entry] entry.
Proof.
  intros alert entry. split; [vm_compute; reflexivity |]. split; [reflexivity |].
  unfold survives_as_claimed. intros [Hkept _].
  assert (entry ∈ applyEntryFilters alert [entry]) as Hin.
  { change (applyEntryFilters alert [entry]) with [entry]. apply list_elem_of_here. }
  destruct (Hkept Hin) as [_ Hempty]. vm_compute in Hempty. discriminate Hempty.
Qed.

(** C6 at an alert whose budget is now 60 and whose previous snapshot was
    taken under a budget of 50, and at an alert with no snapshot. *)
Lemma C6_error_snapshot_witness :
  let alert := sampleAlert true 60 [] None (Some (sampleSnapshot 50)) in
  let fresh := sampleAlert true 60 [] None None in
  AlertSnapshot.hoursUsed (buildErrorSnapshot "now" alert "Network error") = 10%Q
  /\ AlertSnapshot.entryCount (buildErrorSnapshot "now" alert "Network error") = 3%Q
  /\ AlertSnapshot.budgetHours (buildErrorSnapshot "now" alert "Network error") = 60%Q
  /\ AlertSnapshot.remainingHours (buildErrorSnapshot "now" fresh "Network error") = 60%Q
  /\ AlertSnapshot.percentUsed (buildErrorSnapshot "now" fresh "Network error") = 0%Q.
Proof.
  intros alert fresh.
  destruct (C6_error_snapshot "now" alert "Network error") as (_ & _ & Hbudget & Hlast & _).
  destruct (C6_error_snapshot "now" fresh "Network error") as (_ & _ & _ & _ & Hnone).
  destruct (Hlast (sampleSnapshot 50) eq_refl) as (Hused & _ & _ & _ & Hcount & _).
  destruct (Hnone eq_refl) as (_ & Hremaining & _ & Hpercent & _).
  split; [exact Hused |]. split; [exact Hcount |]. split; [exact Hbudget |].
  split; [exact Hremaining | exact Hpercent].
Defined.

(** C6 as worded fails on that alert: the error snapshot has the budget of
    the alert, 60, and the previous snapshot has 50. *)
Lemma C6_counterexample :
  let alert := sampleAlert true 60 [] None (Some (sampleSnapshot 50)) in
  (AlertSnapshot.budgetHours (buildErrorSnapshot "now" alert "Network error") == 60)%Q
  /\ ~ carried_forward_as_claimed alert (buildErrorSnapshot "now" alert "Network error").
Proof.
  intros alert. split; [reflexivity |].
  unfold carried_forward_as_claimed. cbn. intros (_ & Hbudget & _).
  vm_compute in Hbudget. discriminate Hbudget.
Qed.



(** C3 at a store with one alert and no token: the handler returns one
    failed result with the message of [withClient], and the store holds the
    alert with its error snapshot. *)
Lemma C3_batch_refresh_total_witness :
  let message := "No ClickUp token configured. Add a token in settings first." in
  (exists results : list RefreshAlertResult.t,
      (exampleHandler storeWithoutToken).2 = Returned results /\ length results = 1)
  /\ RefreshAlertResult.errorMessage
       <$> match (exampleHandler storeWithoutToken).2 with
           | Returned results => results
           | Thrown _ => []
           end
     = [Some message]
  /\ (fun alert => AlertSnapshot.status <$> AlertConfig.lastSnapshot alert)
       <$> stored_alerts (exampleHandler storeWithoutToken).1.1.2
     = [Some StatusError]
  /\ (exists error : Exn, (exampleHandler storeReadOnly).2 = Thrown error).
Proof.
  intros message.
  pose proof (C3_batch_refresh_total unit (constantFetch emptyPage) exampleNumberOf
                exampleNumToString (fun _ => "2024-03-01T00:00:00.000Z")
                (fun _ => Fin 0) (fun _ => Fin 0) (fun _ => Fin 0) (fun _ => Fin 0)
                (fun _ _ => 0%Q) (fun _ w => (w, Returned sampleTree))
                (fun _ w _ => (w, Returned ["user-1"; "user-2"])))
    as (Htotal & Hfailed & Htoken & Hthrows).
  split; [| split; [| split]].
  - destruct (Htotal tt storeWithoutToken) as (results & Hreturned & Hlength & _).
    + reflexivity.
    + reflexivity.
    + vm_compute. discriminate.
    + exists results. split; [exact Hreturned | exact Hlength].
  - destruct (Hfailed tt tt storeWithoutToken storeWithoutToken [] (OtherError message))
      as (st2 & _ & Hhandler & _).
    + reflexivity.
    + reflexivity.
    + reflexivity.
    + vm_compute. discriminate.
    + apply Htoken. reflexivity.
    + unfold exampleHandler. rewrite Hhandler. vm_compute. reflexivity.
  - vm_compute. reflexivity.
  - apply (Hthrows tt storeReadOnly). right.
    split; [reflexivity |]. split; [reflexivity |]. vm_compute. discriminate.
Defined.

(** C3 as worded fails on a store with one alert and no token on a file
    system that takes no writes: [withClient] throws, the handler builds
    the error results, and the write of them throws out of the handler. *)
Lemma C3_counterexample :
  (exampleHandler storeReadOnly).2
  = Thrown (OtherError "EROFS: read-only file system, open 'clickup-budget-monitor.json.tmp'")
  /\ ~ batch_returns_as_claimed storeReadOnly.
Proof.
  split; [vm_compute; reflexivity |].
  intros (results & Hreturned). vm_compute in Hreturned. discriminate Hreturned.
Qed.

(** ** Further properties of [request] *)

Section MoreRequestFacts.

Variable W : Type.
Variable fetch : W -> HttpRequest -> W * FetchOutcome.

Lemma attemptStep_client_error (attempt status : Z) (payload : JSON) :
  response_ok status = false ->
  status <> 429%Z ->
  (status < 500)%Z ->
  attemptStep attempt (Responded status payload)
  = ([], inl (Thrown (attemptError (Responded status payload)))).
Proof.
  intros Hok H429 H500.
  unfold attemptStep, tryBlock, catchBlock, attemptError, isRetriableError. rewrite Hok.
  destruct (status =? 401)%Z; [rewrite andb_false_r; reflexivity |].
  destruct (status =? 403)%Z; [rewrite andb_false_r; reflexivity |].
  assert (((status =? 429)%Z || (500 <=? status)%Z) = false) as Hretry.
  { apply orb_false_iff. split; [apply Z.eqb_neq; exact H429 | apply Z.leb_gt; exact H500]. }
  rewrite Hretry. cbn [andb]. cbv iota beta. rewrite Hretry, andb_false_r. reflexivity.
Qed.

(** X1.  A response that was read (its content type is not JSON, or its
    body parses), that is not a success and whose status is neither 429
    nor 500 or above (a 400, a 404, a 3xx) ends the call of [request] on
    the attempt that received it, whichever attempt that is: nothing is
    slept, nothing more is fetched, and the error carries the status and
    the message of the provider.  The message is the [err] of the payload
    when that is a string, else its [message] when that is a string, else
    "ClickUp API request failed (status)".  A response of the same status
    with a JSON content type and a body that cannot be read is not seen as
    one: before the fourth attempt it is followed by the sleep and the next
    attempt, like a failure without response. *)
Theorem request_client_error_not_retried :
  (forall (left : nat) (attempt status : Z) (w w1 : W) (r : HttpRequest) (payload : JSON),
      fetch w r = (w1, Responded status payload) ->
      response_ok status = false ->
      status <> 401%Z -> status <> 403%Z -> status <> 429%Z -> (status < 500)%Z ->
      requestLoop W fetch (S left) attempt w r
      = (w1, [EvFetch r],
         Thrown (ClickUpApiError
                   (normalizeErrorMessage payload
                      ("ClickUp API request failed (" +:+ showZ status +:+ ")"))
                   (Some status) None)))
  /\ (forall (fields : list (string * JSON)) (fallback s : string),
        assoc "err" fields = Some (JStr s) ->
        normalizeErrorMessage (JObj fields) fallback = s)
  /\ (forall (fields : list (string * JSON)) (fallback s : string),
        (forall e, assoc "err" fields <> Some (JStr e)) ->
        assoc "message" fields = Some (JStr s) ->
        normalizeErrorMessage (JObj fields) fallback = s)
  /\ (forall (fields : list (string * JSON)) (fallback : string),
        (forall e, assoc "err" fields <> Some (JStr e)) ->
        (forall m, assoc "message" fields <> Some (JStr m)) ->
        normalizeErrorMessage (JObj fields) fallback = fallback)
  /\ (forall (left : nat) (attempt status : Z) (w w1 : W) (r : HttpRequest),
        (attempt < MAX_ATTEMPTS)%Z ->
        fetch w r = (w1, Unreadable status) ->
        requestLoop W fetch (S left) attempt w r
        = (let '(w2, evs, res) := requestLoop W fetch left (attempt + 1)%Z w1 r in
           (w2, EvFetch r :: EvSleep (backoffMs attempt) :: evs, res))).
Proof.
  split; [| split; [| split; [| split]]].
  - intros left attempt status w w1 r payload Hfetch Hok H401 H403 H429 H500.
    rewrite requestLoop_S, Hfetch, attemptStep_client_error by assumption.
    unfold attemptError.
    apply Z.eqb_neq in H401, H403. rewrite H401, H403. reflexivity.
  - intros fields fallback s Herr. cbn. rewrite Herr. reflexivity.
  - intros fields fallback s Herr Hmessage. cbn. rewrite Hmessage.
    destruct (assoc "err" fields) as [[| | | e | |] |]; try reflexivity.
    exfalso. exact (Herr e eq_refl).
  - intros fields fallback Herr Hmessage. cbn.
    destruct (assoc "err" fields) as [[| | | e | |] |];
      try (exfalso; exact (Herr e eq_refl));
      destruct (assoc "message" fields) as [[| | | m | |] |];
      try reflexivity; exfalso; exact (Hmessage m eq_refl).
  - intros left attempt status w w1 r Hlt Hfetch.
    rewrite requestLoop_S, Hfetch, (attemptStep_retry attempt (Unreadable status) Hlt I).
    reflexivity.
Qed.

(** The attempts and the sleeps of the loop, from attempt [attempt] with
    [left] attempts to go. *)
Lemma requestLoop_schedule (left : nat) :
  forall (attempt : Z) (w : W) (r : HttpRequest),
    (attempt + Z.of_nat left = MAX_ATTEMPTS + 1)%Z -> 0 < left ->
    exists n : nat,
      1 <= n <= left
      /\ fetchesOf (requestLoop W fetch left attempt w r).1.2 = replicate n r
      /\ sleepsOf (requestLoop W fetch left attempt w r).1.2
         = (fun i => backoffMs (attempt + Z.of_nat i)) <$> seq 0 (n - 1).
Proof.
  induction left as [| left IH]; intros attempt w r Hsum Hpos; [lia |].
  rewrite requestLoop_S. destruct (fetch w r) as [w1 o].
  destruct (attemptStep_shape attempt o) as [[payload ->] | [-> | [Hlt ->]]].
  - exists 1. split; [lia |]. split; reflexivity.
  - exists 1. split; [lia |]. split; reflexivity.
  - assert (0 < left) as Hleft by (unfold MAX_ATTEMPTS in *; lia).
    destruct (IH (attempt + 1)%Z w1 r ltac:(lia) Hleft) as (n & Hn & Hfetches & Hsleeps).
    destruct (requestLoop W fetch left (attempt + 1)%Z w1 r) as [[w2 evs] res].
    cbn [fst snd] in *. exists (S n). split; [lia |]. split.
    + change (fetchesOf (EvFetch r :: [EvSleep (backoffMs attempt)] ++ evs))
        with (r :: fetchesOf evs).
      rewrite Hfetches. reflexivity.
    + change (sleepsOf (EvFetch r :: [EvSleep (backoffMs attempt)] ++ evs))
        with (backoffMs attempt :: sleepsOf evs).
      rewrite Hsleeps. replace (S n - 1) with (S (n - 1)) by lia.
      cbn [seq fmap list_fmap]. rewrite Z.add_0_r. f_equal.
      rewrite <- fmap_S_seq, <- list_fmap_compose.
      apply list_fmap_ext. intros i x _. cbn. f_equal. lia.
Qed.

(** X2.  Every call of [request] makes between one and four attempts, all
    of them the same request (token, path and parameters), and sleeps
    exactly between consecutive attempts: with [n] attempts the sleeps are
    the first [n - 1] of 250, 500 and 1000 ms, so a call never waits more
    than 1750 ms in all. *)
Theorem request_backoff_schedule (token : string) (w : W) (path : string) (query : Query) :
  let r := {| req_token := token; req_path := path; req_params := definedParams query |} in
  let evs := (request W fetch token w path query).1.2 in
  exists n : nat,
    1 <= n <= 4
    /\ fetchesOf evs = replicate n r
    /\ sleepsOf evs = take (n - 1) [250; 500; 1000]%Z
    /\ (foldr Z.add 0 (sleepsOf evs) <= 1750)%Z.
Proof.
  intros r evs. subst evs. unfold request. fold r.
  destruct (requestLoop_schedule (Z.to_nat MAX_ATTEMPTS) 1%Z w r eq_refl
              ltac:(unfold MAX_ATTEMPTS; cbn; lia)) as (n & Hn & Hfetches & Hsleeps).
  destruct (requestLoop W fetch (Z.to_nat MAX_ATTEMPTS) 1%Z w r) as [[w' evs] res].
  cbn [fst snd] in *. change (Z.to_nat MAX_ATTEMPTS) with 4 in Hn.
  exists n. split; [exact Hn |].
  change (fetchesOf (EvRequest r :: evs)) with (fetchesOf evs).
  change (sleepsOf (EvRequest r :: evs)) with (sleepsOf evs).
  split; [exact Hfetches |]. rewrite Hsleeps.
  assert (n = 1 \/ n = 2 \/ n = 3 \/ n = 4) as [-> | [-> | [-> | ->]]] by lia;
    (split; [reflexivity | vm_compute; discriminate]).
Qed.

End MoreRequestFacts.

(** X1 at a 404 with a message of the provider, on the first attempt. *)
Lemma request_client_error_not_retried_witness :
  let r := {| req_token := "token"; req_path := "/team"; req_params := [] |} in
  requestLoop (list FetchOutcome) scriptedFetch 4 1
    [Responded 404 (JObj [("err", JStr "Team not found"); ("message", JStr "ignored")]);
     Responded 200 JNull] r
  = ([Responded 200 JNull], [EvFetch r],
     Thrown (ClickUpApiError "Team not found" (Some 404%Z) None))
  /\ normalizeErrorMessage (JObj [("err", JNum (Fin 1)); ("message", JStr "Bad request")]) "fallback"
     = "Bad request".
Proof.
  intros r.
  pose proof (request_client_error_not_retried (list FetchOutcome) scriptedFetch)
    as (Hfail & _ & Hmessage & _ & _).
  split.
  - apply (Hfail 3 1%Z 404%Z
             [Responded 404 (JObj [("err", JStr "Team not found"); ("message", JStr "ignored")]);
              Responded 200 JNull]
             [Responded 200 JNull] r
             (JObj [("err", JStr "Team not found"); ("message", JStr "ignored")]));
      (reflexivity || lia).
  - apply Hmessage; [intros e; discriminate | reflexivity].
Defined.

(** ** Further properties of [getTimeEntries] *)

Section MoreTimeEntriesFacts.

Variable W : Type.
Variable fetch : W -> HttpRequest -> W * FetchOutcome.
Variable NumberOf : string -> option Q.
Variable numToString : jsnum -> string.

Local Abbreviation entryOf := (toTimeEntry NumberOf numToString).
Local Abbreviation scan := (scanLoop W fetch NumberOf numToString).
Local Abbreviation timeEntriesPath := (fun params => "/team/" +:+ p_teamId params +:+ "/time_entries").

Lemma collectItems_forall (Q : TimeEntry.t -> Prop) (items : list JSON) :
  forall acc : Collected,
    Forall Q acc.2 ->
    (forall item, item ∈ items -> isObject item = true -> Q (entryOf item)) ->
    Forall Q (fold_left (collectItem NumberOf numToString) items acc).2.
Proof.
  induction items as [| item items IH]; intros acc Hacc Hitems; [exact Hacc |].
  cbn [fold_left]. apply IH.
  - unfold collectItem. destruct (isObject item) eqn:Hobject; cbn [negb]; [| exact Hacc].
    destruct (decide (entryIdOf NumberOf numToString item ∈ acc.1)); [exact Hacc |].
    cbn [snd]. apply Forall_app. split; [exact Hacc |].
    constructor; [| constructor]. apply Hitems; [apply list_elem_of_here | exact Hobject].
  - intros x Hx. apply Hitems. apply list_elem_of_further, Hx.
Qed.

Lemma scanLoop_forall (Q : TimeEntry.t -> Prop) (budget : nat) :
  forall (token : string) (params : TimeEntriesParams) (assigneeValue : option string)
         (page : jsnum) (cursor : option string) (w w' : W) (acc acc' : Collected)
         (evs : list Event),
    scan budget token params assigneeValue page cursor w acc = (w', evs, Returned acc') ->
    Forall Q acc.2 ->
    (forall payload item,
        payload ∈ pagesOf evs -> item ∈ rawEntriesOf payload -> isObject item = true ->
        Q (entryOf item)) ->
    Forall Q acc'.2.
Proof.
  induction budget as [| budget IH];
    intros token params assigneeValue page cursor w w' acc acc' evs.
  - cbn. intros [= <- <- <-] Hacc _. exact Hacc.
  - cbn [scanLoop].
    destruct (request_events W fetch token w (timeEntriesPath params)
                (timeEntriesQuery params assigneeValue page cursor)) as [_ Hpages].
    destruct (request W fetch token w _ _) as [[w1 evs0] res]. cbn [fst snd] in Hpages.
    destruct res as [payload | e]; [| discriminate].
    destruct (isNull payload); [discriminate |].
    assert (forall page' cursor' w2 evs' res',
               scan budget token params assigneeValue page' cursor' w1
                 (collectPage NumberOf numToString acc payload) = (w2, evs', res') ->
               (w2, evs0 ++ EvPage payload :: evs', res') = (w', evs, Returned acc') ->
               Forall Q acc.2 ->
               (forall payload0 item,
                   payload0 ∈ pagesOf evs -> item ∈ rawEntriesOf payload0 ->
                   isObject item = true -> Q (entryOf item)) ->
               Forall Q acc'.2) as Hmore.
    { intros page' cursor' w2 evs' res' Hrec [= -> <- ->] Hacc Hfrom.
      rewrite pagesOf_app, Hpages in Hfrom.
      change (pagesOf (EvPage payload :: evs')) with (payload :: pagesOf evs') in Hfrom.
      cbn [app] in Hfrom.
      apply (IH _ _ _ _ _ _ _ _ _ _ Hrec).
      - apply collectItems_forall; [exact Hacc |].
        intros item Hitem. apply (Hfrom payload item); [apply list_elem_of_here | exact Hitem].
      - intros payload0 item Hin. apply Hfrom. apply list_elem_of_further, Hin. }
    destruct (nextStep page payload) as [c | page' |].
    + destruct (scan budget token params assigneeValue page (Some c) w1 _)
        as [[w2 evs'] res'] eqn:Hrec.
      apply (Hmore _ _ _ _ _ Hrec).
    + destruct (scan budget token params assigneeValue page' cursor w1 _)
        as [[w2 evs'] res'] eqn:Hrec.
      apply (Hmore _ _ _ _ _ Hrec).
    + intros [= <- <- <-] Hacc Hfrom.
      rewrite pagesOf_app, Hpages in Hfrom.
      change (pagesOf [EvPage payload]) with [payload] in Hfrom. cbn [app] in Hfrom.
      apply collectItems_forall; [exact Hacc |].
      intros item Hitem. apply (Hfrom payload item); [apply list_elem_of_here | exact Hitem].
Qed.

Lemma scanAll_forall (Q : TimeEntry.t -> Prop) (token : string) (params : TimeEntriesParams)
    (values : list string) :
  forall (w w' : W) (acc acc' : Collected) (evs : list Event),
    scanAll W fetch NumberOf numToString token params values w acc = (w', evs, Returned acc') ->
    Forall Q acc.2 ->
    (forall payload item,
        payload ∈ pagesOf evs -> item ∈ rawEntriesOf payload -> isObject item = true ->
        Q (entryOf item)) ->
    Forall Q acc'.2.
Proof.
  induction values as [| value values IH]; intros w w' acc acc' evs.
  - cbn. intros [= <- <- <-] Hacc _. exact Hacc.
  - cbn [scanAll].
    destruct (scan 200 token params (assigneeValueOf value) (Fin 0) None w acc)
      as [[w1 evs0] res] eqn:Hscan.
    destruct res as [acc1 | e]; [| discriminate].
    destruct (scanAll W fetch NumberOf numToString token params values w1 acc1)
      as [[w2 evs'] res'] eqn:Hrest.
    intros [= <- <- ->] Hacc Hfrom.
    apply (IH _ _ _ _ _ Hrest).
    + apply (scanLoop_forall Q _ _ _ _ _ _ _ _ _ _ _ Hscan Hacc).
      intros payload item Hin. apply Hfrom. rewrite pagesOf_app. apply elem_of_app. left. exact Hin.
    + intros payload item Hin. apply Hfrom. rewrite pagesOf_app. apply elem_of_app. right.
      exact Hin.
Qed.

(** X3.  [getTimeEntries] returns nothing but what the provider sent:
    every entry of the result is the entry built from a record that is an
    object (or an array) of the [data] or [time_entries] of a page read
    during the call.  A record that is [null], a number, a string or a
    boolean gives no entry. *)
Theorem getTimeEntries_entries_from_pages (token : string) (w w' : W)
    (params : TimeEntriesParams) (evs : list Event) (entries : list TimeEntry.t) :
  getTimeEntries W fetch NumberOf numToString token w params = (w', evs, Returned entries) ->
  forall e : TimeEntry.t,
    e ∈ entries ->
    exists (payload item : JSON),
      payload ∈ pagesOf evs
      /\ item ∈ rawEntriesOf payload
      /\ isObject item = true
      /\ e = entryOf item.
Proof.
  unfold getTimeEntries.
  destruct (scanAll W fetch NumberOf numToString token params
              (buildAssigneeQueryValues (p_assigneeIds params)) w (∅, []))
    as [[w1 evs1] res] eqn:Hscan.
  destruct res as [acc |]; [| discriminate].
  intros [= <- <- <-].
  apply Forall_forall.
  apply (scanAll_forall
           (fun e => exists payload item,
                payload ∈ pagesOf evs1 /\ item ∈ rawEntriesOf payload
                /\ isObject item = true /\ e = entryOf item)
           _ _ _ _ _ _ _ _ Hscan); [constructor |].
  intros payload item Hpage Hitem Hobject. exists payload, item. repeat split; assumption.
Qed.

(** X4.  A failure of the first page request of a call ends the call with
    that failure and nothing else is requested; and a successful response
    whose payload is [null] (a 2xx without a JSON body) does not count as
    an empty page: the call ends in a [TypeError]. *)
Theorem getTimeEntries_first_failure (token : string) (w w1 : W) (params : TimeEntriesParams)
    (evs : list Event) :
  let first := assigneeValueOf (hd ASSIGNEE_QUERY_NONE
                                  (buildAssigneeQueryValues (p_assigneeIds params))) in
  let query := timeEntriesQuery params first (Fin 0) None in
  (forall e : Exn,
      request W fetch token w (timeEntriesPath params) query = (w1, evs, Thrown e) ->
      getTimeEntries W fetch NumberOf numToString token w params = (w1, evs, Thrown e))
  /\ (request W fetch token w (timeEntriesPath params) query = (w1, evs, Returned JNull) ->
      getTimeEntries W fetch NumberOf numToString token w params
      = (w1, evs, Thrown (OtherError "Cannot read properties of null (reading 'data')"))).
Proof.
  intros first query. subst first query. unfold getTimeEntries.
  assert (exists value rest,
             buildAssigneeQueryValues (p_assigneeIds params) = value :: rest)
    as (value & rest & Hvalues).
  { unfold buildAssigneeQueryValues.
    destruct (spreadSet _) as [| x xs]; cbn; eexists; eexists; reflexivity. }
  rewrite Hvalues. cbn [hd scanAll].
  change 200 with (S 199). generalize 199 as budget. intros budget. cbn [scanLoop].
  split.
  - intros e Hrequest. rewrite Hrequest. reflexivity.
  - intros Hrequest. rewrite Hrequest. reflexivity.
Qed.

End MoreTimeEntriesFacts.

(** X3 at the example page: its fourth record is a string, and both
    entries returned come from records of the page. *)
Lemma getTimeEntries_entries_from_pages_witness :
  let run := exampleRun examplePayload None in
  Forall
    (fun e =>
       exists payload item,
         payload ∈ pagesOf run.1.2 /\ item ∈ rawEntriesOf payload /\ isObject item = true
         /\ e = toTimeEntry exampleNumberOf exampleNumToString item)
    (returnedEntries run).
Proof.
  intros run. apply Forall_forall.
  apply (getTimeEntries_entries_from_pages unit (constantFetch (Responded 200 examplePayload))
           exampleNumberOf exampleNumToString "token" tt run.1.1 (exampleParams None) run.1.2
           (returnedEntries run)).
  vm_compute. reflexivity.
Defined.

(** X4 at a provider that answers 200 without a JSON body, and at one that
    answers 403. *)
Lemma getTimeEntries_first_failure_witness :
  (exampleRun JNull None).2
  = Thrown (OtherError "Cannot read properties of null (reading 'data')")
  /\ (getTimeEntries unit (constantFetch (Responded 403 JNull)) exampleNumberOf
        exampleNumToString "token" tt (exampleParams (Some ["user-1"]))).2
     = Thrown (ClickUpApiError "Token is valid but lacks required permissions for this scope."
                 (Some 403%Z) (Some "FORBIDDEN")).
Proof.
  split.
  - unfold exampleRun.
    rewrite (proj2 (getTimeEntries_first_failure unit (constantFetch (Responded 200 JNull))
                      exampleNumberOf exampleNumToString "token" tt tt (exampleParams None)
                      (request unit (constantFetch (Responded 200 JNull)) "token" tt
                         "/team/team-1/time_entries"
                         (timeEntriesQuery (exampleParams None) None (Fin 0) None)).1.2));
      reflexivity.
  - rewrite (proj1 (getTimeEntries_first_failure unit (constantFetch (Responded 403 JNull))
                      exampleNumberOf exampleNumToString "token" tt tt
                      (exampleParams (Some ["user-1"]))
                      (request unit (constantFetch (Responded 403 JNull)) "token" tt
                         "/team/team-1/time_entries"
                         (timeEntriesQuery (exampleParams (Some ["user-1"])) (Some "user-1")
                            (Fin 0) None)).1.2)
               (ClickUpApiError "Token is valid but lacks required permissions for this scope."
                  (Some 403%Z) (Some "FORBIDDEN")));
      reflexivity.
Defined.

(** ** The requests of [getTimeEntries] *)

Section TimeEntriesRequests.

Variable W : Type.
Variable fetch : W -> HttpRequest -> W * FetchOutcome.
Variable NumberOf : string -> option Q.
Variable numToString : jsnum -> string.

Local Abbreviation scan := (scanLoop W fetch NumberOf numToString).
Local Abbreviation pageRequest :=
  (fun token params assigneeValue page cursor =>
     {| req_token := token;
        req_path := "/team/" +:+ p_teamId params +:+ "/time_entries";
        req_params := definedParams (timeEntriesQuery params assigneeValue page cursor) |}).

Lemma scanLoop_requests_forall (R : HttpRequest -> Prop) (token : string)
    (params : TimeEntriesParams) (assigneeValue : option string) (budget : nat) :
  forall (page : jsnum) (cursor : option string) (holds : option string -> Prop)
         (w : W) (acc : Collected),
    holds cursor ->
    (forall c, holds (Some c)) ->
    (forall page' cursor', holds cursor' ->
                           R (pageRequest token params assigneeValue page' cursor')) ->
    Forall R (requestsOf (scan budget token params assigneeValue page cursor w acc).1.2).
Proof.
  induction budget as [| budget IH]; intros page cursor holds w acc Hcursor Hsome HR.
  - constructor.
  - cbn [scanLoop].
    destruct (request_events W fetch token w ("/team/" +:+ p_teamId params +:+ "/time_entries")
                (timeEntriesQuery params assigneeValue page cursor)) as [Hreq _].
    destruct (request W fetch token w _ _) as [[w1 evs] res]. cbn [fst snd] in Hreq.
    assert (Forall R (requestsOf evs)) as Hone.
    { rewrite Hreq. constructor; [apply HR, Hcursor | constructor]. }
    destruct res as [payload | e]; [| exact Hone].
    destruct (isNull payload); [exact Hone |].
    destruct (nextStep page payload) as [c | page' |].
    + specialize (IH page (Some c) holds w1 (collectPage NumberOf numToString acc payload)
                    (Hsome c) Hsome HR).
      destruct (scan budget token params assigneeValue page (Some c) w1 _) as [[w2 evs'] res'].
      cbn [fst snd] in *. rewrite requestsOf_app.
      change (requestsOf (EvPage payload :: evs')) with (requestsOf evs').
      apply Forall_app. split; assumption.
    + specialize (IH page' cursor holds w1 (collectPage NumberOf numToString acc payload)
                    Hcursor Hsome HR).
      destruct (scan budget token params assigneeValue page' cursor w1 _) as [[w2 evs'] res'].
      cbn [fst snd] in *. rewrite requestsOf_app.
      change (requestsOf (EvPage payload :: evs')) with (requestsOf evs').
      apply Forall_app. split; assumption.
    + cbn [fst snd]. rewrite requestsOf_app.
      change (requestsOf [EvPage payload]) with (@nil HttpRequest).
      rewrite app_nil_r. exact Hone.
Qed.

Lemma scanAll_requests_forall (R : HttpRequest -> Prop) (token : string)
    (params : TimeEntriesParams) (values : list string) :
  forall (w : W) (acc : Collected),
    (forall assigneeValue page cursor, R (pageRequest token params assigneeValue page cursor)) ->
    Forall R (requestsOf (scanAll W fetch NumberOf numToString token params values w acc).1.2).
Proof.
  induction values as [| value values IH]; intros w acc HR; [constructor |].
  cbn [scanAll].
  pose proof (scanLoop_requests_forall R token params (assigneeValueOf value) 200 (Fin 0) None
                (fun _ => True) w acc I (fun _ => I) (fun page' cursor' _ => HR _ page' cursor'))
    as Hscan.
  destruct (scan 200 token params (assigneeValueOf value) (Fin 0) None w acc)
    as [[w1 evs0] res].
  cbn [fst snd] in Hscan.
  destruct res as [acc1 | e]; [| exact Hscan].
  specialize (IH w1 acc1 HR).
  destruct (scanAll W fetch NumberOf numToString token params values w1 acc1)
    as [[w2 evs'] res'].
  cbn [fst snd] in *. rewrite requestsOf_app. apply Forall_app. split; assumption.
Qed.

Lemma timeEntriesQuery_params (params : TimeEntriesParams) (assigneeValue : option string)
    (page : jsnum) (cursor : option string) :
  let sent := definedParams (timeEntriesQuery params assigneeValue page cursor) in
  assoc "include_task_tags" sent = Some (QStr "true")
  /\ assoc "start_date" sent = QNum <$> p_startMs params
  /\ assoc "end_date" sent = QNum <$> p_endMs params
  /\ assoc "folder_id" sent = QStr <$> p_folderId params
  /\ assoc "list_id" sent = QStr <$> p_listId params
  /\ assoc "cursor" sent = QStr <$> cursor
  /\ assoc "page" sent = match cursor with Some _ => None | None => Some (QNum page) end.
Proof.
  unfold timeEntriesQuery.
  destruct params as [team [start |] [stop |] [folder |] [lst |] ids];
    destruct assigneeValue, cursor; cbn; repeat split; reflexivity.
Qed.

Lemma getTimeEntries_requests_forall (R : HttpRequest -> Prop) (token : string) (w : W)
    (params : TimeEntriesParams) :
  (forall assigneeValue page cursor, R (pageRequest token params assigneeValue page cursor)) ->
  Forall R (requestsOf (getTimeEntries W fetch NumberOf numToString token w params).1.2).
Proof.
  intros HR. unfold getTimeEntries.
  pose proof (scanAll_requests_forall R token params
                (buildAssigneeQueryValues (p_assigneeIds params)) w (∅, []) HR) as Hall.
  destruct (scanAll W fetch NumberOf numToString token params _ w (∅, []))
    as [[w1 evs] res].
  cbn [fst snd] in Hall. destruct res; exact Hall.
Qed.

(** X5.  Every request of [getTimeEntries] carries the caller's token, goes
    to [/team/<teamId>/time_entries], asks for the task tags, passes the
    folder, the list and the two ends of the time range exactly as the
    caller gave them (absent when not given), and names either a cursor or
    a page number, never both and never neither. *)
Theorem getTimeEntries_request_shape (token : string) (w : W) (params : TimeEntriesParams) :
  Forall
    (fun r =>
       req_token r = token
       /\ req_path r = "/team/" +:+ p_teamId params +:+ "/time_entries"
       /\ assoc "include_task_tags" (req_params r) = Some (QStr "true")
       /\ assoc "start_date" (req_params r) = QNum <$> p_startMs params
       /\ assoc "end_date" (req_params r) = QNum <$> p_endMs params
       /\ assoc "folder_id" (req_params r) = QStr <$> p_folderId params
       /\ assoc "list_id" (req_params r) = QStr <$> p_listId params
       /\ (assoc "cursor" (req_params r) = None <-> assoc "page" (req_params r) <> None))
    (requestsOf (getTimeEntries W fetch NumberOf numToString token w params).1.2).
Proof.
  apply getTimeEntries_requests_forall. intros assigneeValue page cursor.
  destruct (timeEntriesQuery_params params assigneeValue page cursor)
    as (Htags & Hstart & Hend & Hfolder & Hlist & Hcursor & Hpage).
  cbn [req_token req_path req_params].
  repeat (split; [first [reflexivity | assumption] |]).
  rewrite Hcursor, Hpage. destruct cursor; cbn; split; congruence.
Qed.

(** X6.  The loop never lets go of a cursor.  When the response to a
    page-numbered request supplies a non-empty [next_cursor], every later
    request of the same pass carries a cursor and no page number, whatever
    the later responses say about pages. *)
Theorem getTimeEntries_cursor_is_kept (budget : nat) (token : string)
    (params : TimeEntriesParams) (assigneeValue : option string) (page : jsnum)
    (w w1 : W) (acc : Collected) (evs0 : list Event) (payload : JSON) :
  request W fetch token w ("/team/" +:+ p_teamId params +:+ "/time_entries")
    (timeEntriesQuery params assigneeValue page None) = (w1, evs0, Returned payload) ->
  isNull payload = false ->
  suppliesCursor payload = true ->
  exists later : list HttpRequest,
    requestsOf (scan (S budget) token params assigneeValue page None w acc).1.2
    = pageRequest token params assigneeValue page None :: later
    /\ Forall
         (fun r =>
            assoc "page" (req_params r) = None
            /\ exists c : string, assoc "cursor" (req_params r) = Some (QStr c))
         later.
Proof.
  intros Hrequest Hnull Hcursor.
  cbn [scanLoop].
  destruct (request_events W fetch token w ("/team/" +:+ p_teamId params +:+ "/time_entries")
              (timeEntriesQuery params assigneeValue page None)) as [Hreq _].
  rewrite Hrequest in Hreq |- *. cbn [fst snd] in Hreq. rewrite Hnull.
  assert (exists c, nextStep page payload = FollowCursor c) as [c Hnext].
  { unfold suppliesCursor in Hcursor. unfold nextStep.
    destruct (prop "next_cursor" payload) as [[| | | s | |] |]; try discriminate.
    destruct s; [discriminate |]. eexists. reflexivity. }
  rewrite Hnext.
  pose proof (scanLoop_requests_forall
                (fun r =>
                   assoc "page" (req_params r) = None
                   /\ exists c : string, assoc "cursor" (req_params r) = Some (QStr c))
                token params assigneeValue budget page (Some c)
                (fun cursor => cursor <> None) w1
                (collectPage NumberOf numToString acc payload)) as Hlater.
  destruct (scan budget token params assigneeValue page (Some c) w1 _) as [[w2 evs'] res'].
  cbn [fst snd] in *. exists (requestsOf evs').
  rewrite requestsOf_app, Hreq.
  change (requestsOf (EvPage payload :: evs')) with (requestsOf evs').
  split; [reflexivity |].
  apply Hlater; [discriminate | discriminate |].
  intros page' [c' |] Hheld; [| congruence].
  destruct (timeEntriesQuery_params params assigneeValue page' (Some c'))
    as (_ & _ & _ & _ & _ & Hc & Hp).
  cbn [req_params]. split; [exact Hp | exists c'; exact Hc].
Qed.

End TimeEntriesRequests.

(** X6 at a provider whose first page hands out a cursor and whose second
    page names page 5 as the next: the third request still carries the
    cursor. *)
Lemma getTimeEntries_cursor_is_kept_witness :
  exists later : list HttpRequest,
    requestsOf (scanLoop (list FetchOutcome) scriptedFetch exampleNumberOf exampleNumToString
                  3 "token" (exampleParams None) None (Fin 0) None
                  [Responded 200 cursorPage; Responded 200 numberedPage] (∅, [])).1.2
    = {| req_token := "token"; req_path := "/team/team-1/time_entries";
         req_params := definedParams (timeEntriesQuery (exampleParams None) None (Fin 0) None) |}
      :: later
    /\ Forall
         (fun r =>
            assoc "page" (req_params r) = None
            /\ exists c : string, assoc "cursor" (req_params r) = Some (QStr c))
         later.
Proof.
  apply (getTimeEntries_cursor_is_kept (list FetchOutcome) scriptedFetch exampleNumberOf
           exampleNumToString 2 "token" (exampleParams None) None (Fin 0)
           [Responded 200 cursorPage; Responded 200 numberedPage] [Responded 200 numberedPage]
           (∅, [])
           [EvRequest {| req_token := "token"; req_path := "/team/team-1/time_entries";
                         req_params := definedParams
                                         (timeEntriesQuery (exampleParams None) None (Fin 0)
                                            None) |};
            EvFetch {| req_token := "token"; req_path := "/team/team-1/time_entries";
                       req_params := definedParams
                                       (timeEntriesQuery (exampleParams None) None (Fin 0)
                                          None) |}]
           cursorPage); reflexivity.
Defined.

(** ** Sets of ids *)

Lemma setOrder_elem (xs : list string) :
  forall (seen : gset string) (x : string),
    x ∈ setOrder seen xs <-> x ∈ xs /\ x ∉ seen.
Proof.
  induction xs as [| y xs IH]; intros seen x; cbn [setOrder].
  - split; [intros H; inversion H | intros [H _]; inversion H].
  - destruct (decide (y ∈ seen)) as [Hy | Hy].
    + rewrite IH, elem_of_cons. split; [tauto |].
      intros [[-> | Hx] Hseen]; [contradiction | tauto].
    + rewrite !elem_of_cons, IH. rewrite elem_of_union, elem_of_singleton.
      destruct (decide (x = y)) as [-> | Hne]; tauto.
Qed.

Lemma setOrder_NoDup (xs : list string) :
  forall seen : gset string, NoDup (setOrder seen xs).
Proof.
  induction xs as [| y xs IH]; intros seen; cbn [setOrder]; [constructor |].
  destruct (decide (y ∈ seen)); [apply IH |].
  constructor; [| apply IH].
  rewrite setOrder_elem. intros [_ Hy]. apply Hy, elem_of_union_l, elem_of_singleton. reflexivity.
Qed.

Lemma setOrder_fixed (xs : list string) :
  forall seen : gset string,
    NoDup xs -> (forall x, x ∈ xs -> x ∉ seen) -> setOrder seen xs = xs.
Proof.
  induction xs as [| y xs IH]; intros seen Hnodup Hfresh; [reflexivity |].
  cbn [setOrder]. apply NoDup_cons in Hnodup as [Hy Hnodup].
  destruct (decide (y ∈ seen)) as [Hin | _].
  - exfalso. apply (Hfresh y); [apply list_elem_of_here | exact Hin].
  - f_equal. apply IH; [exact Hnodup |].
    intros x Hx. rewrite elem_of_union, elem_of_singleton. intros [-> | Hseen].
    + contradiction.
    + apply (Hfresh x); [apply list_elem_of_further, Hx | exact Hseen].
Qed.

Lemma spreadSet_elem (xs : list string) (x : string) : x ∈ spreadSet xs <-> x ∈ xs.
Proof.
  unfold spreadSet. rewrite setOrder_elem. split; [tauto |].
  intros H. split; [exact H | apply not_elem_of_empty].
Qed.

Lemma spreadSet_NoDup (xs : list string) : NoDup (spreadSet xs).
Proof. apply setOrder_NoDup. Qed.

Lemma spreadSet_fixed (xs : list string) : NoDup xs -> spreadSet xs = xs.
Proof.
  intros H. apply setOrder_fixed; [exact H |]. intros x _. apply not_elem_of_empty.
Qed.

(** ** The lookups of the client *)

Section LookupFacts.

Variable W : Type.
Variable fetch : W -> HttpRequest -> W * FetchOutcome.
Variable numToString : jsnum -> string.
Variable compoundToString : JSON -> Completion string.

Local Abbreviation listRequest :=
  (fun token listId page =>
     {| req_token := token;
        req_path := "/list/" +:+ listId +:+ "/task";
        req_params := definedParams (tasksQuery page) |}).

Lemma extractUserIdsFromUserArray_ids (value : option JSON) :
  NoDup (ClickUpClient.extractUserIdsFromUserArray numToString value)
  /\ Forall (fun id_ => id_ <> "")
       (ClickUpClient.extractUserIdsFromUserArray numToString value).
Proof.
  unfold ClickUpClient.extractUserIdsFromUserArray.
  destruct value as [[| | | | entries |] |]; try (split; constructor).
  split; [apply spreadSet_NoDup |].
  apply Forall_forall. intros x Hx.
  apply spreadSet_elem, list_elem_of_In, filter_In in Hx as [_ Hx].
  intros ->. discriminate.
Qed.

Lemma memberIdsOf_ids (team : JSON) :
  NoDup (ClickUpClient.memberIdsOf numToString team)
  /\ Forall (fun id_ => id_ <> "") (ClickUpClient.memberIdsOf numToString team).
Proof.
  unfold ClickUpClient.memberIdsOf. split; [apply spreadSet_NoDup |].
  apply Forall_forall. intros x Hx. apply (proj1 (spreadSet_elem _ _)) in Hx.
  repeat (apply elem_of_app in Hx as [Hx | Hx]);
    match type of Hx with
    | x ∈ ClickUpClient.extractUserIdsFromUserArray _ ?v =>
        destruct (extractUserIdsFromUserArray_ids v) as [_ Hall];
        rewrite Forall_forall in Hall; apply Hall, Hx
    end.
Qed.

(** X7.  [getTeamMemberIds] sends one request, to [/team] and without
    parameters.  When it returns, no id is listed twice, although a user may
    appear in several of the five groups of the workspace, and no id is the
    empty string. *)
Theorem getTeamMemberIds_distinct_ids (token : string) (w : W) (teamId : string) :
  let run := ClickUpClient.getTeamMemberIds W fetch numToString compoundToString token w teamId in
  requestsOf run.1.2 = [{| req_token := token; req_path := "/team"; req_params := [] |}]
  /\ forall ids : list string,
      run.2 = Returned ids -> NoDup ids /\ Forall (fun id_ => id_ <> "") ids.
Proof.
  unfold ClickUpClient.getTeamMemberIds.
  destruct (request_events W fetch token w "/team" []) as [Hreq _].
  destruct (request W fetch token w "/team" []) as [[w1 evs] res].
  cbn [fst snd] in *. split; [exact Hreq |].
  intros ids.
  destruct res as [payload | e]; [| discriminate].
  destruct (arrayOrEmpty payload "teams" "find") as [items | e]; [| discriminate].
  destruct (ClickUpClient.findTeam numToString compoundToString teamId items)
    as [[team |] | e]; [| | discriminate].
  - destruct (truthy (Some team)).
    + intros [= <-]. apply memberIdsOf_ids.
    + intros [= <-]. split; constructor.
  - intros [= <-]. split; constructor.
Qed.

Lemma findTeam_none (teamId : string) (items : list JSON) :
  Forall (fun item => exists s, prop "id" item = Some (JStr s) /\ s <> teamId) items ->
  ClickUpClient.findTeam numToString compoundToString teamId items = Returned None.
Proof.
  induction 1 as [| item items (s & Hid & Hne) _ IH]; [reflexivity |].
  cbn [ClickUpClient.findTeam].
  destruct item; try discriminate. cbn [isNull]. rewrite Hid. cbn [ClickUpClient.jsString].
  apply String.eqb_neq in Hne. rewrite Hne. exact IH.
Qed.

(** X8.  A workspace that the token does not see has no members: when no
    team of the [/team] response has the id asked for, [getTeamMemberIds]
    returns the empty list. *)
Theorem getTeamMemberIds_unknown_team (token : string) (w w1 : W) (teamId : string)
    (evs : list Event) (payload : JSON) (items : list JSON) :
  request W fetch token w "/team" [] = (w1, evs, Returned payload) ->
  prop "teams" payload = Some (JArr items) ->
  Forall (fun item => exists s, prop "id" item = Some (JStr s) /\ s <> teamId) items ->
  ClickUpClient.getTeamMemberIds W fetch numToString compoundToString token w teamId
  = (w1, evs, Returned []).
Proof.
  intros Hrequest Hteams Hitems.
  unfold ClickUpClient.getTeamMemberIds. rewrite Hrequest.
  unfold arrayOrEmpty. destruct payload; try discriminate. cbn [isNull]. rewrite Hteams.
  rewrite (findTeam_none teamId items Hitems). reflexivity.
Qed.

Lemma mapCompletion_toTaskInfo (listId : string) (items : list JSON) :
  forall chunk : list TaskInfo,
    mapCompletion (ClickUpClient.toTaskInfo numToString compoundToString listId) items
    = Returned chunk ->
    length chunk = length items /\ Forall (fun task => task_listId task = listId) chunk.
Proof.
  induction items as [| item items IH]; intros chunk; cbn [mapCompletion].
  - intros [= <-]. split; [reflexivity | constructor].
  - unfold ClickUpClient.toTaskInfo at 1.
    destruct (isNull item); [discriminate |].
    destruct (ClickUpClient.jsString numToString compoundToString (prop "id" item))
      as [id_ | e]; [| discriminate].
    destruct (mapCompletion _ items) as [rest | e]; [| discriminate].
    intros [= <-]. destruct (IH rest eq_refl) as [Hlen Hall].
    cbn [length]. split; [lia |]. constructor; [reflexivity | exact Hall].
Qed.

Lemma tasksLoop_spec (token listId : string) (budget : nat) :
  forall (page : Z) (w : W) (tasks : list TaskInfo),
    let run := ClickUpClient.tasksLoop W fetch numToString compoundToString budget page token
                 listId w tasks in
    exists n : nat,
      n <= budget
      /\ (0 < budget -> 1 <= n)
      /\ requestsOf run.1.2
         = (fun i => listRequest token listId (page + Z.of_nat i)%Z) <$> seq 0 n
      /\ (forall result : list TaskInfo,
             run.2 = Returned result ->
             Forall (fun task => task_listId task = listId) tasks ->
             Forall (fun task => task_listId task = listId) result).
Proof.
  induction budget as [| budget IH]; intros page w tasks run; subst run.
  - exists 0. cbn. split; [lia |]. split; [lia |]. split; [reflexivity |].
    intros result [= <-] H. exact H.
  - cbn [ClickUpClient.tasksLoop].
    destruct (request_events W fetch token w ("/list/" +:+ listId +:+ "/task")
                (tasksQuery page)) as [Hreq _].
    destruct (request W fetch token w _ _) as [[w1 evs] res]. cbn [fst snd] in Hreq.
    assert (exists n : nat,
               n <= S budget /\ (0 < S budget -> 1 <= n)
               /\ requestsOf evs
                  = (fun i => listRequest token listId (page + Z.of_nat i)%Z) <$> seq 0 n)
      as Hone.
    { exists 1. split; [lia |]. split; [lia |]. rewrite Hreq. cbn.
      rewrite Z.add_0_r. reflexivity. }
    assert (forall tail : Completion (list TaskInfo),
               (forall result, tail <> Returned result) ->
               exists n : nat,
                 n <= S budget /\ (0 < S budget -> 1 <= n)
                 /\ requestsOf (w1, evs, tail).1.2
                    = (fun i => listRequest token listId (page + Z.of_nat i)%Z) <$> seq 0 n
                 /\ (forall result : list TaskInfo,
                        (w1, evs, tail).2 = Returned result ->
                        Forall (fun task => task_listId task = listId) tasks ->
                        Forall (fun task => task_listId task = listId) result)) as Hfail.
    { intros tail Htail. destruct Hone as (n & Hle & Hpos & Hn). exists n.
      repeat (split; [assumption |]). cbn [snd]. intros result Hres.
      exfalso. apply (Htail result Hres). }
    destruct res as [payload | e]; [| apply Hfail; discriminate].
    destruct (arrayOrEmpty payload "tasks" "map") as [items | e]; [| apply Hfail; discriminate].
    destruct (mapCompletion _ items) as [chunk | e] eqn:Hchunk; [| apply Hfail; discriminate].
    apply mapCompletion_toTaskInfo in Hchunk as [_ Hchunk].
    destruct (truthy (prop "last_page" payload) || Nat.eqb (length chunk) 0).
    + destruct Hone as (n & Hle & Hpos & Hn). exists n.
      repeat (split; [assumption |]). cbn [snd]. intros result [= <-] Htasks.
      apply Forall_app. split; assumption.
    + specialize (IH (page + 1)%Z w1 (tasks ++ chunk)). cbn zeta in IH.
      destruct (ClickUpClient.tasksLoop W fetch numToString compoundToString budget
                  (page + 1)%Z token listId w1 (tasks ++ chunk)) as [[w2 evs'] res'].
      cbn [fst snd] in *. destruct IH as (n & Hle & _ & Hn & Hres).
      exists (S n). split; [lia |]. split; [lia |]. split.
      * rewrite requestsOf_app, Hreq, Hn.
        change (seq 0 (S n)) with (0 :: seq 1 n). rewrite fmap_cons. cbn [app Z.of_nat].
        rewrite Z.add_0_r. f_equal.
        rewrite <- fmap_S_seq, <- list_fmap_compose. apply list_fmap_ext.
        intros i x _. cbn [compose]. do 3 f_equal. lia.
      * intros result Hresult Htasks. apply (Hres result Hresult).
        apply Forall_app. split; assumption.
Qed.

(** X9.  [getTasks] asks for the pages 0, 1, 2, ... of [/list/<listId>/task]
    in this order, each once, with [archived=false] and
    [include_closed=true]; it sends at least one request and at most 200.
    Every task it returns is filed under the list asked for. *)
Theorem getTasks_pages_in_order (token : string) (w : W) (listId : string) :
  let run := ClickUpClient.getTasks W fetch numToString compoundToString token w listId in
  exists n : nat,
    1 <= n <= 200
    /\ requestsOf run.1.2
       = (fun i =>
            {| req_token := token;
               req_path := "/list/" +:+ listId +:+ "/task";
               req_params := [ ("archived", QStr "false"); ("include_closed", QStr "true");
                               ("page", QNum (Fin (inject_Z (Z.of_nat i)))) ] |})
           <$> seq 0 n
    /\ forall tasks : list TaskInfo,
        run.2 = Returned tasks -> Forall (fun task => task_listId task = listId) tasks.
Proof.
  intros run. subst run. unfold ClickUpClient.getTasks.
  destruct (tasksLoop_spec token listId 200 0%Z w []) as (n & Hle & Hpos & Hreq & Hres).
  exists n. split; [lia |]. split.
  - rewrite Hreq. apply list_fmap_ext. intros i x _. reflexivity.
  - intros tasks Htasks. apply (Hres tasks Htasks). constructor.
Qed.

(** X10.  [getTasks] stops at the first page that says it is the last, or
    that has no task: it then returns the tasks of that page after one
    request. *)
Theorem getTasks_stops_at_last_page (token : string) (w w1 : W) (listId : string)
    (evs : list Event) (payload : JSON) (items : list JSON) (chunk : list TaskInfo) :
  request W fetch token w ("/list/" +:+ listId +:+ "/task") (tasksQuery 0)
  = (w1, evs, Returned payload) ->
  arrayOrEmpty payload "tasks" "map" = Returned items ->
  mapCompletion (ClickUpClient.toTaskInfo numToString compoundToString listId) items
  = Returned chunk ->
  truthy (prop "last_page" payload) = true \/ items = [] ->
  ClickUpClient.getTasks W fetch numToString compoundToString token w listId
  = (w1, evs, Returned chunk).
Proof.
  intros Hrequest Hitems Hchunk Hstop.
  unfold ClickUpClient.getTasks.
  change 200 with (S 199). generalize 199 as budget. intros budget.
  cbn [ClickUpClient.tasksLoop].
  rewrite Hrequest, Hitems, Hchunk.
  assert (truthy (prop "last_page" payload) || Nat.eqb (length chunk) 0 = true) as ->.
  { destruct Hstop as [-> | ->]; [reflexivity |].
    cbn in Hchunk. injection Hchunk as <-. apply orb_true_r. }
  reflexivity.
Qed.

End LookupFacts.

(** X8 at a response that lists one workspace, asked for another. *)
Lemma getTeamMemberIds_unknown_team_witness :
  ClickUpClient.getTeamMemberIds unit (constantFetch (Responded 200 teamsPayload))
    exampleNumToString exampleCompoundToString "token" tt "team-2"
  = (tt,
     (request unit (constantFetch (Responded 200 teamsPayload)) "token" tt "/team" []).1.2,
     Returned []).
Proof.
  apply (getTeamMemberIds_unknown_team unit (constantFetch (Responded 200 teamsPayload))
           exampleNumToString exampleCompoundToString "token" tt tt "team-2" _ teamsPayload
           [ JObj [("id", JStr "team-1");
                   ("members", JArr [ JObj [("user", JObj [("id", JNum (Fin 7))])];
                                      JObj [("user", JObj [("id", JStr "u-2")])];
                                      JNull ]);
                   ("guests", JArr [ JObj [("id", JNum (Fin 7))];
                                     JObj [("id", JStr "")] ])] ]).
  - reflexivity.
  - reflexivity.
  - constructor; [| constructor]. exists "team-1". split; [reflexivity | discriminate].
Defined.

(** The ids of the example workspace: user 7 is a member and a guest and
    is listed once, the guest without id is not listed. *)
Example getTeamMemberIds_ex :
  (ClickUpClient.getTeamMemberIds unit (constantFetch (Responded 200 teamsPayload))
     exampleNumToString exampleCompoundToString "token" tt "team-1").2
  = Returned ["7/1"; "u-2"].
Proof. vm_compute. reflexivity. Qed.

(** X10 at a provider whose first page is the last. *)
Lemma getTasks_stops_at_last_page_witness :
  ClickUpClient.getTasks unit (constantFetch (Responded 200 lastTasksPage))
    exampleNumToString exampleCompoundToString "token" tt "list-1"
  = (tt,
     (request unit (constantFetch (Responded 200 lastTasksPage)) "token" tt
        "/list/list-1/task" (tasksQuery 0)).1.2,
     Returned [ {| task_id := "t-1"; task_name := Some (JStr "Draft"); task_listId := "list-1" |};
                {| task_id := "2/1"; task_name := Some (JStr "Review");
                   task_listId := "list-1" |} ]).
Proof.
  apply (getTasks_stops_at_last_page unit (constantFetch (Responded 200 lastTasksPage))
           exampleNumToString exampleCompoundToString "token" tt tt "list-1" _ lastTasksPage
           [ JObj [("id", JStr "t-1"); ("name", JStr "Draft")];
             JObj [("id", JNum (Fin 2)); ("name", JStr "Review")] ]).
  - reflexivity.
  - reflexivity.
  - reflexivity.
  - left. reflexivity.
Defined.

(** ** Further properties of the aggregator *)

Lemma trimStart_eq (c1 : ascii) (rest1 : string) :
  trimStart (String c1 rest1)
  = if isSpace c1 then trimStart rest1
    else
      match rest1 with
      | String c2 rest2 =>
          if isSpace2 c1 c2 then trimStart rest2
          else
            match rest2 with
            | String c3 rest3 =>
                if isSpace3 c1 c2 c3 then trimStart rest3 else String c1 rest1
            | EmptyString => String c1 rest1
            end
      | EmptyString => String c1 rest1
      end.
Proof. destruct rest1 as [| c2 [| c3 rest3]]; reflexivity. Qed.

Lemma allSpace_eq (c1 : ascii) (rest1 : string) :
  allSpace (String c1 rest1)
  = if isSpace c1 then allSpace rest1
    else
      match rest1 with
      | String c2 rest2 =>
          if isSpace2 c1 c2 then allSpace rest2
          else
            match rest2 with
            | String c3 rest3 => if isSpace3 c1 c2 c3 then allSpace rest3 else false
            | EmptyString => false
            end
      | EmptyString => false
      end.
Proof. destruct rest1 as [| c2 [| c3 rest3]]; reflexivity. Qed.

Lemma trimStart_length (n : nat) :
  forall s : string, String.length s <= n -> String.length (trimStart s) <= String.length s.
Proof.
  induction n as [| n IH]; intros s Hlen.
  - destruct s; [cbn; lia | cbn in Hlen; lia].
  - destruct s as [| c1 rest1]; [cbn; lia |].
    rewrite trimStart_eq. cbn [String.length] in *.
    destruct (isSpace c1); [specialize (IH rest1); lia |].
    destruct rest1 as [| c2 rest2]; [cbn [String.length]; lia |].
    cbn [String.length] in *.
    destruct (isSpace2 c1 c2); [specialize (IH rest2); lia |].
    destruct rest2 as [| c3 rest3]; [cbn [String.length]; lia |].
    cbn [String.length] in *.
    destruct (isSpace3 c1 c2 c3); [specialize (IH rest3); lia | cbn [String.length]; lia].
Qed.

(** A string that [trimStart] leaves as it is begins with no white space
    character. *)
Lemma trimStart_fixed_head (c1 : ascii) (rest1 : string) :
  trimStart (String c1 rest1) = String c1 rest1 ->
  isSpace c1 = false
  /\ match rest1 with
     | String c2 rest2 =>
         isSpace2 c1 c2 = false
         /\ match rest2 with
            | String c3 _ => isSpace3 c1 c2 c3 = false
            | EmptyString => True
            end
     | EmptyString => True
     end.
Proof.
  assert (forall x y : string, String.length x < String.length y -> trimStart x <> y) as Hshort.
  { intros x y Hlt E. pose proof (trimStart_length (String.length x) x (le_n _)) as Hle.
    rewrite E in Hle. lia. }
  rewrite trimStart_eq.
  destruct (isSpace c1).
  { intros E. exfalso. apply (Hshort rest1 (String c1 rest1)); [cbn; lia | exact E]. }
  intros Hfixed. split; [reflexivity |].
  destruct rest1 as [| c2 rest2]; [exact I |].
  destruct (isSpace2 c1 c2).
  { exfalso. apply (Hshort rest2 (String c1 (String c2 rest2))); [cbn; lia | exact Hfixed]. }
  split; [reflexivity |].
  destruct rest2 as [| c3 rest3]; [exact I |].
  destruct (isSpace3 c1 c2 c3); [| reflexivity].
  exfalso.
  apply (Hshort rest3 (String c1 (String c2 (String c3 rest3)))); [cbn; lia | exact Hfixed].
Qed.

Lemma trimStart_fixed (n : nat) :
  forall s : string, String.length s <= n -> trimStart (trimStart s) = trimStart s.
Proof.
  induction n as [| n IH]; intros s Hlen.
  - destruct s; [reflexivity | cbn in Hlen; lia].
  - destruct s as [| c1 rest1]; [reflexivity |].
    cbn [String.length] in Hlen.
    rewrite (trimStart_eq c1 rest1).
    destruct (isSpace c1) eqn:H1; [apply IH; lia |].
    destruct rest1 as [| c2 rest2].
    { rewrite trimStart_eq, H1. reflexivity. }
    cbn [String.length] in Hlen.
    destruct (isSpace2 c1 c2) eqn:H2; [apply IH; lia |].
    destruct rest2 as [| c3 rest3].
    { rewrite trimStart_eq, H1, H2. reflexivity. }
    cbn [String.length] in Hlen.
    destruct (isSpace3 c1 c2 c3) eqn:H3; [apply IH; lia |].
    rewrite trimStart_eq, H1, H2, H3. reflexivity.
Qed.

Lemma allSpace_app (n : nat) :
  forall p w : string,
    String.length p <= n -> allSpace p = true -> allSpace w = true -> allSpace (p +:+ w) = true.
Proof.
  induction n as [| n IH]; intros p w Hlen Hp Hw.
  - destruct p; [exact Hw | cbn in Hlen; lia].
  - destruct p as [| c1 rest1]; [exact Hw |].
    cbn [String.length] in Hlen.
    change (String c1 rest1 +:+ w) with (String c1 (rest1 +:+ w)).
    rewrite allSpace_eq in Hp |- *.
    destruct (isSpace c1); [apply IH; [lia | exact Hp | exact Hw] |].
    destruct rest1 as [| c2 rest2]; [discriminate |].
    cbn [String.length] in Hlen.
    change (String c2 rest2 +:+ w) with (String c2 (rest2 +:+ w)). cbv iota beta.
    destruct (isSpace2 c1 c2); [apply IH; [lia | exact Hp | exact Hw] |].
    destruct rest2 as [| c3 rest3]; [discriminate |].
    cbn [String.length] in Hlen.
    change (String c3 rest3 +:+ w) with (String c3 (rest3 +:+ w)). cbv iota beta.
    destruct (isSpace3 c1 c2 c3); [apply IH; [lia | exact Hp | exact Hw] | discriminate].
Qed.

(** What [trimEnd] cuts off is white space. *)
Lemma trimEnd_split (s : string) :
  exists w : string, s = trimEnd s +:+ w /\ allSpace w = true.
Proof.
  induction s as [| c rest IH]; [exists ""; split; reflexivity |].
  cbn [trimEnd]. destruct (allSpace (String c rest)) eqn:Hall.
  - exists (String c rest). split; [reflexivity | exact Hall].
  - destruct IH as (w & Hrest & Hw). exists w. split; [| exact Hw].
    change (String c (trimEnd rest) +:+ w) with (String c (trimEnd rest +:+ w)).
    rewrite <- Hrest. reflexivity.
Qed.

Lemma trimEnd_fixed (s : string) : trimEnd (trimEnd s) = trimEnd s.
Proof.
  induction s as [| c rest IH]; [reflexivity |].
  cbn [trimEnd]. destruct (allSpace (String c rest)) eqn:Hall; [reflexivity |].
  cbn [trimEnd]. rewrite IH.
  destruct (allSpace (String c (trimEnd rest))) eqn:Hcut; [| reflexivity].
  exfalso. destruct (trimEnd_split rest) as (w & Hrest & Hw).
  pose proof (allSpace_app _ (String c (trimEnd rest)) w (le_n _) Hcut Hw) as Happ.
  change (String c (trimEnd rest) +:+ w) with (String c (trimEnd rest +:+ w)) in Happ.
  rewrite <- Hrest, Hall in Happ. discriminate Happ.
Qed.

(** [trimEnd] gives no new start to a string that begins with no white
    space. *)
Lemma trimStart_trimEnd (s : string) : trimStart s = s -> trimStart (trimEnd s) = trimEnd s.
Proof.
  destruct s as [| c1 rest1]; [reflexivity |].
  intros Hfixed. apply trimStart_fixed_head in Hfixed as [H1 Hrest1].
  cbn [trimEnd]. destruct (allSpace (String c1 rest1)); [reflexivity |].
  rewrite trimStart_eq, H1.
  destruct rest1 as [| c2 rest2]; [reflexivity |].
  destruct Hrest1 as [H2 Hrest2].
  cbn [trimEnd]. destruct (allSpace (String c2 rest2)); [reflexivity |].
  rewrite H2.
  destruct rest2 as [| c3 rest3]; [reflexivity |].
  cbn [trimEnd]. destruct (allSpace (String c3 rest3)); [reflexivity |].
  rewrite Hrest2. reflexivity.
Qed.

Lemma trim_fixed (s : string) : trim (trim s) = trim s.
Proof.
  unfold trim.
  rewrite (trimStart_trimEnd _ (trimStart_fixed _ s (le_n _))). apply trimEnd_fixed.
Qed.

Lemma uniqIds_elem (ids : option (list string)) (x : string) :
  x ∈ uniqIds ids <-> x <> "" /\ exists y, y ∈ default [] ids /\ x = trim y.
Proof.
  unfold uniqIds. rewrite spreadSet_elem, list_elem_of_In, filter_In, in_map_iff.
  split.
  - intros [(y & <- & Hy) Hne]. split; [intros E; rewrite E in Hne; discriminate |].
    exists y. split; [apply list_elem_of_In, Hy | reflexivity].
  - intros [Hne (y & Hy & ->)]. split.
    + exists y. split; [reflexivity | apply list_elem_of_In, Hy].
    + destruct (trim y); [contradiction | reflexivity].
Qed.

(** X11.  The normal form of a list of task ids ([uniqIds], which is also
    [dedupeIds] of main.ts): no id twice; an id is in it exactly when it is
    not empty and is the trimmed form of an id of the list; and normalising
    a second time changes nothing. *)
Theorem uniqIds_normal_form (ids : option (list string)) :
  NoDup (uniqIds ids)
  /\ (forall x : string,
         x ∈ uniqIds ids <-> x <> "" /\ exists y, y ∈ default [] ids /\ x = trim y)
  /\ uniqIds (Some (uniqIds ids)) = uniqIds ids.
Proof.
  split; [apply spreadSet_NoDup |]. split; [apply uniqIds_elem |].
  assert (Forall (fun x => trim x = x /\ nonEmpty x = true) (uniqIds ids)) as Hall.
  { apply Forall_forall. intros x Hx. apply uniqIds_elem in Hx as [Hne (y & _ & ->)].
    split; [apply trim_fixed |]. destruct (trim y); [contradiction | reflexivity]. }
  change (uniqIds (Some (uniqIds ids)))
    with (spreadSet (List.filter nonEmpty (List.map trim (uniqIds ids)))).
  assert (List.filter nonEmpty (List.map trim (uniqIds ids)) = uniqIds ids) as ->.
  { induction Hall as [| x l [Htrim Hne] _ IH]; [reflexivity |].
    cbn [List.map List.filter]. rewrite Htrim, Hne, IH. reflexivity. }
  apply spreadSet_fixed, spreadSet_NoDup.
Qed.

Lemma setHas_uniqIds (ids : option (list string)) (t : string) :
  setHas (uniqIds ids) t = true <-> t <> "" /\ exists y, y ∈ default [] ids /\ t = trim y.
Proof.
  unfold setHas. rewrite bool_decide_eq_true, elem_of_list_to_set. apply uniqIds_elem.
Qed.

(** X12.  What [applyEntryFilters] does with an entry that has a task id:
    the entry is kept exactly when no excluded id, once trimmed, is its task
    id, and the include-only list is blank or has an id that, once trimmed,
    is its task id.  An exclusion therefore wins over an inclusion, and the
    task id of the entry itself is compared as it is, untrimmed. *)
Theorem applyEntryFilters_with_task (alert : AlertConfig.t) (entries : list TimeEntry.t)
    (entry : TimeEntry.t) (t : string) :
  TimeEntry.taskId entry = Some t ->
  t <> "" ->
  entry ∈ applyEntryFilters alert entries
  <-> entry ∈ entries
      /\ (forall y, y ∈ AlertConfig.excludedTaskIds alert -> trim y <> t)
      /\ (Forall (fun y => trim y = "") (default [] (AlertConfig.includeOnlyTaskIds alert))
          \/ exists y, y ∈ default [] (AlertConfig.includeOnlyTaskIds alert) /\ trim y = t).
Proof.
  intros Htask Hne.
  unfold applyEntryFilters. rewrite list_elem_of_In, filter_In, <- list_elem_of_In.
  apply and_iff_compat_l.
  unfold keepEntry, lacksTaskId. rewrite Htask. cbn [from_option id].
  assert (nonEmpty t = true) as -> by (destruct t; [contradiction | reflexivity]).
  cbn [negb].
  pose proof (setHas_uniqIds (Some (AlertConfig.excludedTaskIds alert)) t) as Hexcluded.
  pose proof (setHas_uniqIds (AlertConfig.includeOnlyTaskIds alert) t) as Hinclude.
  pose proof (uniqIds_nil_iff (AlertConfig.includeOnlyTaskIds alert)) as Hblank.
  cbn [from_option id] in Hexcluded.
  destruct (setHas (uniqIds (Some (AlertConfig.excludedTaskIds alert))) t).
  - split; [discriminate |]. intros [Hnot _].
    destruct (proj1 Hexcluded eq_refl) as [_ (y & Hy & ->)]. exfalso. apply (Hnot y Hy eq_refl).
  - assert (forall y, y ∈ AlertConfig.excludedTaskIds alert -> trim y <> t) as Hnot.
    { intros y Hy E. assert (false = true) as Habs; [| discriminate Habs].
      apply Hexcluded. split; [exact Hne | exists y; split; [exact Hy | symmetry; exact E]]. }
    destruct (uniqIds (AlertConfig.includeOnlyTaskIds alert)) as [| i rest] eqn:Hids.
    + cbn. split; [| reflexivity]. intros _. split; [exact Hnot |]. left. apply Hblank. reflexivity.
    + cbn [length Nat.eqb negb andb].
      destruct (setHas (i :: rest) t).
      * cbn. split; [| reflexivity]. intros _. split; [exact Hnot |]. right.
        destruct (proj1 Hinclude eq_refl) as [_ (y & Hy & ->)]. exists y. split; [exact Hy | reflexivity].
      * cbn. split; [discriminate |]. intros [_ [Hall | (y & Hy & E)]].
        -- apply Hblank in Hall. discriminate Hall.
        -- apply Hinclude. split; [exact Hne |]. exists y. split; [exact Hy | symmetry; exact E].
Qed.



Lemma Qfloor_half (m : Z) : Qfloor (inject_Z m + (1 # 2)) = m.
Proof.
  apply Z.le_antisymm.
  - apply Z.lt_succ_r. rewrite Zlt_Qlt.
    apply (Qle_lt_trans _ (inject_Z m + (1 # 2))); [apply Qfloor_le |].
    unfold Z.succ. rewrite inject_Z_plus. apply Qplus_lt_r. reflexivity.
  - rewrite <- (Qfloor_Z m) at 1. apply Qfloor_resp_le.
    rewrite <- (Qplus_0_r (inject_Z m)) at 1.
    apply Qplus_le_compat; [apply Qle_refl | discriminate].
Qed.

Lemma roundHours_integer (n : Z) : (roundHours (inject_Z n) == inject_Z n)%Q.
Proof.
  unfold roundHours, Math_round.
  assert (inject_Z n * 100 + (1 # 2) == inject_Z (n * 100) + (1 # 2))%Q as ->
      by (rewrite inject_Z_mult; reflexivity).
  rewrite Qfloor_half, inject_Z_mult. change (inject_Z 100) with 100%Q. field.
Qed.


Lemma resolveStatus_kinds (alert : AlertConfig.t) (percentUsed : Q) :
  resolveStatus alert percentUsed <> StatusError
  /\ (resolveStatus alert percentUsed = Inactive <-> AlertConfig.active alert = false).
Proof.
  unfold resolveStatus.
  destruct (AlertConfig.active alert); cbn [negb].
  - repeat match goal with |- context [if ?b then _ else _] => destruct b end;
      (split; [discriminate | split; discriminate]).
  - split; [discriminate | split; reflexivity].
Qed.



(** The order of binary64 values. *)

Lemma roundHalfEven_mono (m m' : Q) :
  (m <= m')%Q -> (Double.roundHalfEven m <= Double.roundHalfEven m')%Z.
Proof.
  intros Hle.
  pose proof (Qfloor_resp_le _ _ Hle) as Hfloor.
  pose proof (Qfloor_le m) as Hlow. pose proof (Qlt_floor m) as Hhigh.
  pose proof (Qfloor_le m') as Hlow'. pose proof (Qlt_floor m') as Hhigh'.
  rewrite inject_Z_plus in Hhigh, Hhigh'. change (inject_Z 1) with 1%Q in Hhigh, Hhigh'.
  unfold Double.roundHalfEven, Qlt_bool.
  destruct (Z.eq_dec (Qfloor m) (Qfloor m')) as [Hsame | Hother].
  - rewrite <- Hsame in *. set (f := Qfloor m) in *.
    destruct (Qle_bool (1 # 2) (m - inject_Z f)) eqn:H1; cbn [negb].
    + apply Qle_bool_iff in H1.
      assert (Qle_bool (1 # 2) (m' - inject_Z f) = true) as -> by (apply Qle_bool_iff; lra).
      cbn [negb].
      destruct (Qle_bool (m - inject_Z f) (1 # 2)) eqn:H2; cbn [negb].
      * destruct (Qle_bool (m' - inject_Z f) (1 # 2)); cbn [negb];
          destruct (Z.even f); lia.
      * apply Qle_bool_false in H2.
        assert (Qle_bool (m' - inject_Z f) (1 # 2) = false) as ->
            by (apply Qle_bool_false; lra).
        cbn [negb]. lia.
    + destruct (Qle_bool (1 # 2) (m' - inject_Z f)); cbn [negb]; [| lia].
      destruct (Qle_bool (m' - inject_Z f) (1 # 2)); cbn [negb]; [| lia].
      destruct (Z.even f); lia.
  - assert (Qfloor m + 1 <= Qfloor m')%Z as Hstep by lia.
    destruct (negb (Qle_bool (1 # 2) (m - inject_Z (Qfloor m))));
      destruct (negb (Qle_bool (m - inject_Z (Qfloor m)) (1 # 2)));
      destruct (Z.even (Qfloor m));
      destruct (negb (Qle_bool (1 # 2) (m' - inject_Z (Qfloor m'))));
      destruct (negb (Qle_bool (m' - inject_Z (Qfloor m')) (1 # 2)));
      destruct (Z.even (Qfloor m')); lia.
Qed.

Lemma roundHalfEven_integer (n : Z) : Double.roundHalfEven (inject_Z n) = n.
Proof.
  unfold Double.roundHalfEven. rewrite Qfloor_Z.
  assert (inject_Z n - inject_Z n == 0)%Q as Hrest by ring.
  unfold Qlt_bool. rewrite Hrest. reflexivity.
Qed.

Lemma exponentOf_mono (x y : Q) :
  (0 < x)%Q -> (x <= y)%Q -> (Double.exponentOf x <= Double.exponentOf y)%Z.
Proof.
  intros Hx Hle.
  assert (0 < y)%Q as Hy by lra.
  pose proof (exponentOf_le x Hx) as Hlow. pose proof (exponentOf_lt y Hy) as Hhigh.
  destruct (Z_le_gt_dec (Double.exponentOf x) (Double.exponentOf y)) as [Hok | Hgt];
    [exact Hok | exfalso].
  assert (1 <= 2)%Q as Hbase by discriminate.
  pose proof (Qpower_le_compat_l 2 (Double.exponentOf y + 1) (Double.exponentOf x)
                ltac:(lia) Hbase).
  lra.
Qed.

(** The rounding of a positive number, as [nearest] computes it. *)
Lemma nearest_positive (x : Q) :
  (0 < x)%Q ->
  let ulp := (2 ^ (Z.max (Double.exponentOf x) (-1022) - 52))%Q in
  Double.nearest x = (inject_Z (Double.roundHalfEven (x / ulp)) * ulp)%Q.
Proof.
  intros Hx ulp. unfold Double.nearest.
  assert (Qeq_bool x 0 = false) as ->.
  { destruct (Qeq_bool x 0) eqn:Hzero; [| reflexivity].
    apply Qeq_bool_iff in Hzero. lra. }
  assert (Qlt_bool x 0 = false) as ->.
  { unfold Qlt_bool. apply negb_false_iff, Qle_bool_iff. lra. }
  assert (Qabs x = x) as ->.
  { destruct x as [[| p | p] b]; try reflexivity. unfold Qlt in Hx. cbn in Hx. lia. }
  reflexivity.
Qed.

(** The rounding of a negative number is the opposite of the rounding of
    its absolute value. *)
Lemma nearest_negative (x : Q) :
  (x < 0)%Q -> Double.nearest x = (- Double.nearest (Qabs x))%Q.
Proof.
  intros Hx. destruct x as [[| p | p] b].
  - unfold Qlt in Hx. cbn in Hx. lia.
  - unfold Qlt in Hx. cbn in Hx. lia.
  - reflexivity.
Qed.

Lemma nearest_mono_positive (x y : Q) :
  (0 < x)%Q -> (x <= y)%Q -> (Double.nearest x <= Double.nearest y)%Q.
Proof.
  intros Hx Hle.
  assert (0 < y)%Q as Hy by lra.
  rewrite (nearest_positive x Hx), (nearest_positive y Hy).
  pose proof (exponentOf_mono x y Hx Hle) as Hexp.
  pose proof (exponentOf_lt x Hx) as Hxhigh. pose proof (exponentOf_le y Hy) as Hylow.
  set (ex := Double.exponentOf x) in *. set (ey := Double.exponentOf y) in *.
  assert (1 <= 2)%Q as Hbase by discriminate.
  destruct (Z.eq_dec (Z.max ex (-1022)) (Z.max ey (-1022))) as [Hsame | Hother].
  - rewrite Hsame. set (ulp := (2 ^ (Z.max ey (-1022) - 52))%Q).
    assert (0 < ulp)%Q as Hulp by apply pow2_pos.
    apply Qmult_le_compat_r; [| lra].
    rewrite <- Zle_Qle. apply roundHalfEven_mono.
    apply Qmult_le_compat_r; [exact Hle |]. apply Qlt_le_weak, Qinv_lt_0_compat. exact Hulp.
  - assert (Z.max ex (-1022) + 1 <= ey)%Z as Hgap by lia.
    assert (Z.max ey (-1022) = ey) as -> by lia.
    set (ecx := Z.max ex (-1022)) in *.
    set (ulpx := (2 ^ (ecx - 52))%Q). set (ulpy := (2 ^ (ey - 52))%Q).
    assert (0 < ulpx)%Q as Hulpx by apply pow2_pos.
    assert (0 < ulpy)%Q as Hulpy by apply pow2_pos.
    assert (2 ^ (ex + 1) <= 2 ^ (ecx + 1))%Q as Hx1
        by (apply Qpower_le_compat_l; [subst ecx; lia | exact Hbase]).
    assert (2 ^ (ecx + 1) <= 2 ^ ey)%Q as Hmid
        by (apply Qpower_le_compat_l; [lia | exact Hbase]).
    assert (2 ^ (ecx + 1) == inject_Z (2 ^ 53) * ulpx)%Q as Hpowx.
    { subst ulpx. replace (ecx + 1)%Z with (53 + (ecx - 52))%Z by lia.
      rewrite Qpower_plus by discriminate. reflexivity. }
    assert (2 ^ ey == inject_Z (2 ^ 52) * ulpy)%Q as Hpowy.
    { subst ulpy. replace ey with (52 + (ey - 52))%Z at 1 by lia.
      rewrite Qpower_plus by discriminate. reflexivity. }
    assert (Double.roundHalfEven (x / ulpx) <= 2 ^ 53)%Z as Hnx.
    { rewrite <- (roundHalfEven_integer (2 ^ 53)). apply roundHalfEven_mono.
      apply Qle_shift_div_r; [exact Hulpx |]. rewrite <- Hpowx. lra. }
    assert (2 ^ 52 <= Double.roundHalfEven (y / ulpy))%Z as Hny.
    { rewrite <- (roundHalfEven_integer (2 ^ 52)). apply roundHalfEven_mono.
      apply Qle_shift_div_l; [exact Hulpy |]. rewrite <- Hpowy. exact Hylow. }
    rewrite Zle_Qle in Hnx, Hny.
    apply (Qle_trans _ (inject_Z (2 ^ 53) * ulpx)).
    { apply Qmult_le_compat_r; [exact Hnx | lra]. }
    apply (Qle_trans _ (inject_Z (2 ^ 52) * ulpy)).
    { rewrite <- Hpowx, <- Hpowy. exact Hmid. }
    apply Qmult_le_compat_r; [exact Hny | lra].
Qed.

Lemma nearest_sign (x : Q) :
  ((0 <= x)%Q -> (0 <= Double.nearest x)%Q) /\ ((x <= 0)%Q -> (Double.nearest x <= 0)%Q).
Proof.
  split; intros Hx.
  - exact (proj1 (nearest_error x Hx)).
  - destruct (Qlt_le_dec x 0) as [Hneg | Hnonneg].
    + rewrite (nearest_negative x Hneg).
      pose proof (proj1 (nearest_error (Qabs x) (Qabs_nonneg x))). lra.
    + assert (x == 0)%Q as Hzero by lra.
      rewrite (nearest_value x 0 Hzero). discriminate.
Qed.

(** Rounding keeps the order. *)
Lemma nearest_mono (x y : Q) : (x <= y)%Q -> (Double.nearest x <= Double.nearest y)%Q.
Proof.
  intros Hle.
  destruct (Qlt_le_dec 0 x) as [Hx | Hx].
  - apply nearest_mono_positive; assumption.
  - destruct (Qlt_le_dec y 0) as [Hy | Hy].
    + assert (x < 0)%Q as Hxneg by lra.
      rewrite (nearest_negative x Hxneg), (nearest_negative y Hy).
      assert (0 < Qabs y)%Q as Hpos by (rewrite (Qabs_neg y) by lra; lra).
      assert (Qabs y <= Qabs x)%Q as Habs
          by (rewrite (Qabs_neg y), (Qabs_neg x) by lra; lra).
      pose proof (nearest_mono_positive (Qabs y) (Qabs x) Hpos Habs). lra.
    + pose proof (proj2 (nearest_sign x) Hx). pose proof (proj1 (nearest_sign y) Hy). lra.
Qed.

Lemma round_below_infinity (x : Q) :
  Double.leb (Double.round x) (Double.Infinite false) = true
  /\ Double.leb (Double.Infinite true) (Double.round x) = true.
Proof.
  unfold Double.round. destruct (Qle_bool _ _); [destruct (Qlt_bool x 0) |]; split; reflexivity.
Qed.

Lemma round_mono (x y : Q) :
  (x <= y)%Q -> Double.leb (Double.round x) (Double.round y) = true.
Proof.
  intros Hle. pose proof (nearest_mono x y Hle) as Hmono.
  pose proof (nearest_sign x) as [Hxpos Hxneg]. pose proof (nearest_sign y) as [Hypos Hyneg].
  pose proof (pow2_pos 1024) as Htop.
  unfold Double.round, Qlt_bool.
  set (nx := Double.nearest x) in *. set (ny := Double.nearest y) in *.
  set (top := (2 ^ 1024)%Q) in *.
  destruct (Qle_bool top (Qabs nx)) eqn:Hox; destruct (Qle_bool top (Qabs ny)) eqn:Hoy.
  - destruct (Qle_bool 0 x) eqn:Hsx; destruct (Qle_bool 0 y) eqn:Hsy; try reflexivity.
    apply Qle_bool_iff in Hsx. apply Qle_bool_false in Hsy. lra.
  - destruct (Qle_bool 0 x) eqn:Hsx; [| reflexivity]. exfalso.
    apply Qle_bool_iff in Hsx, Hox. apply Qle_bool_false in Hoy.
    specialize (Hxpos Hsx). assert (0 <= y)%Q as Hy by lra. specialize (Hypos Hy).
    rewrite (Qabs_pos nx Hxpos) in Hox. rewrite (Qabs_pos ny Hypos) in Hoy. lra.
  - destruct (Qle_bool 0 y) eqn:Hsy; [reflexivity |]. exfalso.
    apply Qle_bool_false in Hsy, Hox. apply Qle_bool_iff in Hoy.
    assert (y <= 0)%Q as Hy by lra. specialize (Hyneg Hy).
    assert (x <= 0)%Q as Hx by lra. specialize (Hxneg Hx).
    rewrite (Qabs_neg nx Hxneg) in Hox. rewrite (Qabs_neg ny Hyneg) in Hoy. lra.
  - cbn [Double.leb]. apply Qle_bool_iff. exact Hmono.
Qed.

Lemma leb_refl (a : Double.t) : a <> Double.NaN -> Double.leb a a = true.
Proof.
  destruct a as [x | [|] |]; intros Hnan; try reflexivity; [| congruence].
  cbn. apply Qle_bool_iff. apply Qle_refl.
Qed.

Lemma leb_trans (a b c : Double.t) :
  Double.leb a b = true -> Double.leb b c = true -> Double.leb a c = true.
Proof.
  destruct a as [x | [|] |], b as [y | [|] |], c as [z | [|] |]; cbn;
    try discriminate; try reflexivity.
  intros Hxy Hyz. apply Qle_bool_iff in Hxy, Hyz. apply Qle_bool_iff. lra.
Qed.

Lemma div_mono (a b : Double.t) (c : Q) :
  (0 < c)%Q -> Double.leb a b = true ->
  Double.leb (Double.div a (Double.Finite c)) (Double.div b (Double.Finite c)) = true.
Proof.
  intros Hc Hle.
  assert (Qeq_bool c 0 = false) as Hzero.
  { destruct (Qeq_bool c 0) eqn:E; [| reflexivity]. apply Qeq_bool_iff in E. lra. }
  assert (Qlt_bool c 0 = false) as Hsign.
  { unfold Qlt_bool. apply negb_false_iff, Qle_bool_iff. lra. }
  destruct a as [x | [|] |], b as [y | [|] |]; cbn in Hle; try discriminate Hle;
    cbn [Double.div]; rewrite ?Hzero, ?Hsign; cbn [xorb];
    try reflexivity; try apply round_below_infinity.
  apply Qle_bool_iff in Hle. apply round_mono.
  apply Qmult_le_compat_r; [exact Hle |]. apply Qlt_le_weak, Qinv_lt_0_compat. exact Hc.
Qed.

Lemma mul_mono (a b : Double.t) (c : Q) :
  (0 < c)%Q -> Double.leb a b = true ->
  Double.leb (Double.mul a (Double.Finite c)) (Double.mul b (Double.Finite c)) = true.
Proof.
  intros Hc Hle.
  assert (Qeq_bool c 0 = false) as Hzero.
  { destruct (Qeq_bool c 0) eqn:E; [| reflexivity]. apply Qeq_bool_iff in E. lra. }
  assert (Qlt_bool c 0 = false) as Hsign.
  { unfold Qlt_bool. apply negb_false_iff, Qle_bool_iff. lra. }
  destruct a as [x | [|] |], b as [y | [|] |]; cbn in Hle; try discriminate Hle;
    cbn [Double.mul]; rewrite ?Hzero, ?Hsign; cbn [xorb];
    try reflexivity; try apply round_below_infinity.
  apply Qle_bool_iff in Hle. apply round_mono.
  apply Qmult_le_compat_r; [exact Hle | lra].
Qed.

Lemma Double_Math_round_mono (a b : Double.t) :
  Double.leb a b = true -> Double.leb (Double.Math_round a) (Double.Math_round b) = true.
Proof.
  destruct a as [x | [|] |], b as [y | [|] |]; cbn [Double.leb Double.Math_round];
    try discriminate; try reflexivity.
  intros Hle. apply Qle_bool_iff in Hle. apply Qle_bool_iff.
  rewrite <- Zle_Qle. apply Qfloor_resp_le. lra.
Qed.

Lemma Double_roundHours_mono (a b : Double.t) :
  Double.leb a b = true -> Double.leb (Double.roundHours a) (Double.roundHours b) = true.
Proof.
  intros Hle. unfold Double.roundHours.
  apply div_mono; [reflexivity |]. apply Double_Math_round_mono.
  apply mul_mono; [reflexivity | exact Hle].
Qed.

Lemma sub_mono_l (a b : Double.t) (c : Q) :
  Double.leb a b = true ->
  Double.leb (Double.sub a (Double.Finite c)) (Double.sub b (Double.Finite c)) = true.
Proof.
  intros Hle.
  destruct a as [x | [|] |], b as [y | [|] |]; cbn in Hle; try discriminate Hle;
    cbn [Double.sub Double.neg Double.add];
    try reflexivity; try apply round_below_infinity.
  apply Qle_bool_iff in Hle. apply round_mono. lra.
Qed.

Lemma sub_anti_r (a b : Double.t) (c : Q) :
  Double.leb a b = true ->
  Double.leb (Double.sub (Double.Finite c) b) (Double.sub (Double.Finite c) a) = true.
Proof.
  intros Hle.
  destruct a as [x | [|] |], b as [y | [|] |]; cbn in Hle; try discriminate Hle;
    cbn [Double.sub Double.neg Double.add negb];
    try reflexivity; try apply round_below_infinity.
  apply Qle_bool_iff in Hle. apply round_mono. lra.
Qed.

Lemma Double_Math_max_mono (a b : Double.t) :
  Double.leb a b = true ->
  Double.leb (Double.Math_max (Double.Finite 0) a) (Double.Math_max (Double.Finite 0) b) = true.
Proof.
  destruct a as [x | [|] |], b as [y | [|] |]; cbn; try discriminate; try reflexivity.
  - intros Hle. apply Qle_bool_iff in Hle.
    destruct (Qle_bool 0 x) eqn:Hx; destruct (Qle_bool 0 y) eqn:Hy; cbn;
      apply Qle_bool_iff; try lra.
    + apply Qle_bool_iff in Hx. apply Qle_bool_false in Hy. lra.
    + apply Qle_bool_iff in Hy. exact Hy.
  - intros _. destruct (Qle_bool 0 x); reflexivity.
  - intros _. destruct (Qle_bool 0 y) eqn:Hy; cbn; [exact Hy | reflexivity].
Qed.

Lemma Double_resolveStatus_mono (alert : AlertConfig.t) (p q : Double.t) :
  Double.leb p q = true ->
  (Double.resolveStatus alert p = Red -> Double.resolveStatus alert q = Red)
  /\ (Double.resolveStatus alert p = Yellow -> Double.resolveStatus alert q <> Green)
  /\ (Double.resolveStatus alert q = Green -> Double.resolveStatus alert p = Green).
Proof.
  intros Hle. unfold Double.resolveStatus.
  destruct (AlertConfig.active alert); cbn [negb]; [| repeat split; congruence].
  set (critical := Double.Finite (AlertConfig.criticalThresholdPct alert)).
  set (warning := Double.Finite (AlertConfig.warningThresholdPct alert)).
  destruct (Double.leb critical p) eqn:Hcp.
  - rewrite (leb_trans _ _ _ Hcp Hle). repeat split; congruence.
  - destruct (Double.leb warning p) eqn:Hwp.
    + rewrite (leb_trans _ _ _ Hwp Hle).
      destruct (Double.leb critical q); repeat split; congruence.
    + destruct (Double.leb critical q); [repeat split; congruence |].
      destruct (Double.leb warning q); repeat split; congruence.
Qed.

(** X15.  More hours used never give a milder snapshot, in double
    precision.  For one alert and two lists of entries, the second with at
    least the hours used of the first (the [hoursUsed] that the snapshots
    report, neither of them [NaN]): the percentage of the second snapshot
    is at least that of the first, its remaining hours are at most and its
    hours over budget at least those of the first; if the first is red so
    is the second; if the first is yellow the second is not green.  The
    hours used are compared, not the totals of the durations: two lists of
    the same total can differ in [hoursUsed]. *)
Theorem buildSnapshot_status_monotone (now : string) (alert : AlertConfig.t)
    (fewer more : list TimeEntry.t) (warningMessage : option string) :
  let before := Double.buildSnapshot now alert fewer warningMessage in
  let after := Double.buildSnapshot now alert more warningMessage in
  Double.leb (Double.hoursUsed before) (Double.hoursUsed after) = true ->
  Double.leb (Double.percentUsed before) (Double.percentUsed after) = true
  /\ Double.leb (Double.remainingHours after) (Double.remainingHours before) = true
  /\ Double.leb (Double.overByHours before) (Double.overByHours after) = true
  /\ (Double.status before = Red -> Double.status after = Red)
  /\ (Double.status before = Yellow -> Double.status after <> Green)
  /\ (Double.status after = Green -> Double.status before = Green).
Proof.
  intros before after Hused.
  subst before after. cbn [Double.buildSnapshot Double.hoursUsed Double.percentUsed
                             Double.remainingHours Double.overByHours Double.status] in *.
  set (h1 := Double.roundHours (Double.sumHours fewer)) in *.
  set (h2 := Double.roundHours (Double.sumHours more)) in *.
  set (budget := AlertConfig.budgetHours alert).
  assert (Double.leb
            (Double.roundHours
               (if Qlt_bool 0 budget
                then Double.mul (Double.div h1 (Double.Finite budget)) (Double.Finite 100)
                else Double.Finite 0))
            (Double.roundHours
               (if Qlt_bool 0 budget
                then Double.mul (Double.div h2 (Double.Finite budget)) (Double.Finite 100)
                else Double.Finite 0)) = true) as Hpercent.
  { destruct (Qlt_bool 0 budget) eqn:Hbudget; [| reflexivity].
    unfold Qlt_bool in Hbudget. apply negb_true_iff, Qle_bool_false in Hbudget.
    apply Double_roundHours_mono, mul_mono; [reflexivity |].
    apply div_mono; assumption. }
  split; [exact Hpercent |]. split; [| split].
  - apply Double_roundHours_mono, Double_Math_max_mono, sub_anti_r. exact Hused.
  - apply Double_roundHours_mono, Double_Math_max_mono, sub_mono_l. exact Hused.
  - exact (Double_resolveStatus_mono alert _ _ Hpercent).
Qed.

(** X12 at an alert that excludes [task-1] (written with spaces around it)
    and includes only [task-1] and [task-2]: the entry of [task-1] is
    dropped although it is included. *)
Lemma applyEntryFilters_with_task_witness :
  let alert := sampleAlert true 50 [" task-1 "] (Some ["task-1"; "task-2"]) None in
  let entry := sampleEntry "entry-1" (Some "task-1") 1000 in
  entry ∉ applyEntryFilters alert [entry].
Proof.
  intros alert entry Hin.
  apply (applyEntryFilters_with_task alert [entry] entry "task-1") in Hin.
  - destruct Hin as (_ & Hnot & _). apply (Hnot " task-1 "); [apply list_elem_of_here | reflexivity].
  - reflexivity.
  - discriminate.
Defined.


(** X15 at 40 and then 48 hours under a budget of 50: yellow, then not
    green. *)
Lemma buildSnapshot_status_monotone_witness :
  let alert := sampleAlert true 50 [] None None in
  let fewer := [sampleEntry "entry-1" None 144000000] in
  let more := [sampleEntry "entry-1" None 144000000; sampleEntry "entry-2" None 28800000] in
  Double.status (Double.buildSnapshot "now" alert fewer None) = Yellow
  /\ Double.status (Double.buildSnapshot "now" alert more None) <> Green.
Proof.
  intros alert fewer more.
  destruct (buildSnapshot_status_monotone "now" alert fewer more None)
    as (_ & _ & _ & _ & Hyellow & _).
  - vm_compute. reflexivity.
  - split; [vm_compute; reflexivity | apply Hyellow; vm_compute; reflexivity].
Defined.

(** ** Further properties of the orchestrator *)

Section RequestErrors.

Variable W : Type.
Variable fetch : W -> HttpRequest -> W * FetchOutcome.

Lemma attemptStep_thrown (attempt : Z) (o : FetchOutcome) (e : Exn) :
  (attemptStep attempt o).2 = inl (Thrown e) ->
  e = attemptError o
  /\ match o with Responded status _ => response_ok status = false | _ => True end.
Proof.
  intros Hthrown.
  destruct (attemptStep_shape attempt o) as [[payload Hstep] | [Hstep | [_ Hstep]]];
    rewrite Hstep in Hthrown; cbn [snd] in Hthrown; [discriminate | | discriminate].
  injection Hthrown as <-. split; [reflexivity |].
  destruct o as [| status payload | status]; [exact I | | exact I].
  destruct (response_ok status) eqn:Hok; [| reflexivity].
  rewrite (attemptStep_ok attempt status payload Hok) in Hstep. discriminate Hstep.
Qed.

Lemma requestLoop_thrown (left : nat) :
  forall (attempt : Z) (w : W) (r : HttpRequest) (e : Exn),
    (attempt + Z.of_nat left = MAX_ATTEMPTS + 1)%Z -> 0 < left ->
    (requestLoop W fetch left attempt w r).2 = Thrown e ->
    exists o : FetchOutcome,
      e = attemptError o
      /\ match o with Responded status _ => response_ok status = false | _ => True end.
Proof.
  induction left as [| left IH]; intros attempt w r e Hsum Hpos; [lia |].
  rewrite requestLoop_S. destruct (fetch w r) as [w1 o].
  pose proof (attemptStep_thrown attempt o) as Hthrown.
  destruct (attemptStep_shape attempt o) as [[payload Hstep] | [Hstep | [Hlt Hstep]]];
    rewrite Hstep in Hthrown |- *; cbn [fst snd] in *.
  - discriminate.
  - intros [= <-]. exists o. apply Hthrown. reflexivity.
  - assert (0 < left) as Hleft by (unfold MAX_ATTEMPTS in *; lia).
    specialize (IH (attempt + 1)%Z w1 r e ltac:(lia) Hleft).
    destruct (requestLoop W fetch left (attempt + 1)%Z w1 r) as [[w2 evs] res].
    exact IH.
Qed.

(** X16.  [request] throws nothing but a [ClickUpApiError]: either the
    network error, without status, when the last attempt got no response
    or one whose JSON body could not be read, or an error with the status
    of a response that was not a success.  The
    [catch] of [refreshSingleAlert] therefore reports the message of every
    error that [request] throws as it is, and never replaces it by its
    generic message. *)
Theorem request_throws_api_errors (token : string) (w : W) (path : string) (query : Query)
    (e : Exn) :
  (request W fetch token w path query).2 = Thrown e ->
  (e = ClickUpApiError "Network error while contacting ClickUp API." None None
   \/ exists (message : string) (status : Z) (code : option string),
       e = ClickUpApiError message (Some status) code /\ response_ok status = false)
  /\ refreshErrorMessage e = exnMessage e.
Proof.
  unfold request.
  pose proof (requestLoop_thrown (Z.to_nat MAX_ATTEMPTS) 1%Z w
                {| req_token := token; req_path := path; req_params := definedParams query |} e
                eq_refl ltac:(unfold MAX_ATTEMPTS; cbn; lia)) as Hthrown.
  destruct (requestLoop W fetch (Z.to_nat MAX_ATTEMPTS) 1%Z w _) as [[w' evs] res].
  cbn [snd] in *. intros Hres.
  destruct (Hthrown Hres) as ([| status payload | status] & -> & Hok);
    [split; [left; reflexivity | reflexivity] | | split; [left; reflexivity | reflexivity]].
  - unfold attemptError.
    destruct (status =? 401)%Z eqn:H401.
    { apply Z.eqb_eq in H401. subst status. split; [| reflexivity].
      right. eexists. eexists. eexists. split; [reflexivity | exact Hok]. }
    destruct (status =? 403)%Z eqn:H403.
    { apply Z.eqb_eq in H403. subst status. split; [| reflexivity].
      right. eexists. eexists. eexists. split; [reflexivity | exact Hok]. }
    split; [| reflexivity].
    right. eexists. eexists. eexists. split; [reflexivity | exact Hok].
Qed.

End RequestErrors.

(** X16 at a provider that answers 404 with a message of its own. *)
Lemma request_throws_api_errors_witness :
  let e := ClickUpApiError "Team not found" (Some 404%Z) None in
  (e = ClickUpApiError "Network error while contacting ClickUp API." None None
   \/ exists (message : string) (status : Z) (code : option string),
       e = ClickUpApiError message (Some status) code /\ response_ok status = false)
  /\ refreshErrorMessage e = exnMessage e.
Proof.
  apply (request_throws_api_errors unit
           (constantFetch (Responded 404 (JObj [("err", JStr "Team not found")])))
           "token" tt "/team" []).
  reflexivity.
Defined.

Section RefreshFacts.

Variable W : Type.
Variable fetch : W -> HttpRequest -> W * FetchOutcome.
Variable NumberOf : string -> option Q.
Variable numToString : jsnum -> string.
Variable clock : W -> string.
Variable startOfMonthMs endOfMonthMs : W -> jsnum.
Variable startOfDayMs endOfDayMs : string -> jsnum.
Variable getScopeTree : string -> W -> W * Completion (list ScopeTreeTeam).

Local Abbreviation refreshOne :=
  (refreshSingleAlert W fetch NumberOf numToString clock startOfMonthMs endOfMonthMs
     startOfDayMs endOfDayMs getScopeTree).
Local Abbreviation paramsOf := (timeEntriesParamsOf W startOfMonthMs endOfMonthMs
                                     startOfDayMs endOfDayMs).

Lemma sameId_eq (id_ : string) (optionalId : option string) :
  sameId id_ optionalId = true -> optionalId = Some id_.
Proof.
  destruct optionalId as [other |]; [| discriminate].
  cbn. intros H. apply String.eqb_eq in H. congruence.
Qed.

(** X17.  When [getScopeWarning] has no warning, the scope of the alert is
    in the tree: the tree has the workspace of the alert; for a folder
    alert (and a custom alert on a folder) that workspace has the folder of
    the alert; for a list alert (and a custom alert on a list) one of its
    folders has the list of the alert. *)
Theorem getScopeWarning_none_scope_found (alert : AlertConfig.t) (tree : list ScopeTreeTeam) :
  getScopeWarning alert tree = None ->
  exists team : ScopeTreeTeam,
    team ∈ tree
    /\ team_id team = AlertConfig.teamId alert
    /\ (needsFolder alert = true ->
        exists folder, folder ∈ team_folders team
                       /\ AlertConfig.folderId alert = Some (folder_id folder))
    /\ (needsList alert = true ->
        exists folder l, folder ∈ team_folders team
                         /\ l ∈ folder_lists folder
                         /\ AlertConfig.listId alert = Some (list_id l)).
Proof.
  unfold getScopeWarning.
  destruct (List.find _ tree) as [team |] eqn:Hfind; [| discriminate].
  apply find_some in Hfind as [Hin Hid]. apply String.eqb_eq in Hid.
  destruct (needsFolder alert && _) eqn:Hfolder; [discriminate |].
  destruct (needsList alert && _) eqn:Hlist; [discriminate |].
  intros _. exists team. split; [apply list_elem_of_In, Hin |]. split; [exact Hid |]. split.
  - intros Hneeds. rewrite Hneeds in Hfolder. cbn [andb] in Hfolder.
    apply negb_false_iff, existsb_exists in Hfolder as (folder & Hfin & Hsame).
    exists folder. split; [apply list_elem_of_In, Hfin | apply sameId_eq, Hsame].
  - intros Hneeds. rewrite Hneeds in Hlist. cbn [andb] in Hlist.
    apply negb_false_iff, existsb_exists in Hlist as (folder & Hfin & Hlists).
    apply existsb_exists in Hlists as (l & Hlin & Hsame).
    exists folder, l. split; [apply list_elem_of_In, Hfin |].
    split; [apply list_elem_of_In, Hlin | apply sameId_eq, Hsame].
Qed.

(** X18.  Whatever happens during a refresh, the result is coherent: the
    alert returned carries a snapshot, with the budget of the alert and the
    time of the refresh; a successful result has no error message and a
    snapshot that is not in error; a failed result has an error message,
    which is also the error message of its snapshot, whose status is
    [error].  Identity, position, scope, budget, thresholds and activity of
    the alert are as they were. *)
Theorem refreshSingleAlert_result_coherent (token : string) (w : W) (alert : AlertConfig.t)
    (scopeTreeOverride : option (list ScopeTreeTeam)) :
  let result := (refreshOne token w alert scopeTreeOverride).2 in
  let refreshed := RefreshAlertResult.alert result in
  (exists snapshot : AlertSnapshot.t,
      AlertConfig.lastSnapshot refreshed = Some snapshot
      /\ AlertConfig.lastRefreshedAt refreshed = Some (AlertSnapshot.lastRefreshedAt snapshot)
      /\ AlertSnapshot.budgetHours snapshot = AlertConfig.budgetHours alert
      /\ (RefreshAlertResult.success result = true ->
          RefreshAlertResult.errorMessage result = None
          /\ AlertSnapshot.errorMessage snapshot = None
          /\ AlertSnapshot.status snapshot <> StatusError)
      /\ (RefreshAlertResult.success result = false ->
          exists message : string,
            RefreshAlertResult.errorMessage result = Some message
            /\ AlertSnapshot.errorMessage snapshot = Some message
            /\ AlertSnapshot.status snapshot = StatusError))
  /\ AlertConfig.id refreshed = AlertConfig.id alert
  /\ AlertConfig.order refreshed = AlertConfig.order alert
  /\ AlertConfig.type refreshed = AlertConfig.type alert
  /\ AlertConfig.teamId refreshed = AlertConfig.teamId alert
  /\ AlertConfig.folderId refreshed = AlertConfig.folderId alert
  /\ AlertConfig.listId refreshed = AlertConfig.listId alert
  /\ AlertConfig.budgetHours refreshed = AlertConfig.budgetHours alert
  /\ AlertConfig.warningThresholdPct refreshed = AlertConfig.warningThresholdPct alert
  /\ AlertConfig.criticalThresholdPct refreshed = AlertConfig.criticalThresholdPct alert
  /\ AlertConfig.active refreshed = AlertConfig.active alert
  /\ AlertConfig.createdAt refreshed = AlertConfig.createdAt alert.
Proof.
  assert (forall now message,
             let result := failedResult now alert message in
             let refreshed := RefreshAlertResult.alert result in
             (exists snapshot : AlertSnapshot.t,
                 AlertConfig.lastSnapshot refreshed = Some snapshot
                 /\ AlertConfig.lastRefreshedAt refreshed
                    = Some (AlertSnapshot.lastRefreshedAt snapshot)
                 /\ AlertSnapshot.budgetHours snapshot = AlertConfig.budgetHours alert
                 /\ (RefreshAlertResult.success result = true ->
                     RefreshAlertResult.errorMessage result = None
                     /\ AlertSnapshot.errorMessage snapshot = None
                     /\ AlertSnapshot.status snapshot <> StatusError)
                 /\ (RefreshAlertResult.success result = false ->
                     exists message : string,
                       RefreshAlertResult.errorMessage result = Some message
                       /\ AlertSnapshot.errorMessage snapshot = Some message
                       /\ AlertSnapshot.status snapshot = StatusError))
             /\ AlertConfig.id refreshed = AlertConfig.id alert
             /\ AlertConfig.order refreshed = AlertConfig.order alert
             /\ AlertConfig.type refreshed = AlertConfig.type alert
             /\ AlertConfig.teamId refreshed = AlertConfig.teamId alert
             /\ AlertConfig.folderId refreshed = AlertConfig.folderId alert
             /\ AlertConfig.listId refreshed = AlertConfig.listId alert
             /\ AlertConfig.budgetHours refreshed = AlertConfig.budgetHours alert
             /\ AlertConfig.warningThresholdPct refreshed = AlertConfig.warningThresholdPct alert
             /\ AlertConfig.criticalThresholdPct refreshed
                = AlertConfig.criticalThresholdPct alert
             /\ AlertConfig.active refreshed = AlertConfig.active alert
             /\ AlertConfig.createdAt refreshed = AlertConfig.createdAt alert) as Hfailed.
  { intros now message. cbn. split; [| repeat split].
    eexists. split; [reflexivity |]. split; [reflexivity |]. split; [reflexivity |].
    split; [discriminate |]. intros _. exists message. repeat split. }
  unfold refreshSingleAlert.
  destruct (AlertConfig.active alert) eqn:Hactive; cbn [negb].
  - destruct (match scopeTreeOverride with
              | Some tree => (w, Returned tree)
              | None => getScopeTree token w
              end) as [w1 [scopeTree | e]]; [| apply Hfailed].
    destruct (getScopeWarning alert scopeTree); [apply Hfailed |].
    destruct (getTimeEntries W fetch NumberOf numToString token w1 _)
      as [[w2 evs] [entries | e]]; [| apply Hfailed].
    cbn [snd RefreshAlertResult.alert RefreshAlertResult.success
         RefreshAlertResult.errorMessage].
    split; [| cbn; rewrite ?Hactive; repeat split].
    eexists. split; [reflexivity |]. split; [reflexivity |]. split; [reflexivity |].
    split; [| discriminate]. intros _. split; [reflexivity |]. split; [reflexivity |].
    apply resolveStatus_kinds.
  - cbn [snd RefreshAlertResult.alert RefreshAlertResult.success
         RefreshAlertResult.errorMessage].
    split; [| cbn; rewrite ?Hactive; repeat split].
    eexists. split; [reflexivity |]. split; [reflexivity |]. split; [reflexivity |].
    split; [| discriminate]. intros _. split; [reflexivity |]. split; [reflexivity |].
    discriminate.
Qed.

(** X19.  An alert that is not active is refreshed without asking the
    provider anything: no scope tree, no request, no event; the result is a
    success whose snapshot is [inactive], counts no entry and no hour, and
    leaves the two task id lists as they were. *)
Theorem refreshSingleAlert_inactive (token : string) (w : W) (alert : AlertConfig.t)
    (scopeTreeOverride : option (list ScopeTreeTeam)) :
  AlertConfig.active alert = false ->
  exists result : RefreshAlertResult.t,
    refreshOne token w alert scopeTreeOverride = (w, [], result)
    /\ RefreshAlertResult.success result = true
    /\ AlertConfig.excludedTaskIds (RefreshAlertResult.alert result)
       = AlertConfig.excludedTaskIds alert
    /\ AlertConfig.includeOnlyTaskIds (RefreshAlertResult.alert result)
       = AlertConfig.includeOnlyTaskIds alert
    /\ exists snapshot : AlertSnapshot.t,
        AlertConfig.lastSnapshot (RefreshAlertResult.alert result) = Some snapshot
        /\ AlertSnapshot.status snapshot = Inactive
        /\ (AlertSnapshot.entryCount snapshot == 0)%Q
        /\ (AlertSnapshot.hoursUsed snapshot == 0)%Q
        /\ (AlertSnapshot.percentUsed snapshot == 0)%Q.
Proof.
  intros Hactive. unfold refreshSingleAlert. rewrite Hactive. cbn [negb].
  eexists. split; [reflexivity |].
  cbn [RefreshAlertResult.success RefreshAlertResult.alert withSnapshot
       AlertConfig.excludedTaskIds AlertConfig.includeOnlyTaskIds AlertConfig.lastSnapshot].
  split; [reflexivity |]. split; [reflexivity |]. split; [reflexivity |].
  eexists. split; [reflexivity |].
  cbn [asInactive buildSnapshot AlertSnapshot.status AlertSnapshot.entryCount
       AlertSnapshot.hoursUsed AlertSnapshot.percentUsed AlertSnapshot.overByHours length].
  pose proof (roundHours_integer 0) as Hzero. change (inject_Z 0) with 0%Q in Hzero.
  change (sumHours []) with 0%Q.
  split; [reflexivity |]. split; [reflexivity |]. split; [exact Hzero |].
  destruct (Qlt_bool 0 (AlertConfig.budgetHours alert)); [| exact Hzero].
  rewrite Hzero.
  assert (0 / AlertConfig.budgetHours alert * 100 == 0)%Q as -> by (unfold Qdiv; ring).
  exact Hzero.
Qed.

End RefreshFacts.

Section RefreshRuns.

Variable W : Type.
Variable fetch : W -> HttpRequest -> W * FetchOutcome.
Variable NumberOf : string -> option Q.
Variable numToString : jsnum -> string.
Variable clock : W -> string.
Variable startOfMonthMs endOfMonthMs : W -> jsnum.
Variable startOfDayMs endOfDayMs : string -> jsnum.
Variable getScopeTree : string -> W -> W * Completion (list ScopeTreeTeam).

Local Abbreviation refreshOne :=
  (refreshSingleAlert W fetch NumberOf numToString clock startOfMonthMs endOfMonthMs
     startOfDayMs endOfDayMs getScopeTree).
Local Abbreviation paramsOf := (timeEntriesParamsOf W startOfMonthMs endOfMonthMs
                                     startOfDayMs endOfDayMs).

Lemma computeTimeRange_ends (w : W) (alert : AlertConfig.t) :
  let timeRange := computeTimeRange W startOfMonthMs endOfMonthMs startOfDayMs endOfDayMs
                     w alert in
  (range_startMs timeRange = None <-> range_endMs timeRange = None)
  /\ (AlertConfig.timeRangeMode alert = NoRange -> range_startMs timeRange = None)
  /\ (AlertConfig.timeRangeMode alert = Monthly ->
      range_startMs timeRange = Some (startOfMonthMs w)
      /\ range_endMs timeRange = Some (endOfMonthMs w)).
Proof.
  unfold computeTimeRange.
  destruct (AlertConfig.timeRangeMode alert); cbn.
  - repeat split; intros; discriminate.
  - destruct (AlertConfig.startDate alert) as [[| c1 r1] |],
      (AlertConfig.endDate alert) as [[| c2 r2] |]; cbn;
      repeat split; intros; (reflexivity || discriminate).
  - repeat split; intros; discriminate.
Qed.

(** X20.  The requests of a refresh whose scope tree is handed over are
    those of the scope of the alert.  Each of them goes to the time entries
    of the workspace of the alert with the token of the caller; it is sent
    for an active alert only, and only when the scope check found no fault
    with the tree; it names the folder of the alert exactly when the alert
    is on a folder, and the list exactly when it is on a list; it names no
    assignee; it has both ends of the time range or neither, neither for a
    cumulative alert and the two ends of the month for a monthly one.
    (Without a tree handed over, [getScopeTree] sends requests of its own
    before these; they are not part of this statement.) *)
Theorem refreshSingleAlert_request_scope (token : string) (w : W) (alert : AlertConfig.t)
    (tree : list ScopeTreeTeam) :
  Forall
    (fun r =>
       AlertConfig.active alert = true
       /\ getScopeWarning alert tree = None
       /\ req_token r = token
       /\ req_path r = "/team/" +:+ AlertConfig.teamId alert +:+ "/time_entries"
       /\ assoc "folder_id" (req_params r)
          = (if needsFolder alert then QStr <$> AlertConfig.folderId alert else None)
       /\ assoc "list_id" (req_params r)
          = (if needsList alert then QStr <$> AlertConfig.listId alert else None)
       /\ assoc "assignee" (req_params r) = None
       /\ (assoc "start_date" (req_params r) = None <-> assoc "end_date" (req_params r) = None)
       /\ (AlertConfig.timeRangeMode alert = NoRange ->
           assoc "start_date" (req_params r) = None)
       /\ (AlertConfig.timeRangeMode alert = Monthly ->
           assoc "start_date" (req_params r) = Some (QNum (startOfMonthMs w))
           /\ assoc "end_date" (req_params r) = Some (QNum (endOfMonthMs w))))
    (requestsOf (refreshOne token w alert (Some tree)).1.2).
Proof.
  unfold refreshSingleAlert.
  destruct (AlertConfig.active alert) eqn:Hactive; cbn [negb]; [| constructor].
  destruct (getScopeWarning alert tree) eqn:Hwarning; [constructor |].
  pose proof (getTimeEntries_unfiltered W fetch NumberOf numToString token w
                (paramsOf w alert) eq_refl) as Hassignee.
  pose proof (getTimeEntries_requests_forall W fetch NumberOf numToString
                (fun r =>
                   req_token r = token
                   /\ req_path r = "/team/" +:+ AlertConfig.teamId alert +:+ "/time_entries"
                   /\ assoc "start_date" (req_params r) = QNum <$> p_startMs (paramsOf w alert)
                   /\ assoc "end_date" (req_params r) = QNum <$> p_endMs (paramsOf w alert)
                   /\ assoc "folder_id" (req_params r)
                      = QStr <$> p_folderId (paramsOf w alert)
                   /\ assoc "list_id" (req_params r) = QStr <$> p_listId (paramsOf w alert))
                token w (paramsOf w alert)) as Hshape.
  destruct (getTimeEntries W fetch NumberOf numToString token w (paramsOf w alert))
    as [[w2 evs] res].
  cbn [fst snd] in Hassignee, Hshape.
  assert (Forall
            (fun r =>
               req_token r = token
               /\ req_path r = "/team/" +:+ AlertConfig.teamId alert +:+ "/time_entries"
               /\ assoc "start_date" (req_params r) = QNum <$> p_startMs (paramsOf w alert)
               /\ assoc "end_date" (req_params r) = QNum <$> p_endMs (paramsOf w alert)
               /\ assoc "folder_id" (req_params r) = QStr <$> p_folderId (paramsOf w alert)
               /\ assoc "list_id" (req_params r) = QStr <$> p_listId (paramsOf w alert))
            (requestsOf evs)) as Hparams.
  { apply Hshape. intros assigneeValue page cursor.
    destruct (timeEntriesQuery_params (paramsOf w alert) assigneeValue page cursor)
      as (_ & Hstart & Hend & Hfolder & Hlist & _).
    cbn [req_token req_path req_params]. repeat split; assumption. }
  assert (Forall
            (fun r =>
               true = true
               /\ @None string = None
               /\ req_token r = token
               /\ req_path r = "/team/" +:+ AlertConfig.teamId alert +:+ "/time_entries"
               /\ assoc "folder_id" (req_params r)
                  = (if needsFolder alert then QStr <$> AlertConfig.folderId alert else None)
               /\ assoc "list_id" (req_params r)
                  = (if needsList alert then QStr <$> AlertConfig.listId alert else None)
               /\ assoc "assignee" (req_params r) = None
               /\ (assoc "start_date" (req_params r) = None
                   <-> assoc "end_date" (req_params r) = None)
               /\ (AlertConfig.timeRangeMode alert = NoRange ->
                   assoc "start_date" (req_params r) = None)
               /\ (AlertConfig.timeRangeMode alert = Monthly ->
                   assoc "start_date" (req_params r) = Some (QNum (startOfMonthMs w))
                   /\ assoc "end_date" (req_params r) = Some (QNum (endOfMonthMs w))))
            (requestsOf evs)) as Hall.
  { apply Forall_forall. intros r Hr.
    rewrite Forall_forall in Hassignee, Hparams.
    specialize (Hassignee r Hr).
    destruct (Hparams r Hr) as (Htoken & Hpath & Hstart & Hend & Hfolder & Hlist).
    destruct (computeTimeRange_ends w alert) as (Hends & Hnone & Hmonthly).
    cbn [timeEntriesParamsOf p_startMs p_endMs p_folderId p_listId] in *.
    split; [reflexivity |]. split; [reflexivity |].
    split; [exact Htoken |]. split; [exact Hpath |]. split.
    { rewrite Hfolder. destruct (needsFolder alert); reflexivity. }
    split.
    { rewrite Hlist. destruct (needsList alert); reflexivity. }
    split; [exact Hassignee |]. split; [| split].
    - rewrite Hstart, Hend.
      destruct (range_startMs _), (range_endMs _); cbn in *;
        split; intros; try reflexivity; try discriminate;
        destruct Hends as [H1 H2]; (discriminate (H1 eq_refl) || discriminate (H2 eq_refl)).
    - intros Hmode. rewrite Hstart, (Hnone Hmode). reflexivity.
    - intros Hmode. destruct (Hmonthly Hmode) as [Hs He].
      rewrite Hstart, Hend, Hs, He. split; reflexivity. }
  destruct res; exact Hall.
Qed.

(** X21.  A token that the provider refuses fails the refresh at once: for
    an active alert whose scope is in the tree handed over, a 401 that is
    read (its content type is not JSON, or its body parses) on the first
    attempt of the first page ends the refresh after that one attempt, with
    the message of the UNAUTHORIZED error as the error of the result. *)
Theorem refreshSingleAlert_unauthorized (token : string) (w w1 : W) (alert : AlertConfig.t)
    (tree : list ScopeTreeTeam) (payload : JSON) :
  let r := {| req_token := token;
              req_path := "/team/" +:+ AlertConfig.teamId alert +:+ "/time_entries";
              req_params := definedParams
                              (timeEntriesQuery (paramsOf w alert) None (Fin 0) None) |} in
  AlertConfig.active alert = true ->
  getScopeWarning alert tree = None ->
  fetch w r = (w1, Responded 401 payload) ->
  refreshOne token w alert (Some tree)
  = (w1, [EvRequest r; EvFetch r],
     failedResult (clock w1) alert "Invalid or revoked ClickUp token.").
Proof.
  intros r Hactive Hwarning Hfetch.
  unfold refreshSingleAlert. rewrite Hactive, Hwarning. cbn [negb].
  unfold getTimeEntries.
  change (buildAssigneeQueryValues (p_assigneeIds (paramsOf w alert)))
    with [ASSIGNEE_QUERY_NONE].
  cbn [scanAll]. change (assigneeValueOf ASSIGNEE_QUERY_NONE) with (@None string).
  change 200 with (S 199). generalize 199 as budget. intros budget. cbn [scanLoop].
  unfold request. change (Z.to_nat MAX_ATTEMPTS) with 4.
  change (p_teamId (paramsOf w alert)) with (AlertConfig.teamId alert). fold r.
  rewrite requestLoop_S, Hfetch.
  rewrite (attemptStep_auth 1 401 payload) by (left; reflexivity).
  reflexivity.
Qed.

End RefreshRuns.

(** X17 at the example tree and a folder alert on its folder. *)
Lemma getScopeWarning_none_scope_found_witness :
  exists team : ScopeTreeTeam,
    team ∈ sampleTree
    /\ team_id team = "team-1"
    /\ (needsFolder (sampleAlert true 50 [] None None) = true ->
        exists folder, folder ∈ team_folders team /\ Some "folder-1" = Some (folder_id folder))
    /\ (needsList (sampleAlert true 50 [] None None) = true ->
        exists folder l, folder ∈ team_folders team
                         /\ l ∈ folder_lists folder
                         /\ None = Some (list_id l)).
Proof.
  apply (getScopeWarning_none_scope_found (sampleAlert true 50 [] None None) sampleTree).
  reflexivity.
Defined.

(** X19 at an alert that is not active, against a provider that would
    refuse the token. *)
Lemma refreshSingleAlert_inactive_witness :
  (exampleRefreshWith (Responded 401 JNull) (sampleAlert false 50 [" task-1 "] None None)).1
  = (tt, [])
  /\ RefreshAlertResult.success
       (exampleRefreshWith (Responded 401 JNull)
          (sampleAlert false 50 [" task-1 "] None None)).2 = true.
Proof.
  destruct (refreshSingleAlert_inactive unit (constantFetch (Responded 401 JNull))
              exampleNumberOf exampleNumToString (fun _ => "2024-03-01T00:00:00.000Z")
              (fun _ => Fin 0) (fun _ => Fin 0) (fun _ => Fin 0) (fun _ => Fin 0)
              (fun _ w => (w, Returned sampleTree)) "token" tt
              (sampleAlert false 50 [" task-1 "] None None) (Some sampleTree))
    as (result & Hrun & Hsuccess & _).
  - reflexivity.
  - unfold exampleRefreshWith. rewrite Hrun. split; [reflexivity | exact Hsuccess].
Defined.

(** X21 at the example alert and a provider that answers 401. *)
Lemma refreshSingleAlert_unauthorized_witness :
  length (fetchesOf (exampleRefreshWith (Responded 401 JNull)
                       (sampleAlert true 50 [] None None)).1.2) = 1
  /\ RefreshAlertResult.errorMessage
       (exampleRefreshWith (Responded 401 JNull) (sampleAlert true 50 [] None None)).2
     = Some "Invalid or revoked ClickUp token.".
Proof.
  unfold exampleRefreshWith.
  rewrite (refreshSingleAlert_unauthorized unit (constantFetch (Responded 401 JNull))
             exampleNumberOf exampleNumToString (fun _ => "2024-03-01T00:00:00.000Z")
             (fun _ => Fin 0) (fun _ => Fin 0) (fun _ => Fin 0) (fun _ => Fin 0)
             (fun _ w => (w, Returned sampleTree)) "token" tt tt
             (sampleAlert true 50 [] None None) sampleTree JNull);
    [split; reflexivity | reflexivity | reflexivity | reflexivity].
Defined.

(** ** The order of the stored alerts ([main.ts], [storage.ts]) *)

Section StoreFacts.

Variable localeCompare : string -> string -> Q.

Local Abbreviation byOrder :=
  (fun a b : AlertConfig.t => (AlertConfig.order a <= AlertConfig.order b)%Q).
Local Abbreviation byOrderStrictly :=
  (fun a b : AlertConfig.t => (AlertConfig.order a < AlertConfig.order b)%Q).
Local Abbreviation sorted := (sortWith (compareAlerts localeCompare)).

Lemma compareAlerts_order (a b : AlertConfig.t) :
  (Qle_bool (compareAlerts localeCompare a b) 0 = true ->
   (AlertConfig.order a <= AlertConfig.order b)%Q)
  /\ (Qle_bool (compareAlerts localeCompare a b) 0 = false ->
      (AlertConfig.order b <= AlertConfig.order a)%Q)
  /\ ((AlertConfig.order a < AlertConfig.order b)%Q ->
      Qle_bool (compareAlerts localeCompare a b) 0 = true).
Proof.
  unfold compareAlerts.
  destruct (Qeq_bool (AlertConfig.order a - AlertConfig.order b) 0) eqn:Hzero.
  - apply Qeq_bool_iff in Hzero.
    assert (AlertConfig.order a == AlertConfig.order b)%Q as Heq.
    { apply (Qplus_inj_r _ _ (- AlertConfig.order b)). rewrite Qplus_opp_r. exact Hzero. }
    split; [intros _; rewrite Heq; apply Qle_refl |].
    split; [intros _; rewrite Heq; apply Qle_refl |].
    intros Hlt. rewrite Heq in Hlt. exfalso. exact (Qlt_irrefl _ Hlt).
  - split.
    + intros Hle. apply Qle_bool_iff in Hle.
      apply (Qplus_le_l _ _ (- AlertConfig.order b)). rewrite Qplus_opp_r. exact Hle.
    + split.
      * intros Hgt. apply Qle_bool_false in Hgt. apply Qlt_le_weak.
        apply (Qplus_lt_l _ _ (- AlertConfig.order b)). rewrite Qplus_opp_r. exact Hgt.
      * intros Hlt. apply Qle_bool_iff. apply Qlt_le_weak.
        apply (Qplus_lt_l _ _ (AlertConfig.order b)). ring_simplify. exact Hlt.
Qed.

Lemma sortInsert_sorted (x : AlertConfig.t) (l : list AlertConfig.t) :
  StronglySorted byOrder l ->
  StronglySorted byOrder (sortInsert (compareAlerts localeCompare) x l).
Proof.
  induction 1 as [| y rest Hsorted IH Hall]; cbn [sortInsert].
  - constructor; constructor.
  - destruct (compareAlerts_order x y) as (Hle & Hgt & _).
    destruct (Qle_bool (compareAlerts localeCompare x y) 0).
    + constructor; [constructor; assumption |].
      constructor; [apply Hle; reflexivity |].
      eapply Forall_impl; [exact Hall |]. cbn. intros z Hz.
      apply (Qle_trans _ (AlertConfig.order y)); [apply Hle; reflexivity | exact Hz].
    + constructor; [exact IH |].
      rewrite sortInsert_perm. constructor; [apply Hgt; reflexivity | exact Hall].
Qed.

Lemma sortWith_sorted (l : list AlertConfig.t) : StronglySorted byOrder (sorted l).
Proof.
  induction l as [| x rest IH]; cbn [sortWith]; [constructor |].
  apply sortInsert_sorted, IH.
Qed.

Lemma sortWith_fixed (l : list AlertConfig.t) :
  StronglySorted byOrderStrictly l -> sorted l = l.
Proof.
  induction 1 as [| x rest Hsorted IH Hall]; cbn [sortWith]; [reflexivity |].
  rewrite IH. destruct rest as [| y rest]; [reflexivity |].
  cbn [sortInsert]. apply Forall_cons in Hall as [Hxy _].
  rewrite (proj2 (proj2 (compareAlerts_order x y)) Hxy). reflexivity.
Qed.

(** X22.  [sortAlerts] (and [sortByOrder] of the store, which has the same
    body) loses and invents no alert, and leaves the alerts in
    non-decreasing [order]; [localeCompare] on the creation dates decides
    only among alerts of equal [order].  A list whose [order] values
    increase strictly is left as it is. *)
Theorem sortAlerts_sorted_permutation (alerts : list AlertConfig.t) :
  sortAlerts localeCompare alerts ≡ₚ alerts
  /\ sortByOrder localeCompare alerts = sortAlerts localeCompare alerts
  /\ StronglySorted (fun a b => (AlertConfig.order a <= AlertConfig.order b)%Q)
       (sortAlerts localeCompare alerts)
  /\ (StronglySorted (fun a b => (AlertConfig.order a < AlertConfig.order b)%Q) alerts ->
      sortAlerts localeCompare alerts = alerts).
Proof.
  unfold sortAlerts, sortByOrder.
  split; [apply sortWith_perm |]. split; [reflexivity |].
  split; [apply sortWith_sorted | apply sortWith_fixed].
Qed.

(** X23.  What [setAlerts] stores, [getAlerts] gives back: after a
    [setAlerts] that succeeds, [getAlerts] succeeds and returns the alerts
    given, each once, in non-decreasing [order]; the token is the token
    there was. *)
Theorem store_alerts_round_trip (st st1 : LocalStore) (alerts : list AlertConfig.t) :
  store_setAlerts localeCompare st alerts = Returned st1 ->
  exists stored : list AlertConfig.t,
    store_getAlerts localeCompare st1 = Returned stored
    /\ stored ≡ₚ alerts
    /\ StronglySorted (fun a b => (AlertConfig.order a <= AlertConfig.order b)%Q) stored
    /\ store_getToken localeCompare st1 = store_getToken localeCompare st.
Proof.
  unfold store_setAlerts, store_getAlerts, store_getToken, readState, writeState.
  destruct (stored_readable st) eqn:Hreadable; [| discriminate].
  destruct (stored_writable st) eqn:Hwritable; [| discriminate].
  intros [= <-]. cbn.
  eexists. split; [reflexivity |]. split.
  - unfold sortByOrder. rewrite !sortWith_perm. reflexivity.
  - split; [apply sortWith_sorted | reflexivity].
Qed.

Lemma numbered_sorted (f : nat -> AlertConfig.t -> AlertConfig.t) (l : list AlertConfig.t) :
  (forall j a, AlertConfig.order (f j a) = inject_Z (Z.of_nat j)) ->
  forall k : nat,
    StronglySorted byOrderStrictly (imap (fun i => f (k + i)) l)
    /\ Forall (fun a => (inject_Z (Z.of_nat k) <= AlertConfig.order a)%Q)
         (imap (fun i => f (k + i)) l).
Proof.
  intros Hf. induction l as [| x rest IH]; intros k.
  - split; constructor.
  - rewrite imap_cons.
    assert (imap ((fun i => f (k + i)) ∘ S) rest = imap (fun i => f (S k + i)) rest) as ->.
    { apply imap_ext. intros i a _. cbn. f_equal. lia. }
    destruct (IH (S k)) as [Hsorted Hall].
    split.
    + constructor; [exact Hsorted |].
      eapply Forall_impl; [exact Hall |]. cbn. intros a Ha. rewrite Hf.
      apply (Qlt_le_trans _ (inject_Z (Z.of_nat (S k)))); [| exact Ha].
      rewrite <- Zlt_Qlt. lia.
    + constructor.
      * rewrite Hf. rewrite <- Zle_Qle. lia.
      * eapply Forall_impl; [exact Hall |]. cbn. intros a Ha.
        apply (Qle_trans _ (inject_Z (Z.of_nat (S k)))); [| exact Ha].
        rewrite <- Zle_Qle. lia.
Qed.

Lemma renumber_sorted (l : list AlertConfig.t) : StronglySorted byOrderStrictly (renumber l).
Proof.
  exact (proj1 (numbered_sorted (fun i a => withOrder a (inject_Z (Z.of_nat i))) l
                  (fun _ _ => eq_refl) 0)).
Qed.

Lemma renumber_ids (l : list AlertConfig.t) :
  AlertConfig.id <$> renumber l = AlertConfig.id <$> l.
Proof.
  unfold renumber. rewrite fmap_imap.
  rewrite (imap_ext _ (fun _ => AlertConfig.id) l) by reflexivity.
  apply imap_const.
Qed.

Lemma renumber_orders (l : list AlertConfig.t) :
  AlertConfig.order <$> renumber l = (fun i => inject_Z (Z.of_nat i)) <$> seq 0 (length l).
Proof.
  unfold renumber. rewrite fmap_imap.
  rewrite (imap_ext _ (fun i _ => inject_Z (Z.of_nat i)) l) by reflexivity.
  apply imap_seq_0.
Qed.

(** X24.  After a successful ['alerts:delete'] the store holds the alerts
    there were, without those of the id deleted, in the order they had, and
    renumbered: their [order] values are 0, 1, 2, ... without gap.  No alert
    of another id is lost. *)
Theorem deleteAlert_renumbers (st st1 : LocalStore) (id_ : string) :
  deleteAlertHandler localeCompare st id_ = (st1, Returned tt) ->
  exists stored : list AlertConfig.t,
    store_getAlerts localeCompare st1 = Returned stored
    /\ AlertConfig.id <$> stored
       = List.filter (fun i => negb (String.eqb i id_))
           (AlertConfig.id <$> normalizedAlerts localeCompare st)
    /\ (id_ ∉ (AlertConfig.id <$> stored))
    /\ AlertConfig.order <$> stored
       = (fun i => inject_Z (Z.of_nat i)) <$> seq 0 (length stored)
    /\ store_getToken localeCompare st1 = store_getToken localeCompare st.
Proof.
  unfold deleteAlertHandler.
  destruct (store_getAlerts localeCompare st) as [alerts | e] eqn:Hget; [| discriminate].
  set (kept := List.filter (fun item => negb (String.eqb (AlertConfig.id item) id_)) alerts).
  destruct (store_setAlerts localeCompare st (renumber kept)) as [st2 | e] eqn:Hset;
    [| discriminate].
  intros [= <-].
  assert (alerts = normalizedAlerts localeCompare st) as Halerts.
  { unfold store_getAlerts, readState in Hget.
    destruct (stored_readable st); [| discriminate]. cbn in Hget. congruence. }
  assert (store_getAlerts localeCompare st2 = Returned (renumber kept)
          /\ store_getToken localeCompare st2 = store_getToken localeCompare st)
    as [Hstored Htoken].
  { revert Hset. unfold store_setAlerts, store_getAlerts, store_getToken, readState, writeState.
    destruct (stored_readable st) eqn:Hreadable; [| discriminate].
    destruct (stored_writable st) eqn:Hwritable; [| discriminate].
    intros [= <-]. cbn. split; [| reflexivity].
    unfold sortByOrder.
    rewrite !(sortWith_fixed _ (renumber_sorted kept)). reflexivity. }
  exists (renumber kept). split; [exact Hstored |].
  assert (AlertConfig.id <$> renumber kept
          = List.filter (fun i => negb (String.eqb i id_))
              (AlertConfig.id <$> normalizedAlerts localeCompare st)) as Hids.
  { rewrite renumber_ids, <- Halerts. subst kept. clear.
    induction alerts as [| a rest IH]; [reflexivity |].
    cbn [List.filter fmap list_fmap].
    destruct (negb (String.eqb (AlertConfig.id a) id_)); cbn [fmap list_fmap];
      [f_equal |]; exact IH. }
  split; [exact Hids |]. split.
  - rewrite Hids, list_elem_of_In, filter_In. intros [_ Hne].
    rewrite String.eqb_refl in Hne. discriminate Hne.
  - split; [| exact Htoken].
    rewrite renumber_orders. f_equal. f_equal. unfold renumber. rewrite length_imap.
    reflexivity.
Qed.

End StoreFacts.

(** ** The handlers of [main.ts] *)

Section HandlerFacts.

Variable W : Type.
Variable fetch : W -> HttpRequest -> W * FetchOutcome.
Variable NumberOf : string -> option Q.
Variable numToString : jsnum -> string.
Variable clock : W -> string.
Variable startOfMonthMs endOfMonthMs : W -> jsnum.
Variable startOfDayMs endOfDayMs : string -> jsnum.
Variable localeCompare : string -> string -> Q.
Variable getScopeTree : string -> W -> W * Completion (list ScopeTreeTeam).
Variable getTeamMemberIds : string -> W -> string -> W * Completion (list string).

Local Abbreviation reorderHandler := (reorderAlertsHandler W clock localeCompare).
Local Abbreviation refreshHandler :=
  (refreshAlertHandler W fetch NumberOf numToString clock startOfMonthMs endOfMonthMs
     startOfDayMs endOfDayMs localeCompare getScopeTree getTeamMemberIds).
Local Abbreviation refreshAll :=
  (refreshAllHandler W fetch NumberOf numToString clock startOfMonthMs endOfMonthMs
     startOfDayMs endOfDayMs localeCompare getScopeTree getTeamMemberIds).
Local Abbreviation storedAlerts := (normalizedAlerts localeCompare).

Lemma store_written (st st1 : LocalStore) (alerts : list AlertConfig.t) :
  store_setAlerts localeCompare st alerts = Returned st1 ->
  store_getAlerts localeCompare st1
  = Returned (sortByOrder localeCompare
                (sortByOrder localeCompare (sortByOrder localeCompare alerts)))
  /\ store_getToken localeCompare st1 = store_getToken localeCompare st.
Proof.
  unfold store_setAlerts, store_getAlerts, store_getToken, readState, writeState.
  destruct (stored_readable st) eqn:Hreadable; [| discriminate].
  destruct (stored_writable st) eqn:Hwritable; [| discriminate].
  intros [= <-]. cbn. split; reflexivity.
Qed.

Lemma store_read (st : LocalStore) (alerts : list AlertConfig.t) :
  store_getAlerts localeCompare st = Returned alerts ->
  alerts = storedAlerts st /\ stored_readable st = true.
Proof.
  unfold store_getAlerts, readState.
  destruct (stored_readable st); [| discriminate]. cbn. intros [= <-]. split; reflexivity.
Qed.

Lemma find_snoc {A : Type} (p : A -> bool) (l : list A) (x : A) :
  List.find p (l ++ [x])
  = match List.find p l with
    | Some a => Some a
    | None => if p x then Some x else None
    end.
Proof.
  induction l as [| y rest IH]; [reflexivity |].
  cbn [app List.find]. destruct (p y); [reflexivity | exact IH].
Qed.

Lemma filter_all {A : Type} (p : A -> bool) (l : list A) :
  Forall (fun x => p x = true) l -> List.filter p l = l.
Proof.
  induction 1 as [| x rest Hx _ IH]; [reflexivity |].
  cbn [List.filter]. rewrite Hx, IH. reflexivity.
Qed.

Lemma filter_none {A : Type} (p : A -> bool) (l : list A) :
  Forall (fun x => p x = false) l -> List.filter p l = [].
Proof.
  induction 1 as [| x rest Hx _ IH]; [reflexivity |].
  cbn [List.filter]. rewrite Hx. exact IH.
Qed.

Lemma map_keeps_ids (f : AlertConfig.t -> AlertConfig.t) (l : list AlertConfig.t) :
  (forall a, AlertConfig.id (f a) = AlertConfig.id a) ->
  AlertConfig.id <$> List.map f l = AlertConfig.id <$> l.
Proof.
  intros Hf. induction l as [| a rest IH]; [reflexivity |].
  cbn [List.map fmap list_fmap]. f_equal; [apply Hf | exact IH].
Qed.

Lemma byId_lookup (alerts : list AlertConfig.t) (i : string) :
  byId alerts !! i
  = List.find (fun a => String.eqb (AlertConfig.id a) i) (rev alerts).
Proof.
  unfold byId.
  assert (forall m : gmap string AlertConfig.t,
             fold_left (fun m item => <[AlertConfig.id item := item]> m) alerts m !! i
             = match List.find (fun a => String.eqb (AlertConfig.id a) i) (rev alerts) with
               | Some a => Some a
               | None => m !! i
               end) as Hgen.
  { induction alerts as [| a rest IH]; intros m; [reflexivity |].
    cbn [fold_left rev]. rewrite IH, find_snoc.
    destruct (List.find _ (rev rest)); [reflexivity |].
    destruct (String.eqb_spec (AlertConfig.id a) i) as [-> | Hne].
    - apply lookup_insert_eq.
    - apply lookup_insert_ne, Hne. }
  rewrite Hgen. destruct (List.find _ (rev alerts)); [reflexivity | apply lookup_empty].
Qed.

Lemma byId_found (alerts : list AlertConfig.t) (i : string) :
  match byId alerts !! i with
  | Some a => AlertConfig.id a = i /\ a ∈ alerts
  | None => i ∉ (AlertConfig.id <$> alerts)
  end.
Proof.
  rewrite byId_lookup.
  destruct (List.find _ (rev alerts)) as [a |] eqn:Hfind.
  - apply find_some in Hfind as [Hin Hid]. apply String.eqb_eq in Hid.
    split; [exact Hid |]. apply list_elem_of_In. apply in_rev. exact Hin.
  - intros Hin. apply list_elem_of_fmap in Hin as (a & -> & Ha).
    apply list_elem_of_In, in_rev in Ha.
    pose proof (find_none _ _ Hfind a Ha) as Hne. cbn in Hne.
    rewrite String.eqb_refl in Hne. discriminate Hne.
Qed.

Lemma reordered_ids (ids : list string) (alerts : list AlertConfig.t) :
  AlertConfig.id <$> reordered ids alerts
  = List.filter (fun i => bool_decide (i ∈ (AlertConfig.id <$> alerts))) ids
    ++ List.filter (fun i => negb (bool_decide (i ∈ ids))) (AlertConfig.id <$> alerts).
Proof.
  unfold reordered. rewrite fmap_app. f_equal.
  - induction ids as [| i rest IH]; [reflexivity |].
    cbn [omap list_omap List.filter].
    pose proof (byId_found alerts i) as Hfound.
    destruct (byId alerts !! i) as [a |].
    + destruct Hfound as [Hid Hin].
      rewrite bool_decide_true.
      * cbn [fmap list_fmap]. rewrite Hid. f_equal. exact IH.
      * rewrite <- Hid. apply list_elem_of_fmap. exists a. split; [reflexivity | exact Hin].
    + rewrite bool_decide_false by exact Hfound. exact IH.
  - generalize ids as keys. intros keys.
    induction alerts as [| a rest IH]; [reflexivity |].
    cbn [List.filter fmap list_fmap].
    destruct (negb (bool_decide (AlertConfig.id a ∈ keys))); cbn [fmap list_fmap];
      [f_equal |]; exact IH.
Qed.

(** X25.  After a successful ['alerts:reorder'] the alerts returned are the
    alerts stored.  First come the ids given that name a stored alert, in
    the order given, then the stored alerts whose id was not given, in the
    order they had; the [order] values are 0, 1, 2, ... without gap.  When
    the ids given are the stored ids in some order, the alerts come out in
    exactly that order. *)
Theorem reorderAlerts_order (w : W) (st st1 : LocalStore) (ids : list string)
    (normalized : list AlertConfig.t) :
  reorderHandler w st ids = (st1, Returned normalized) ->
  store_getAlerts localeCompare st1 = Returned normalized
  /\ AlertConfig.id <$> normalized
     = List.filter (fun i => bool_decide (i ∈ (AlertConfig.id <$> storedAlerts st))) ids
       ++ List.filter (fun i => negb (bool_decide (i ∈ ids)))
            (AlertConfig.id <$> storedAlerts st)
  /\ AlertConfig.order <$> normalized
     = (fun i => inject_Z (Z.of_nat i)) <$> seq 0 (length normalized)
  /\ (ids ≡ₚ AlertConfig.id <$> storedAlerts st -> AlertConfig.id <$> normalized = ids).
Proof.
  unfold reorderAlertsHandler.
  destruct (store_getAlerts localeCompare st) as [alerts | e] eqn:Hget; [| discriminate].
  apply store_read in Hget as [-> _].
  set (next := reordered ids (storedAlerts st)).
  set (number := fun index alert =>
                   withUpdatedAt (withOrder alert (inject_Z (Z.of_nat index))) (clock w)).
  destruct (store_setAlerts localeCompare st (imap number next)) as [st2 | e] eqn:Hset;
    [| discriminate].
  intros [= <- <-].
  apply store_written in Hset as [Hstored _].
  assert (StronglySorted (fun a b => (AlertConfig.order a < AlertConfig.order b)%Q)
            (imap number next)) as Hsorted.
  { exact (proj1 (numbered_sorted number next (fun _ _ => eq_refl) 0)). }
  assert (AlertConfig.id <$> imap number next = AlertConfig.id <$> next) as Hids.
  { rewrite fmap_imap.
    rewrite (imap_ext _ (fun _ => AlertConfig.id) next) by reflexivity.
    apply imap_const. }
  split.
  { rewrite Hstored. unfold sortByOrder.
    rewrite !(sortWith_fixed localeCompare _ Hsorted). reflexivity. }
  split; [rewrite Hids; subst next; apply reordered_ids |]. split.
  { rewrite fmap_imap.
    rewrite (imap_ext _ (fun i _ => inject_Z (Z.of_nat i)) next) by reflexivity.
    rewrite length_imap. apply imap_seq_0. }
  intros Hperm. rewrite Hids. subst next. rewrite reordered_ids.
  rewrite filter_all, filter_none; [apply app_nil_r | |].
  - apply Forall_forall. intros i Hi. apply negb_false_iff, bool_decide_eq_true.
    rewrite Hperm. exact Hi.
  - apply Forall_forall. intros i Hi. apply bool_decide_eq_true.
    rewrite <- Hperm. exact Hi.
Qed.

(** X26.  The handler of ['alerts:refresh'] on a store that can be read.
    An id that no stored alert has ends it with "Alert not found." before
    anything else happens; a store without token ends it with the error of
    [withClient], also before any request; in both cases the store is as it
    was.  When it returns a result, the result is that of an alert of the id
    asked for, and the store then holds the same ids as before, the alert
    of the result among them. *)
Theorem refreshAlert_handler (w : W) (st : LocalStore) (id_ : string) :
  stored_readable st = true ->
  (id_ ∉ (AlertConfig.id <$> storedAlerts st) ->
   refreshHandler w st id_ = (w, st, [], Thrown (OtherError "Alert not found.")))
  /\ (id_ ∈ (AlertConfig.id <$> storedAlerts st) ->
      store_getToken localeCompare st = Returned None ->
      refreshHandler w st id_
      = (w, st, [],
         Thrown (OtherError "No ClickUp token configured. Add a token in settings first.")))
  /\ (forall (w2 : W) (st1 : LocalStore) (evs : list Event) (result : RefreshAlertResult.t),
         refreshHandler w st id_ = (w2, st1, evs, Returned result) ->
         AlertConfig.id (RefreshAlertResult.alert result) = id_
         /\ exists stored : list AlertConfig.t,
             store_getAlerts localeCompare st1 = Returned stored
             /\ AlertConfig.id <$> stored ≡ₚ AlertConfig.id <$> storedAlerts st
             /\ RefreshAlertResult.alert result ∈ stored).
Proof.
  intros Hreadable.
  assert (store_getAlerts localeCompare st = Returned (storedAlerts st)) as Hget.
  { unfold store_getAlerts, readState. rewrite Hreadable. reflexivity. }
  unfold refreshAlertHandler. rewrite Hget.
  split; [| split].
  - intros Hnot.
    destruct (List.find _ (storedAlerts st)) as [target |] eqn:Hfind; [| reflexivity].
    apply find_some in Hfind as [Hin Hid]. apply String.eqb_eq in Hid.
    exfalso. apply Hnot. rewrite <- Hid. apply list_elem_of_fmap.
    exists target. split; [reflexivity | apply list_elem_of_In, Hin].
  - intros Hin Htoken.
    destruct (List.find _ (storedAlerts st)) as [target |] eqn:Hfind.
    + rewrite Htoken. reflexivity.
    + exfalso. apply list_elem_of_fmap in Hin as (a & -> & Ha).
      pose proof (find_none _ _ Hfind a (proj1 (list_elem_of_In _ _) Ha)) as Hne.
      cbn in Hne. rewrite String.eqb_refl in Hne. discriminate Hne.
  - intros w2 st1 evs result.
    destruct (List.find _ (storedAlerts st)) as [target |] eqn:Hfind; [| discriminate].
    apply find_some in Hfind as [Hin Hid]. apply String.eqb_eq in Hid.
    destruct (store_getToken localeCompare st) as [[token |] | e]; try discriminate.
    destruct (getTeamMemberIds token w (AlertConfig.teamId target)) as [w1 looked].
    unfold refreshSingleAlert_call4.
    pose proof (refreshSingleAlert_id W fetch NumberOf numToString clock startOfMonthMs
                  endOfMonthMs startOfDayMs endOfDayMs getScopeTree token w1 target None)
      as Hsame.
    destruct (refreshSingleAlert W fetch NumberOf numToString clock startOfMonthMs endOfMonthMs
                startOfDayMs endOfDayMs getScopeTree token w1 target None)
      as [[w3 evs3] refreshed].
    cbn [snd] in Hsame.
    set (nextAlerts :=
           List.map
             (fun item =>
                if String.eqb (AlertConfig.id item) id_ then RefreshAlertResult.alert refreshed
                else item)
             (storedAlerts st)).
    destruct (store_setAlerts localeCompare st nextAlerts) as [st2 | e] eqn:Hset;
      [| discriminate].
    intros [= <- <- <- <-].
    apply store_written in Hset as [Hstored _].
    split; [congruence |].
    eexists. split; [exact Hstored |].
    unfold sortByOrder. split.
    + rewrite !sortWith_perm. subst nextAlerts.
      rewrite map_keeps_ids; [reflexivity |]. intros a.
      destruct (String.eqb_spec (AlertConfig.id a) id_) as [Ha | _]; [congruence | reflexivity].
    + rewrite !sortWith_perm. subst nextAlerts.
      apply list_elem_of_In, in_map_iff. exists target. split; [| exact Hin].
      rewrite Hid, String.eqb_refl. reflexivity.
Qed.

(** X27.  With no alert stored, ['alerts:refresh-all'] returns the empty
    list at once: it needs no token, asks the provider nothing and writes
    nothing. *)
Theorem refreshAll_without_alerts (w : W) (st : LocalStore) :
  stored_readable st = true ->
  stored_alerts st = [] ->
  refreshAll w st = (w, st, [], Returned []).
Proof.
  intros Hreadable Hnone.
  unfold refreshAllHandler, store_getAlerts, readState. rewrite Hreadable.
  cbn [stored_alerts]. unfold normalizedAlerts, sortByOrder. rewrite Hnone. reflexivity.
Qed.

End HandlerFacts.

(** ** The team member cache of [refreshAllInternal] *)

Section LookupCache.

Variable W : Type.
Variable fetch : W -> HttpRequest -> W * FetchOutcome.
Variable NumberOf : string -> option Q.
Variable numToString : jsnum -> string.
Variable clock : W -> string.
Variable startOfMonthMs endOfMonthMs : W -> jsnum.
Variable startOfDayMs endOfDayMs : string -> jsnum.
Variable localeCompare : string -> string -> Q.
Variable getScopeTree : string -> W -> W * Completion (list ScopeTreeTeam).
Variable getTeamMemberIds : string -> W -> string -> W * Completion (list string).

(** A log, kept by the provider, of the workspaces whose members were
    looked up.  Nothing but [getTeamMemberIds] writes to it. *)
Variable lookups : W -> list string.
Hypothesis fetch_keeps : forall w r, lookups (fetch w r).1 = lookups w.
Hypothesis tree_keeps : forall token w, lookups (getScopeTree token w).1 = lookups w.
Hypothesis lookup_logged :
  forall token w teamId, lookups (getTeamMemberIds token w teamId).1 = lookups w ++ [teamId].

Lemma requestLoop_keeps (left : nat) :
  forall (attempt : Z) (w : W) (r : HttpRequest),
    lookups (requestLoop W fetch left attempt w r).1.1 = lookups w.
Proof.
  induction left as [| left IH]; intros attempt w r; [reflexivity |].
  rewrite requestLoop_S. pose proof (fetch_keeps w r) as Hfetch.
  destruct (fetch w r) as [w1 o]. cbn [fst] in Hfetch.
  destruct (attemptStep attempt o) as [slept [res | []]]; [exact Hfetch |].
  specialize (IH (attempt + 1)%Z w1 r).
  destruct (requestLoop W fetch left (attempt + 1)%Z w1 r) as [[w2 evs] res].
  cbn [fst] in *. congruence.
Qed.

Lemma request_keeps (token : string) (w : W) (path : string) (query : Query) :
  lookups (request W fetch token w path query).1.1 = lookups w.
Proof.
  unfold request.
  pose proof (requestLoop_keeps (Z.to_nat MAX_ATTEMPTS) 1%Z w
                {| req_token := token; req_path := path; req_params := definedParams query |})
    as Hloop.
  destruct (requestLoop W fetch (Z.to_nat MAX_ATTEMPTS) 1%Z w _) as [[w' evs] res].
  exact Hloop.
Qed.

Lemma scanLoop_keeps (token : string) (params : TimeEntriesParams)
    (assigneeValue : option string) (budget : nat) :
  forall (page : jsnum) (cursor : option string) (w : W) (acc : Collected),
    lookups (scanLoop W fetch NumberOf numToString budget token params assigneeValue page
               cursor w acc).1.1 = lookups w.
Proof.
  induction budget as [| budget IH]; intros page cursor w acc; [reflexivity |].
  cbn [scanLoop].
  pose proof (request_keeps token w ("/team/" +:+ p_teamId params +:+ "/time_entries")
                (timeEntriesQuery params assigneeValue page cursor)) as Hrequest.
  destruct (request W fetch token w _ _) as [[w1 evs] res]. cbn [fst] in Hrequest.
  destruct res as [payload | e]; [| exact Hrequest].
  destruct (isNull payload); [exact Hrequest |].
  destruct (nextStep page payload) as [c | page' |]; [| | exact Hrequest].
  - specialize (IH page (Some c) w1 (collectPage NumberOf numToString acc payload)).
    destruct (scanLoop W fetch NumberOf numToString budget token params assigneeValue page
                (Some c) w1 _) as [[w2 evs'] res'].
    cbn [fst] in *. congruence.
  - specialize (IH page' cursor w1 (collectPage NumberOf numToString acc payload)).
    destruct (scanLoop W fetch NumberOf numToString budget token params assigneeValue page'
                cursor w1 _) as [[w2 evs'] res'].
    cbn [fst] in *. congruence.
Qed.

Lemma scanAll_keeps (token : string) (params : TimeEntriesParams) (values : list string) :
  forall (w : W) (acc : Collected),
    lookups (scanAll W fetch NumberOf numToString token params values w acc).1.1 = lookups w.
Proof.
  induction values as [| value values IH]; intros w acc; [reflexivity |].
  cbn [scanAll].
  pose proof (scanLoop_keeps token params (assigneeValueOf value) 200 (Fin 0) None w acc)
    as Hscan.
  destruct (scanLoop W fetch NumberOf numToString 200 token params (assigneeValueOf value)
              (Fin 0) None w acc) as [[w1 evs] res].
  cbn [fst] in Hscan. destruct res as [acc1 | e]; [| exact Hscan].
  specialize (IH w1 acc1).
  destruct (scanAll W fetch NumberOf numToString token params values w1 acc1)
    as [[w2 evs'] res'].
  cbn [fst] in *. congruence.
Qed.

Lemma refreshSingleAlert_keeps (token : string) (w : W) (alert : AlertConfig.t) :
  lookups (refreshSingleAlert W fetch NumberOf numToString clock startOfMonthMs endOfMonthMs
             startOfDayMs endOfDayMs getScopeTree token w alert None).1.1 = lookups w.
Proof.
  unfold refreshSingleAlert.
  destruct (negb (AlertConfig.active alert)); [reflexivity |].
  pose proof (tree_keeps token w) as Htree.
  destruct (getScopeTree token w) as [w1 [scopeTree | e]]; cbn [fst] in Htree; [| exact Htree].
  destruct (getScopeWarning alert scopeTree); [exact Htree |].
  unfold getTimeEntries.
  pose proof (scanAll_keeps token
                (timeEntriesParamsOf W startOfMonthMs endOfMonthMs startOfDayMs endOfDayMs
                   w1 alert)
                (buildAssigneeQueryValues
                   (p_assigneeIds
                      (timeEntriesParamsOf W startOfMonthMs endOfMonthMs startOfDayMs
                         endOfDayMs w1 alert)))
                w1 (∅, [])) as Hscan.
  destruct (scanAll W fetch NumberOf numToString token _ _ w1 (∅, [])) as [[w2 evs] res].
  cbn [fst] in Hscan. destruct res; cbn [fst]; congruence.
Qed.

Lemma refreshEach_lookups (token : string) (alerts : list AlertConfig.t) :
  forall (w : W) (teamMemberCache : gmap string (list string)),
    lookups (refreshEach W fetch NumberOf numToString clock startOfMonthMs endOfMonthMs
               startOfDayMs endOfDayMs getScopeTree getTeamMemberIds token alerts w
               teamMemberCache).1.1
    = lookups w ++ setOrder (dom teamMemberCache) (AlertConfig.teamId <$> alerts).
Proof.
  induction alerts as [| alert rest IH]; intros w teamMemberCache.
  - cbn. rewrite app_nil_r. reflexivity.
  - cbn [refreshEach fmap list_fmap setOrder]. unfold refreshSingleAlert_call4.
    destruct (teamMemberCache !! AlertConfig.teamId alert) as [ids |] eqn:Hcached.
    + destruct (decide (AlertConfig.teamId alert ∈ dom teamMemberCache)) as [_ | Hnot].
      * pose proof (refreshSingleAlert_keeps token w alert) as Hone.
        destruct (refreshSingleAlert W fetch NumberOf numToString clock startOfMonthMs
                    endOfMonthMs startOfDayMs endOfDayMs getScopeTree token w alert None)
          as [[w2 evs] refreshed].
        specialize (IH w2 teamMemberCache).
        destruct (refreshEach W fetch NumberOf numToString clock startOfMonthMs endOfMonthMs
                    startOfDayMs endOfDayMs getScopeTree getTeamMemberIds token rest w2
                    teamMemberCache) as [[w3 evs'] results].
        cbn [fst] in *. rewrite IH, Hone. reflexivity.
      * exfalso. apply Hnot. apply elem_of_dom. exists ids. exact Hcached.
    + destruct (decide (AlertConfig.teamId alert ∈ dom teamMemberCache)) as [Hin | _].
      * exfalso. apply elem_of_dom in Hin as [ids Hids]. congruence.
      * pose proof (lookup_logged token w (AlertConfig.teamId alert)) as Hlogged.
        destruct (getTeamMemberIds token w (AlertConfig.teamId alert)) as [w1 looked].
        cbn [fst] in Hlogged.
        pose proof (refreshSingleAlert_keeps token w1 alert) as Hone.
        destruct (refreshSingleAlert W fetch NumberOf numToString clock startOfMonthMs
                    endOfMonthMs startOfDayMs endOfDayMs getScopeTree token w1 alert None)
          as [[w2 evs] refreshed].
        specialize (IH w2 (<[AlertConfig.teamId alert :=
                               match looked with Returned ids => ids | Thrown _ => [] end]>
                             teamMemberCache)).
        destruct (refreshEach W fetch NumberOf numToString clock startOfMonthMs endOfMonthMs
                    startOfDayMs endOfDayMs getScopeTree getTeamMemberIds token rest w2 _)
          as [[w3 evs'] results].
        cbn [fst] in *. rewrite IH, Hone, Hlogged, dom_insert_L, <- app_assoc. reflexivity.
Qed.

(** X28.  The batch refresh looks the members of a workspace up once.
    With [lookups] a log of the calls of [getTeamMemberIds] that nothing
    else writes to, a run of [refreshAllInternal] over a store with a token
    adds to the log the workspaces of the alerts, each once, in the order in
    which the sorted alerts first name them, also when a lookup fails. *)
Theorem refreshAll_looks_up_each_team_once (w : W) (st : LocalStore)
    (alerts : list AlertConfig.t) (token : string) :
  store_getToken localeCompare st = Returned (Some token) ->
  let run := refreshAllInternal W fetch NumberOf numToString clock startOfMonthMs endOfMonthMs
               startOfDayMs endOfDayMs localeCompare getScopeTree getTeamMemberIds w st
               alerts in
  lookups run.1.1.1
  = lookups w ++ spreadSet (AlertConfig.teamId <$> sortAlerts localeCompare alerts)
  /\ NoDup (spreadSet (AlertConfig.teamId <$> sortAlerts localeCompare alerts))
  /\ (forall teamId : string,
         teamId ∈ spreadSet (AlertConfig.teamId <$> sortAlerts localeCompare alerts)
         <-> teamId ∈ (AlertConfig.teamId <$> alerts)).
Proof.
  intros Htoken run. subst run. unfold refreshAllInternal. rewrite Htoken.
  pose proof (refreshEach_lookups token (sortAlerts localeCompare alerts) w ∅) as Heach.
  destruct (refreshEach W fetch NumberOf numToString clock startOfMonthMs endOfMonthMs
              startOfDayMs endOfDayMs getScopeTree getTeamMemberIds token
              (sortAlerts localeCompare alerts) w ∅) as [[w1 evs] results].
  cbn [fst] in Heach. rewrite dom_empty_L in Heach.
  split.
  - destruct (store_setAlerts localeCompare st _); exact Heach.
  - split; [apply spreadSet_NoDup |].
    intros teamId. rewrite spreadSet_elem. unfold sortAlerts.
    rewrite (sortWith_perm (compareAlerts localeCompare) alerts). reflexivity.
Qed.

End LookupCache.

(** ** The dashboard summary *)

Lemma summarize_step (start : DashboardSummary.t) (alert : AlertConfig.t) :
  let summary := summarize start alert in
  if AlertConfig.active alert then
    DashboardSummary.activeAlerts summary = S (DashboardSummary.activeAlerts start)
    /\ DashboardSummary.green summary + DashboardSummary.yellow summary
       + DashboardSummary.red summary
       <= S (DashboardSummary.green start + DashboardSummary.yellow start
             + DashboardSummary.red start)
    /\ DashboardSummary.overBudget summary <= S (DashboardSummary.overBudget start)
  else summary = start.
Proof.
  unfold summarize. destruct (AlertConfig.active alert); cbn [negb]; [| reflexivity].
  cbn [DashboardSummary.activeAlerts DashboardSummary.green DashboardSummary.yellow
       DashboardSummary.red DashboardSummary.overBudget].
  split; [reflexivity |]. split.
  - destruct (AlertSnapshot.status <$> AlertConfig.lastSnapshot alert) as [[| | | |] |]; lia.
  - destruct (Qlt_bool 0 _); lia.
Qed.

Lemma summarize_counts (alerts : list AlertConfig.t) :
  forall start : DashboardSummary.t,
    let summary := fold_left summarize alerts start in
    let n := length (List.filter AlertConfig.active alerts) in
    DashboardSummary.activeAlerts summary = DashboardSummary.activeAlerts start + n
    /\ DashboardSummary.green summary + DashboardSummary.yellow summary
       + DashboardSummary.red summary
       <= DashboardSummary.green start + DashboardSummary.yellow start
          + DashboardSummary.red start + n
    /\ DashboardSummary.overBudget summary <= DashboardSummary.overBudget start + n.
Proof.
  induction alerts as [| alert rest IH]; intros start; cbn [fold_left List.filter].
  - cbn [length]. lia.
  - specialize (IH (summarize start alert)). cbn zeta in IH.
    destruct IH as (Hactive & Hstatus & Hover).
    pose proof (summarize_step start alert) as Hstep. cbn zeta in Hstep.
    destruct (AlertConfig.active alert).
    + destruct Hstep as (Hstep1 & Hstep2 & Hstep3). cbn [length]. lia.
    + rewrite Hstep in *. split; [exact Hactive |]. split; [exact Hstatus | exact Hover].
Qed.

(** X29.  The counts of [computeSummary]: [activeAlerts] is the number of
    active alerts of the list; green, yellow and red together are at most
    that many, and so are the alerts over budget.  The alerts that are not
    active count nowhere. *)
Theorem computeSummary_counts (alerts : list AlertConfig.t) :
  let summary := computeSummary alerts in
  DashboardSummary.activeAlerts summary = length (List.filter AlertConfig.active alerts)
  /\ DashboardSummary.green summary + DashboardSummary.yellow summary
     + DashboardSummary.red summary <= DashboardSummary.activeAlerts summary
  /\ DashboardSummary.overBudget summary <= DashboardSummary.activeAlerts summary
  /\ DashboardSummary.activeAlerts summary <= length alerts
  /\ computeSummary (List.filter AlertConfig.active alerts) = summary.
Proof.
  intros summary. subst summary. unfold computeSummary.
  destruct (summarize_counts alerts
              {| DashboardSummary.activeAlerts := 0; DashboardSummary.green := 0;
                 DashboardSummary.yellow := 0; DashboardSummary.red := 0;
                 DashboardSummary.overBudget := 0 |}) as (Hactive & Hstatus & Hover).
  cbn [DashboardSummary.activeAlerts DashboardSummary.green DashboardSummary.yellow
       DashboardSummary.red DashboardSummary.overBudget] in *.
  split; [lia |]. split; [lia |]. split; [lia |]. split.
  - rewrite Hactive. cbn [Nat.add]. apply filter_length_le.
  - clear Hactive Hstatus Hover.
    generalize {| DashboardSummary.activeAlerts := 0; DashboardSummary.green := 0;
                  DashboardSummary.yellow := 0; DashboardSummary.red := 0;
                  DashboardSummary.overBudget := 0 |} as start.
    induction alerts as [| alert rest IH]; intros start; [reflexivity |].
    cbn [List.filter]. destruct (AlertConfig.active alert) eqn:Hact.
    + cbn [fold_left]. apply IH.
    + cbn [fold_left]. pose proof (summarize_step start alert) as Hstep.
      cbn zeta in Hstep. rewrite Hact in Hstep. rewrite Hstep. apply IH.
Qed.

(** ** The handlers at a store of three alerts *)

(** X23 at the store of three alerts, given two alerts out of order. *)
Lemma store_alerts_round_trip_witness :
  exists stored : list AlertConfig.t,
    store_getAlerts exampleLocaleCompare
      {| stored_token := Some "token";
         stored_alerts := [sampleAlertAt "alert-a" 0; sampleAlertAt "alert-b" 1];
         stored_readable := true;
         stored_writable := true |} = Returned stored
    /\ stored ≡ₚ [sampleAlertAt "alert-b" 1; sampleAlertAt "alert-a" 0]
    /\ StronglySorted (fun a b => (AlertConfig.order a <= AlertConfig.order b)%Q) stored
    /\ store_getToken exampleLocaleCompare
         {| stored_token := Some "token";
            stored_alerts := [sampleAlertAt "alert-a" 0; sampleAlertAt "alert-b" 1];
            stored_readable := true;
            stored_writable := true |}
       = store_getToken exampleLocaleCompare storeOfThree.
Proof.
  apply (store_alerts_round_trip exampleLocaleCompare storeOfThree _
           [sampleAlertAt "alert-b" 1; sampleAlertAt "alert-a" 0]).
  reflexivity.
Defined.

(** X24 at the store of three alerts: without [alert-a], the alerts [b]
    and [c] move up to the positions 0 and 1. *)
Lemma deleteAlert_renumbers_witness :
  exists stored : list AlertConfig.t,
    store_getAlerts exampleLocaleCompare
      {| stored_token := Some "token";
         stored_alerts := [sampleAlertAt "alert-b" 0; sampleAlertAt "alert-c" 1];
         stored_readable := true;
         stored_writable := true |} = Returned stored
    /\ AlertConfig.id <$> stored = ["alert-b"; "alert-c"]
    /\ AlertConfig.order <$> stored = [0%Q; 1%Q].
Proof.
  destruct (deleteAlert_renumbers exampleLocaleCompare storeOfThree
              {| stored_token := Some "token";
                 stored_alerts := [sampleAlertAt "alert-b" 0; sampleAlertAt "alert-c" 1];
                 stored_readable := true;
                 stored_writable := true |} "alert-a" eq_refl)
    as (stored & Hstored & Hids & _ & Horders & _).
  exists stored. split; [exact Hstored |]. split; [exact Hids |].
  rewrite Horders.
  assert (length stored = 2) as ->; [| reflexivity].
  rewrite <- (length_fmap AlertConfig.id), Hids. reflexivity.
Defined.

(** X25 at the store of three alerts, asked for the order c, a, b. *)
Lemma reorderAlerts_order_witness :
  let run := reorderAlertsHandler unit (fun _ => "2024-03-01T00:00:00.000Z") exampleLocaleCompare
               tt storeOfThree ["alert-c"; "alert-a"; "alert-b"] in
  exists normalized : list AlertConfig.t,
    run.2 = Returned normalized
    /\ AlertConfig.id <$> normalized = ["alert-c"; "alert-a"; "alert-b"]
    /\ AlertConfig.order <$> normalized = [0%Q; 1%Q; 2%Q].
Proof.
  intros run.
  assert (exists st1 normalized, run = (st1, Returned normalized)) as (st1 & normalized & Hrun).
  { eexists. eexists. vm_compute. reflexivity. }
  destruct (reorderAlerts_order unit (fun _ => "2024-03-01T00:00:00.000Z") exampleLocaleCompare
              tt storeOfThree st1 ["alert-c"; "alert-a"; "alert-b"] normalized Hrun)
    as (_ & _ & Horders & Hsame).
  exists normalized. rewrite Hrun. split; [reflexivity |].
  assert (AlertConfig.id <$> normalized = ["alert-c"; "alert-a"; "alert-b"]) as Hids.
  { apply Hsame. vm_compute.
    apply (Permutation_cons_append ["alert-a"; "alert-b"] "alert-c"). }
  split; [exact Hids |].
  rewrite Horders.
  assert (length normalized = 3) as ->; [| reflexivity].
  rewrite <- (length_fmap AlertConfig.id), Hids. reflexivity.
Defined.

(** X26 at the store of three alerts, asked for an alert it does not
    have. *)
Lemma refreshAlert_handler_witness :
  refreshAlertHandler unit (constantFetch emptyPage) exampleNumberOf exampleNumToString
    (fun _ => "2024-03-01T00:00:00.000Z") (fun _ => Fin 0) (fun _ => Fin 0)
    (fun _ => Fin 0) (fun _ => Fin 0) exampleLocaleCompare
    (fun _ w => (w, Returned sampleTree)) (fun _ w _ => (w, Returned [])) tt storeOfThree
    "alert-z"
  = (tt, storeOfThree, [], Thrown (OtherError "Alert not found.")).
Proof.
  apply (refreshAlert_handler unit (constantFetch emptyPage) exampleNumberOf exampleNumToString
           (fun _ => "2024-03-01T00:00:00.000Z") (fun _ => Fin 0) (fun _ => Fin 0)
           (fun _ => Fin 0) (fun _ => Fin 0) exampleLocaleCompare
           (fun _ w => (w, Returned sampleTree)) (fun _ w _ => (w, Returned [])) tt storeOfThree
           "alert-z" eq_refl).
  intros Hin. apply list_elem_of_In in Hin. vm_compute in Hin.
  decompose [or] Hin; try discriminate; contradiction.
Defined.

(** X27 at a store without alerts and without token, on a file system
    that takes no writes. *)
Lemma refreshAll_without_alerts_witness :
  let st := {| stored_token := None; stored_alerts := [];
               stored_readable := true; stored_writable := false |} in
  exampleHandler st = (tt, st, [], Returned []).
Proof.
  intros st. unfold exampleHandler.
  apply (refreshAll_without_alerts unit (constantFetch emptyPage) exampleNumberOf
           exampleNumToString (fun _ => "2024-03-01T00:00:00.000Z") (fun _ => Fin 0)
           (fun _ => Fin 0) (fun _ => Fin 0) (fun _ => Fin 0) (fun _ _ => 0%Q)
           (fun _ w => (w, Returned sampleTree))
           (fun _ w _ => (w, Returned ["user-1"; "user-2"])) tt st);
    reflexivity.
Defined.

(** X28 at the store of three alerts, all of one workspace: one lookup. *)
Lemma refreshAll_looks_up_each_team_once_witness :
  (refreshAllInternal (list string) quietFetch exampleNumberOf exampleNumToString
     (fun _ => "2024-03-01T00:00:00.000Z") (fun _ => Fin 0) (fun _ => Fin 0)
     (fun _ => Fin 0) (fun _ => Fin 0) exampleLocaleCompare
     (fun _ w => (w, Returned sampleTree)) loggingLookup [] storeOfThree
     (stored_alerts storeOfThree)).1.1.1
  = ["team-1"].
Proof.
  destruct (refreshAll_looks_up_each_team_once (list string) quietFetch exampleNumberOf
              exampleNumToString (fun _ => "2024-03-01T00:00:00.000Z") (fun _ => Fin 0)
              (fun _ => Fin 0) (fun _ => Fin 0) (fun _ => Fin 0) exampleLocaleCompare
              (fun _ w => (w, Returned sampleTree)) loggingLookup (fun w => w)
              (fun _ _ => eq_refl) (fun _ _ => eq_refl) (fun _ _ _ => eq_refl)
              [] storeOfThree (stored_alerts storeOfThree) "token" eq_refl) as [Hlog _].
  rewrite Hlog. vm_compute. reflexivity.
Defined.

(** ** Task ids as text *)

Lemma splitComma_nonempty (s : string) : splitComma s <> [].
Proof.
  induction s as [| c rest IH]; cbn [splitComma]; [discriminate |].
  destruct (Ascii.eqb c ","%char); [discriminate |].
  destruct (splitComma rest); discriminate.
Qed.

Lemma splitComma_prefix (x s : string) :
  noComma x = true ->
  splitComma (x +:+ s)
  = match splitComma s with
    | piece :: pieces => (x +:+ piece) :: pieces
    | [] => []
    end.
Proof.
  induction x as [| c rest IH]; intros Hx.
  - change ("" +:+ s) with s. destruct (splitComma s); reflexivity.
  - cbn [noComma] in Hx. apply andb_true_iff in Hx as [Hc Hrest].
    apply negb_true_iff in Hc.
    change (String c rest +:+ s) with (String c (rest +:+ s)).
    cbn [splitComma]. rewrite Hc, (IH Hrest).
    pose proof (splitComma_nonempty s) as Hne.
    destruct (splitComma s); [contradiction | reflexivity].
Qed.

Lemma append_empty (x : string) : x +:+ "" = x.
Proof.
  induction x as [| c rest IH]; [reflexivity |].
  change (String c rest +:+ "") with (String c (rest +:+ "")). rewrite IH. reflexivity.
Qed.

Lemma splitComma_joinComma (value : string) (rest : list string) :
  Forall (fun id_ => noComma id_ = true) (value :: rest) ->
  splitComma (joinComma (value :: rest)) = value :: ((fun id_ => " " +:+ id_) <$> rest).
Proof.
  revert value. induction rest as [| next rest IH]; intros value Hall.
  - apply Forall_cons in Hall as [Hvalue _].
    cbn [joinComma fmap list_fmap].
    rewrite <- (append_empty value) at 1. rewrite (splitComma_prefix _ _ Hvalue).
    cbn [splitComma]. rewrite append_empty. reflexivity.
  - apply Forall_cons in Hall as [Hvalue Hrest].
    change (joinComma (value :: next :: rest))
      with (value +:+ String ","%char (String " "%char (joinComma (next :: rest)))).
    rewrite (splitComma_prefix _ _ Hvalue).
    cbn [splitComma Ascii.eqb Bool.eqb]. rewrite (IH next Hrest), append_empty.
    reflexivity.
Qed.

(** X30.  Task ids written out and read back: for ids without comma,
    [parseTaskIdInput] of the text that [formatTaskIds] makes of them is
    their normal form, the ids trimmed, without the empty ones and without
    repetition, which is what [uniqIds] and [dedupeIds] make of the list
    itself. *)
Theorem parseTaskIdInput_formatTaskIds (ids : option (list string)) :
  Forall (fun id_ => noComma id_ = true) (default [] ids) ->
  parseTaskIdInput (formatTaskIds ids) = uniqIds ids.
Proof.
  unfold parseTaskIdInput, formatTaskIds, uniqIds.
  destruct (default [] ids) as [| value rest]; [reflexivity |].
  intros Hall. rewrite (splitComma_joinComma value rest Hall).
  do 2 f_equal. cbn [List.map]. f_equal.
  clear. induction rest as [| next rest IH]; [reflexivity |].
  cbn [fmap list_fmap List.map]. f_equal. exact IH.
Qed.

(** X30 at three ids, one of them twice and with spaces around it. *)
Lemma parseTaskIdInput_formatTaskIds_witness :
  parseTaskIdInput (formatTaskIds (Some ["task-1"; " task-2 "; "task-1"]))
  = ["task-1"; "task-2"].
Proof.
  rewrite (parseTaskIdInput_formatTaskIds (Some ["task-1"; " task-2 "; "task-1"])).
  - reflexivity.
  - repeat constructor.
Defined.
